(** * DeepOBS (PyTorch runners): a shallow embedding of
      [deepobs/pytorch/runners/runner_utils.py] and of
      [deepobs/pytorch/testproblems/cifar10_vgg16.py].

    Python integers are [Z], Python floats are IEEE binary64 values in the
    sense of [SpecFloat] (precision 53, maximal exponent 1024), Python strings
    are [string]s of bytes, dictionaries with string keys are [gmap string _],
    and code that can raise runs in the small error monad [result]. *)

From Stdlib Require Import ZArith List String Ascii Bool Lia.
From Stdlib Require Import SpecFloat.
From stdpp Require Import gmap strings list fin_maps sorting.

Local Open Scope string_scope.
Local Open Scope Z_scope.

(** ** Exceptions and the error monad *)

Module Py.

Inductive exn : Type :=
| IndexError
| ValueError
| TypeError
| ArgumentError (msg : string)
| SystemExit (status : Z) (msg : string).

Inductive result (A : Type) : Type :=
| Ok (a : A)
| Raise (e : exn).
Arguments Ok {A} a.
Arguments Raise {A} e.

Definition bind {A B : Type} (r : result A) (k : A -> result B) : result B :=
  match r with
  | Ok a => k a
  | Raise e => Raise e
  end.

Definition returns {A : Type} (r : result A) : Prop :=
  match r with Ok _ => True | Raise _ => False end.


(** [l[i]] for a non-negative index: [IndexError] out of range. *)
Definition getitem {A : Type} (l : list A) (i : nat) : result A :=
  match l !! i with
  | Some a => Ok a
  | None => Raise IndexError
  end.

End Py.

Export Py.

#[export] Instance result_bind : MBind result :=
  fun A B k r => Py.bind r k.
#[export] Instance result_ret : MRet result := @Py.Ok.

(** ** Strings: the pieces of [str] the runner uses *)

Module Str.

Definition char_eqb (a b : ascii) : bool := Ascii.eqb a b.

(** [s.split(sep)] for a one-character separator. *)
Fixpoint split_on (sep : ascii) (s : string) : list string :=
  match s with
  | EmptyString => [EmptyString]
  | String c s' =>
      if char_eqb c sep then EmptyString :: split_on sep s'
      else match split_on sep s' with
           | h :: t => String c h :: t
           | [] => [String c EmptyString]
           end
  end.

(** [s.rstrip(ch)] for a one-character set. *)
Fixpoint rstrip (ch : ascii) (s : string) : string :=
  match s with
  | EmptyString => EmptyString
  | String c s' =>
      match rstrip ch s' with
      | EmptyString => if char_eqb c ch then EmptyString else String c EmptyString
      | r => String c r
      end
  end.

(** [s.lstrip(ch)]. *)
Fixpoint lstrip (ch : ascii) (s : string) : string :=
  match s with
  | String c s' => if char_eqb c ch then lstrip ch s' else s
  | EmptyString => EmptyString
  end.

(** [s.replace(a, b)] for single characters. *)
Fixpoint replace_char (a b : ascii) (s : string) : string :=
  match s with
  | EmptyString => EmptyString
  | String c s' => String (if char_eqb c a then b else c) (replace_char a b s')
  end.

(** [needle in s]. *)
Fixpoint contains (needle s : string) : bool :=
  String.prefix needle s ||
  match s with
  | EmptyString => false
  | String _ s' => contains needle s'
  end.

Fixpoint mem_char (c : ascii) (s : string) : bool :=
  match s with
  | EmptyString => false
  | String d s' => char_eqb c d || mem_char c s'
  end.

Definition digit_char (d : Z) : ascii := ascii_of_nat (48 + Z.to_nat d).

Definition is_digit (c : ascii) : bool :=
  let n := nat_of_ascii c in (48 <=? n)%nat && (n <=? 57)%nat.

Fixpoint all_digits (s : string) : bool :=
  match s with
  | EmptyString => true
  | String c s' => is_digit c && all_digits s'
  end.

(** The [w] low decimal digits of [n], most significant first, put in
    front of [acc]. *)
Fixpoint fixed_digits (w : nat) (n : Z) (acc : string) : string :=
  match w with
  | O => acc
  | S w' => fixed_digits w' (n / 10) (String (digit_char (n mod 10)) acc)
  end.

(** Number of decimal digits of [n] ([1] for [n <= 9]). *)
Fixpoint ndigits_fuel (fuel : nat) (n : Z) : nat :=
  match fuel with
  | O => 1
  | S f => if n <? 10 then 1%nat else S (ndigits_fuel f (n / 10))
  end.

Definition ndigits (n : Z) : nat := ndigits_fuel (Z.to_nat (Z.log2 n)) n.

(** [str(n)] for a non-negative integer. *)
Definition of_nonneg (n : Z) : string := fixed_digits (ndigits n) n "".

(** [str(z)] and ["{:d}".format(z)] for an integer. *)
Definition of_int (z : Z) : string :=
  if z <? 0 then "-" +:+ of_nonneg (- z) else of_nonneg z.

(** Zero padding to at least two digits, as in [%02d]. *)
Definition pad2 (n : Z) : string :=
  if n <? 10 then "0" +:+ of_nonneg n else of_nonneg n.

End Str.

(** ** Floats: binary64, multiplication and the ["{:.10e}"] format *)

Module Float.

Definition float : Type := spec_float.

Definition prec : Z := 53.
Definition emax : Z := 1024.

Definition mul (x y : float) : float := SFmul prec emax x y.
Definition add (x y : float) : float := SFadd prec emax x y.

(** The float nearest to [digits * 10^exp10] (a decimal literal). *)
Definition of_decimal (neg : bool) (digits : Z) (exp10 : Z) : float :=
  match digits with
  | Zpos d =>
      if 0 <=? exp10
      then binary_round prec emax neg (Pos.mul d (Z.to_pos (10 ^ exp10))) 0
      else SFdiv prec emax (S754_finite neg d 0)
                 (S754_finite false (Z.to_pos (10 ^ (- exp10))) 0)
  | _ => S754_zero neg
  end.

(** The floats nearest to 1, 0.5, 0.1 and 0.01. *)
Definition d_1_0 : float := S754_finite false 4503599627370496 (-52).
Definition d_0_5 : float := S754_finite false 4503599627370496 (-53).
Definition d_0_1 : float := S754_finite false 7205759403792794 (-56).
Definition d_0_01 : float := S754_finite false 5764607523034235 (-59).

Definition is_finite (x : float) : bool :=
  match x with
  | S754_zero _ | S754_finite _ _ _ => true
  | _ => false
  end.

(** [floor (log10 (N / D))] for positive [N] and [D]. *)
Definition dec_exponent (N D : Z) : Z :=
  if D <=? N then Z.of_nat (Str.ndigits (N / D)) - 1
  else - Z.of_nat (Str.ndigits ((D - 1) / N)).

(** [N / D] rounded to the nearest integer, ties to even. *)
Definition round_half_even (N D : Z) : Z :=
  let q := N / D in
  let r := N mod D in
  match 2 * r ?= D with
  | Lt => q
  | Gt => q + 1
  | Eq => if Z.even q then q else q + 1
  end.

(** Decimal exponent and the 11 significant digits (as an integer in
    [10^10 .. 10^11 - 1]) of the positive rational [N / D]. *)
Definition sci_digits (N D : Z) : Z * Z :=
  let k := dec_exponent N D in
  let s := 10 - k in
  let q := if 0 <=? s then round_half_even (N * 10 ^ s) D
           else round_half_even N (D * 10 ^ (- s)) in
  if q =? 10 ^ 11 then (k + 1, 10 ^ 10) else (k, q).

Definition sign_str (neg : bool) : string := if neg then "-" else "".

Definition exponent_str (k : Z) : string :=
  (if k <? 0 then "-" else "+") +:+ Str.pad2 (Z.abs k).

Definition mantissa_str (neg : bool) (q : Z) : string :=
  sign_str neg +:+
  Str.fixed_digits 1 (q / 10 ^ 10) ("." +:+ Str.fixed_digits 10 (q mod 10 ^ 10) "").

(** ["{:.10e}".format(x)]. *)
Definition format_10e (x : float) : string :=
  match x with
  | S754_nan => "nan"
  | S754_infinity neg => sign_str neg +:+ "inf"
  | S754_zero neg => mantissa_str neg 0 +:+ "e" +:+ exponent_str 0
  | S754_finite neg m e =>
      let '(k, q) :=
        if 0 <=? e then sci_digits (Zpos m * 2 ^ e) 1
        else sci_digits (Zpos m) (2 ^ (- e)) in
      mantissa_str neg q +:+ "e" +:+ exponent_str k
  end.

End Float.

Export Float.

(** ** Python values *)

Module Value.

(** Scalars: [None], booleans, integers, floats and strings. *)
Inductive atom : Type :=
| ANone
| ABool (b : bool)
| AInt (z : Z)
| AFloat (x : float)
| AStr (s : string).

(** A value stored in the argument dictionary: a scalar or a list of
    scalars (what [nargs="+"] produces). *)
Inductive pyval : Type :=
| Atom (a : atom)
| PyList (l : list atom).

Coercion Atom : atom >-> pyval.

Definition is_none (v : pyval) : bool :=
  match v with Atom ANone => true | _ => false end.

(** [isinstance(v, float)]: a [bool] or an [int] is not a float. *)
Definition isinstance_float (v : atom) : bool :=
  match v with AFloat _ => true | _ => false end.

End Value.

Export Value.

(** ** The clock: [time.strftime("%Y-%m-%d-%H-%M-%S")] *)

Module Clock.

(** A reading of the local clock ([time.localtime()]). *)
Record struct_time : Type := {
  tm_year : Z; tm_mon : Z; tm_mday : Z;
  tm_hour : Z; tm_min : Z; tm_sec : Z
}.

Definition strftime (t : struct_time) : string :=
  Str.of_int (tm_year t) +:+ "-" +:+ Str.pad2 (tm_mon t) +:+ "-" +:+
  Str.pad2 (tm_mday t) +:+ "-" +:+ Str.pad2 (tm_hour t) +:+ "-" +:+
  Str.pad2 (tm_min t) +:+ "-" +:+ Str.pad2 (tm_sec t).

End Clock.

Export Clock.

(** ** NumPy: the three array operations of [determine_lr] *)

Module Np.

(** [help_array <= epoch]: the boolean mask. *)
Definition le_mask (help_array : list Z) (epoch : Z) : list bool :=
  map (fun b => b <=? epoch) help_array.

(** [np.where(mask)[0]]: the indices at which the mask holds, ascending. *)
Fixpoint where_from (i : nat) (mask : list bool) : list nat :=
  match mask with
  | [] => []
  | b :: mask' =>
      if b then i :: where_from (S i) mask' else where_from (S i) mask'
  end.

Definition where_ (mask : list bool) : list nat := where_from 0 mask.

(** [np.argmax(a)]: the position of the first maximal entry;
    [ValueError] on an empty array. *)
Fixpoint argmax_from (best_pos best : nat) (pos : nat) (a : list nat) : nat :=
  match a with
  | [] => best_pos
  | x :: a' =>
      if (best <? x)%nat then argmax_from pos x (S pos) a'
      else argmax_from best_pos best (S pos) a'
  end.

Definition argmax (a : list nat) : result nat :=
  match a with
  | [] => Raise ValueError
  | x :: a' => Ok (argmax_from 0 x 1 a')
  end.

End Np.

(** ** The conversions [int(s)] and [float(s)] of a command-line word *)

Module Builtins.

Fixpoint digits_value (s : string) (acc : Z) : option Z :=
  match s with
  | EmptyString => Some acc
  | String c s' =>
      if Str.is_digit c
      then digits_value s' (10 * acc + (Z.of_nat (nat_of_ascii c) - 48))
      else None
  end.

(** Leading digits of [s] and what follows them. *)
Fixpoint span_digits (s : string) : string * string :=
  match s with
  | String c s' =>
      if Str.is_digit c
      then let '(d, r) := span_digits s' in (String c d, r)
      else (EmptyString, s)
  | EmptyString => (EmptyString, EmptyString)
  end.

Definition split_sign (s : string) : bool * string :=
  match s with
  | String "-" b => (true, b)
  | String "+" b => (false, b)
  | _ => (false, s)
  end.

(** A decimal integer: an optional sign, then one digit or more. *)
Definition signed_digits (s : string) : option Z :=
  let '(neg, body) := split_sign s in
  match body with
  | EmptyString => None
  | _ => z ← digits_value body 0; Some (if neg then - z else z)
  end.

(** [int(s)] on plain decimal literals ([None]: [ValueError]). *)
Definition py_int (s : string) : option atom := AInt <$> signed_digits s.

(** [float(s)] on decimal literals [[sign] digits [. digits] [e [sign] digits]]
    and on [inf] and [nan] ([None]: [ValueError]); the result is the
    binary64 value nearest to the literal. *)
Definition py_float (s : string) : option atom :=
  let '(neg, body) := split_sign s in
  if String.eqb body "inf" then Some (AFloat (S754_infinity neg))
  else if String.eqb body "nan" then Some (AFloat S754_nan)
  else
    let '(int_part, r) := span_digits body in
    let '(frac_part, r) :=
      match r with
      | String "." r' => span_digits r'
      | _ => (EmptyString, r)
      end in
    match int_part +:+ frac_part with
    | EmptyString => None
    | ds =>
        e ← match r with
            | EmptyString => Some 0
            | String c r' =>
                if Str.char_eqb c "e" || Str.char_eqb c "E"
                then signed_digits r' else None
            end;
        m ← digits_value ds 0;
        Some (AFloat (of_decimal neg m (e - Z.of_nat (String.length frac_part))))
    end.

(** [str(s)], and the conversion of an argument declared without a type. *)
Definition py_str (s : string) : option atom := Some (AStr s).

End Builtins.

Export Builtins.

(** ** [argparse]: the parser object, [add_argument] and [parse_args]

    Modelled after CPython's [argparse] for what [get_arguments] uses:
    one positional argument, flags that store one value ([nargs=None]) or
    one value or more ([nargs="+"]), [store_const] flags, the automatic
    [-h/--help], [required] and [default]. Usage errors are
    [SystemExit 2], a help request is [SystemExit 0]. *)

Module Argparse.

Inductive Nargs : Type := NargsNone | NargsPlus.

Inductive ActionKind : Type :=
| Store (nargs : Nargs)
| StoreConst (const : pyval)
| Help.

Record Action : Type := {
  option_strings : list string;   (* empty for a positional *)
  dest : string;
  kind : ActionKind;
  default : pyval;
  type_ : string -> option atom;
  required : bool
}.

(** The parser: its actions in the order they were registered. *)
Definition ArgumentParser : Type := list Action.

Definition usage_error {A : Type} (msg : string) : result A :=
  Raise (SystemExit 2 msg).

Definition help_action : Action := {|
  option_strings := ["-h"; "--help"];
  dest := "help";
  kind := Help;
  default := ANone;
  type_ := py_str;
  required := false
|}.

(** [argparse.ArgumentParser(description=...)] *)
Definition new_parser : ArgumentParser := [help_action].

(** The table [_option_string_actions]: every registered flag with the
    index of its action. *)
Fixpoint option_table_from (i : nat) (p : ArgumentParser) : list (string * nat) :=
  match p with
  | [] => []
  | a :: p' =>
      (map (fun o => (o, i)) (option_strings a) ++ option_table_from (S i) p')%list
  end.

Definition option_table (p : ArgumentParser) : list (string * nat) :=
  option_table_from 0 p.

Fixpoint lookup_option (tbl : list (string * nat)) (o : string) : option nat :=
  match tbl with
  | [] => None
  | (o', i) :: tbl' => if String.eqb o' o then Some i else lookup_option tbl' o
  end.

Definition starts_with_dash (s : string) : bool :=
  match s with String "-" _ => true | _ => false end.

(** A long flag: more than one character, the second a dash as well. *)
Definition is_long (s : string) : bool :=
  match s with String _ (String "-" _) => true | _ => false end.

(** The keyword arguments of an [add_argument] call. *)
Record Kwargs : Type := {
  kw_kind : ActionKind;
  kw_type : string -> option atom;
  kw_default : pyval;
  kw_required : bool
}.

Definition plain : Kwargs :=
  {| kw_kind := Store NargsNone; kw_type := py_str;
     kw_default := ANone; kw_required := false |}.

(** [dest] inferred from the flags: the first long flag if there is one,
    else the first flag, without its leading dashes and with [-] turned
    into [_]. *)
Definition infer_dest (flags : list string) : result string :=
  match (List.filter is_long flags ++ flags)%list with
  | [] => Raise ValueError
  | o :: _ =>
      match Str.lstrip "-" o with
      | EmptyString => Raise ValueError
      | d => Ok (Str.replace_char "-" "_" d)
      end
  end.

(** The action a call of [add_argument] creates. *)
Definition make_action (flags : list string) (d : string) (kw : Kwargs) : Action :=
  {| option_strings := flags; dest := d; kind := kw_kind kw;
     default := kw_default kw; type_ := kw_type kw; required := kw_required kw |}.

(** A positional argument stores one word and has to be there. *)
Definition positional_action (name : string) : Action :=
  {| option_strings := []; dest := name; kind := Store NargsNone;
     default := ANone; type_ := py_str; required := true |}.

(** [parser.add_argument(name)] for a positional argument. *)
Definition add_positional (p : ArgumentParser) (name : string) : result ArgumentParser :=
  Ok (p ++ [positional_action name])%list.

(** [parser.add_argument(flag, ..., **kwargs)] for an optional argument:
    [ValueError] for a flag that does not start with a dash,
    [ArgumentError] for a flag that is registered already. *)
Definition add_argument (p : ArgumentParser) (flags : list string) (kw : Kwargs)
  : result ArgumentParser :=
  if negb (forallb starts_with_dash flags) then Raise ValueError
  else
    d ← infer_dest flags;
    if existsb (fun o => bool_decide (is_Some (lookup_option (option_table p) o))) flags
    then Raise (ArgumentError "conflicting option string")
    else Ok (p ++ [make_action flags d kw])%list.

(** *** Reading the command line *)

(** [s.split("=", 1)] when [s] has an [=]. *)
Fixpoint split_eq (s : string) : option (string * string) :=
  match s with
  | EmptyString => None
  | String c s' =>
      if Str.char_eqb c "=" then Some (EmptyString, s')
      else '(a, b) ← split_eq s'; Some (String c a, b)
  end.

(** The pattern [^-\d+$|^-\d*\.\d+$]. *)
Definition is_negative_number (s : string) : bool :=
  match s with
  | String "-" body =>
      let '(d, r) := span_digits body in
      match r with
      | EmptyString => negb (String.eqb d EmptyString)
      | String "." f => negb (String.eqb f EmptyString) && Str.all_digits f
      | _ => false
      end
  | _ => false
  end.

Definition has_negative_number_optionals (tbl : list (string * nat)) : bool :=
  existsb (fun e => is_negative_number (fst e)) tbl.

(** A word read as a flag: the action (if the flag is known), the flag as
    registered and the argument attached to it, if any. *)
Definition OptionTuple : Type := option nat * string * option string.

Definition string_tail (n : nat) (s : string) : string :=
  String.substring n (String.length s - n) s.

(** [_get_option_tuples]: the registered flags a word abbreviates. *)
Definition get_option_tuples (tbl : list (string * nat)) (tok : string)
  : list OptionTuple :=
  if is_long tok then
    let '(option_prefix, explicit_arg) :=
      match split_eq tok with
      | Some (o, e) => (o, Some e)
      | None => (tok, None)
      end in
    omap (fun '(o, i) =>
            if String.prefix option_prefix o
            then Some (Some i, o, explicit_arg) else None) tbl
  else
    let short_option_prefix := String.substring 0 2 tok in
    let short_explicit_arg := string_tail 2 tok in
    omap (fun '(o, i) =>
            if String.eqb o short_option_prefix
            then Some (Some i, o, Some short_explicit_arg)
            else if String.prefix tok o then Some (Some i, o, None)
            else None) tbl.

(** [_parse_optional]: [None] for a word that is an argument, a tuple for
    a word that is a flag; an ambiguous abbreviation is a usage error. *)
Definition parse_optional (tbl : list (string * nat)) (tok : string)
  : result (option OptionTuple) :=
  if negb (starts_with_dash tok) then Ok None
  else
    match lookup_option tbl tok with
    | Some i => Ok (Some (Some i, tok, None))
    | None =>
        if (String.length tok =? 1)%nat then Ok None
        else
          let exact_with_arg :=
            '(o, e) ← split_eq tok;
            i ← lookup_option tbl o;
            Some (Some i, o, Some e) in
          match exact_with_arg with
          | Some t => Ok (Some t)
          | None =>
              match get_option_tuples tbl tok with
              | _ :: _ :: _ => usage_error "ambiguous option"
              | [t] => Ok (Some t)
              | [] =>
                  if is_negative_number tok && negb (has_negative_number_optionals tbl)
                  then Ok None
                  else if Str.mem_char " " tok then Ok None
                  else Ok (Some (None, tok, None))
              end
          end
    end.

(** The command line as [parse_args] sees it: arguments, the [--]
    separator, flags. *)
Inductive Sym : Type :=
| SymA (tok : string)
| SymDash
| SymO (t : OptionTuple) (tok : string).

Fixpoint classify (tbl : list (string * nat)) (argv : list string)
  : result (list Sym) :=
  match argv with
  | [] => Ok []
  | tok :: rest =>
      if String.eqb tok "--" then Ok (SymDash :: map SymA rest)
      else
        o ← parse_optional tbl tok;
        syms ← classify tbl rest;
        Ok (match o with None => SymA tok | Some t => SymO t tok end :: syms)
  end.

Definition sym_token (s : Sym) : string :=
  match s with
  | SymA tok => tok
  | SymDash => "--"
  | SymO _ tok => tok
  end.

(** The state of a parse: the namespace, the indices of the actions
    seen, the positional actions still to fill, the words not
    recognised. *)
Record State : Type := {
  namespace : gmap string pyval;
  seen : list nat;
  positionals : list nat;
  extras : list string
}.

Definition add_extra (st : State) (tok : string) : State :=
  {| namespace := namespace st; seen := seen st;
     positionals := positionals st; extras := (extras st ++ [tok])%list |}.

(** [_get_values]: the words of an argument converted by its [type]. *)
Definition get_values (a : Action) (words : list string) : result pyval :=
  match kind a with
  | Store NargsNone =>
      match words with
      | [w] =>
          match type_ a w with
          | Some v => Ok (Atom v)
          | None => usage_error "invalid value"
          end
      | _ => usage_error "expected one argument"
      end
  | Store NargsPlus =>
      match mapM (type_ a) words with
      | Some vs => Ok (PyList vs)
      | None => usage_error "invalid value"
      end
  | StoreConst c => Ok c
  | Help => Ok (Atom ANone)
  end.

(** [take_action]: convert the words, mark the action seen and run it. *)
Definition take_action (p : ArgumentParser) (st : State)
    (t : nat * list string) : result State :=
  let '(i, words) := t in
  match p !! i with
  | None => Raise IndexError
  | Some a =>
      v ← get_values a words;
      match kind a with
      | Help => Raise (SystemExit 0 "help")
      | _ =>
          Ok {| namespace := <[dest a := v]> (namespace st);
                seen := i :: seen st;
                positionals := positionals st;
                extras := extras st |}
      end
  end.

Fixpoint take_actions (p : ArgumentParser) (st : State)
    (ts : list (nat * list string)) : result State :=
  match ts with
  | [] => Ok st
  | t :: ts' => st' ← take_action p st t ; take_actions p st' ts'
  end.

(** Whether the action takes no argument (its pattern matches nothing). *)
Definition takes_no_argument (a : Action) : bool :=
  match kind a with Store _ => false | _ => true end.

Fixpoint span_args (syms : list Sym) : list string * list Sym :=
  match syms with
  | SymA w :: rest => let '(ws, r) := span_args rest in (w :: ws, r)
  | _ => ([], syms)
  end.

(** A flag without attached argument takes its words from what follows. *)
Definition consume_following (p : ArgumentParser) (i : nat) (rest : list Sym)
  : result ((nat * list string) * list Sym) :=
  match p !! i with
  | None => Raise IndexError
  | Some a =>
      match kind a with
      | Store NargsNone =>
          match rest with
          | SymA w :: rest' => Ok ((i, [w]), rest')
          | _ => usage_error "expected one argument"
          end
      | Store NargsPlus =>
          match span_args rest with
          | ([], _) => usage_error "expected at least one argument"
          | (ws, rest') => Ok ((i, ws), rest')
          end
      | _ => Ok ((i, []), rest)
      end
  end.

(** A flag with an attached argument. A one-dash flag that takes no
    argument reads the attachment as further one-dash flags. *)
Fixpoint consume_explicit (p : ArgumentParser) (tbl : list (string * nat))
    (i : nat) (option_string : string) (explicit_arg : string)
    (rest : list Sym) {struct explicit_arg}
  : result (list (nat * list string) * list Sym) :=
  match p !! i with
  | None => Raise IndexError
  | Some a =>
      if takes_no_argument a then
        if negb (is_long option_string) then
          match explicit_arg with
          | EmptyString => Raise IndexError
          | String c new_explicit_arg =>
              let option_string' := String "-" (String c EmptyString) in
              match lookup_option tbl option_string' with
              | None => usage_error "ignored explicit argument"
              | Some i' =>
                  match new_explicit_arg with
                  | EmptyString =>
                      '(t, rest') ← consume_following p i' rest;
                      Ok ([(i, []); t], rest')
                  | _ =>
                      '(ts, rest') ← consume_explicit p tbl i' option_string'
                                        new_explicit_arg rest;
                      Ok ((i, []) :: ts, rest')
                  end
              end
          end
        else usage_error "ignored explicit argument"
      else Ok ([(i, [explicit_arg])], rest)
  end.

(** The pattern of the positional: the separator any number of times,
    one argument, the separator any number of times. *)
Fixpoint drop_dashes (syms : list Sym) : list Sym :=
  match syms with
  | SymDash :: rest => drop_dashes rest
  | _ => syms
  end.

Definition match_positional (syms : list Sym) : option (string * list Sym) :=
  match drop_dashes syms with
  | SymA w :: rest => Some (w, drop_dashes rest)
  | _ => None
  end.

(** The main loop of [_parse_known_args]. Every round consumes one word
    at least, so [length syms] rounds are enough. *)
Fixpoint consume (fuel : nat) (p : ArgumentParser) (tbl : list (string * nat))
    (st : State) (syms : list Sym) : result State :=
  match fuel with
  | O => Ok st
  | S fuel' =>
      match syms with
      | [] => Ok st
      | SymO (None, _, _) tok :: rest =>
          consume fuel' p tbl (add_extra st tok) rest
      | SymO (Some i, option_string, explicit_arg) tok :: rest =>
          '(ts, rest') ←
            match explicit_arg with
            | Some e => consume_explicit p tbl i option_string e rest
            | None => '(t, rest') ← consume_following p i rest ; Ok ([t], rest')
            end;
          st' ← take_actions p st ts;
          consume fuel' p tbl st' rest'
      | s :: rest =>
          match positionals st, match_positional syms with
          | i :: ps, Some (w, rest') =>
              st' ← take_action p
                       {| namespace := namespace st; seen := seen st;
                          positionals := ps; extras := extras st |} (i, [w]);
              consume fuel' p tbl st' rest'
          | _, _ => consume fuel' p tbl (add_extra st (sym_token s)) rest
          end
      end
  end.

(** The namespace before any word is read: every action's default, the
    first registered action of a [dest] winning. *)
Fixpoint initial_namespace (p : ArgumentParser) (ns : gmap string pyval)
  : gmap string pyval :=
  match p with
  | [] => ns
  | a :: p' =>
      match kind a, ns !! dest a with
      | Help, _ => initial_namespace p' ns
      | _, Some _ => initial_namespace p' ns
      | _, None => initial_namespace p' (<[dest a := default a]> ns)
      end
  end.

Fixpoint positional_indices (i : nat) (p : ArgumentParser) : list nat :=
  match p with
  | [] => []
  | a :: p' =>
      match option_strings a with
      | [] => i :: positional_indices (S i) p'
      | _ => positional_indices (S i) p'
      end
  end.

(** After the last word: an action not seen must not be required; its
    default, when it is a string still in the namespace, is converted by
    its [type]. *)
Fixpoint finish (i : nat) (p : ArgumentParser) (seen : list nat)
    (ns : gmap string pyval) : result (gmap string pyval) :=
  match p with
  | [] => Ok ns
  | a :: p' =>
      if bool_decide (i ∈ seen) then finish (S i) p' seen ns
      else if required a then
        _ ← finish (S i) p' seen ns;
        usage_error "the following arguments are required"
      else
        match default a, ns !! dest a with
        | Atom (AStr s), Some (Atom (AStr s')) =>
            if String.eqb s s' then
              match type_ a s with
              | Some v => finish (S i) p' seen (<[dest a := Atom v]> ns)
              | None => usage_error "invalid value"
              end
            else finish (S i) p' seen ns
        | _, _ => finish (S i) p' seen ns
        end
  end.

(** [vars(parser.parse_args())] on the command line [argv]. *)
Definition parse_args (p : ArgumentParser) (argv : list string)
  : result (gmap string pyval) :=
  let tbl := option_table p in
  let st0 := {| namespace := initial_namespace p ∅; seen := [];
                positionals := positional_indices 0 p; extras := [] |} in
  syms ← classify tbl argv;
  st ← consume (length syms) p tbl st0 syms;
  ns ← finish 0 p (seen st) (namespace st);
  match extras st with
  | [] => Ok ns
  | _ => usage_error "unrecognized arguments"
  end.

End Argparse.

Module RunnerUtils.

(** [float2str] (runner_utils.py, lines 9-12). Unpacking the result of
    [split] into two names raises [ValueError] unless there are exactly
    two pieces. *)
Definition float2str (x : float) : result string :=
  let s := format_10e x in
  match Str.split_on "e" s with
  | [mantissa; exponent] => Ok (Str.rstrip "0" mantissa +:+ "e" +:+ exponent)
  | _ => Raise ValueError
  end.

(** *** [make_run_name] (lines 15-61) *)

(** The order [sorted] puts the items of the keyword dictionary in: items
    are (name, value) tuples and the names of a dictionary are distinct, so
    the comparison is decided by the names, compared as strings. *)
Definition item_le (a b : string * atom) : Prop := String.le (fst a) (fst b).

Definition item_le_dec (a b : string * atom) : Decision (item_le a b) :=
  String.le_dec (fst a) (fst b).

Definition sorted_items (d : gmap string atom) : list (string * atom) :=
  @merge_sort _ item_le item_le_dec (map_to_list d).

(** [float2str(hp_value) if isinstance(hp_value, float) else str(hp_value)] *)
Definition hp_text (hp_value : atom) : result string :=
  match hp_value with
  | AFloat x => float2str x
  | ANone => Ok "None"
  | ABool true => Ok "True"
  | ABool false => Ok "False"
  | AInt z => Ok (Str.of_int z)
  | AStr s => Ok s
  end.

(** A [for] loop whose body may raise, threading the accumulated name. *)
Fixpoint for_each {A : Type} (body : string -> A -> result string)
    (l : list A) (acc : string) : result string :=
  match l with
  | [] => Ok acc
  | x :: l' => acc' ← body acc x ; for_each body l' acc'
  end.

(** [zip(epochs, factors)]: [TypeError] when [factors] is [None]. *)
Definition py_zip (epochs : list Z) (factors : option (list float))
  : result (list (Z * float)) :=
  match factors with
  | None => Raise TypeError
  | Some fs => Ok (zip epochs fs)
  end.

Definition make_run_name (now : struct_time)
    (weight_decay : option float) (batch_size num_epochs : Z)
    (learning_rate : float)
    (lr_sched_epochs : option (list Z)) (lr_sched_factors : option (list float))
    (random_seed : Z) (optimizer_hyperparams : gmap string atom)
  : result (string * string) :=
  let run_folder_name :=
    "num_epochs__" +:+ Str.of_int num_epochs +:+ "__batch_size__" +:+
    Str.of_int batch_size +:+ "__" in
  run_folder_name ←
    match weight_decay with
    | Some wd =>
        w ← float2str wd;
        Ok (run_folder_name +:+ ("weight_decay__" +:+ w +:+ "__"))
    | None => Ok run_folder_name
    end;
  run_folder_name ←
    for_each (fun name '(hp_name, hp_value) =>
                let name := name +:+ (hp_name +:+ "__") in
                v ← hp_text hp_value;
                Ok (name +:+ (v +:+ "__")))
             (sorted_items optimizer_hyperparams) run_folder_name;
  run_folder_name ←
    match lr_sched_epochs with
    | None =>
        l ← float2str learning_rate;
        Ok (run_folder_name +:+ ("lr__" +:+ l))
    | Some epochs =>
        l ← float2str learning_rate;
        let name :=
          run_folder_name +:+ ("lr_schedule__" +:+ Str.of_int 0 +:+ "_" +:+ l) in
        pairs ← py_zip epochs lr_sched_factors;
        for_each (fun name '(epoch, factor) =>
                    f ← float2str (mul factor learning_rate);
                    Ok (name +:+ ("_" +:+ Str.of_int epoch +:+ "_" +:+ f)))
                 pairs name
    end;
  let file_name := "random_seed__" +:+ Str.of_int random_seed +:+ "__" in
  let file_name := file_name +:+ strftime now in
  Ok (run_folder_name, file_name).

(** *** [make_lr_schedule] (lines 64-103) *)

(** The optimizer "already holds the base learning rate". *)
Record Optimizer : Type := { lr : float }.

(** [torch.optim.lr_scheduler.LambdaLR(optimizer, lr_lambda)]: the scheduler
    object, holding the optimizer and the multiplier function. *)
Record LambdaLR : Type := {
  optimizer : Optimizer;
  lr_lambda : Z -> result atom
}.

(** The inner [determine_lr] of the [else] branch (lines 94-100). *)
Definition determine_lr (lr_sched_epochs : list Z) (lr_sched_factors : list float)
    (epoch : Z) : result atom :=
  first ← getitem lr_sched_epochs 0;
  if epoch <? first then Ok (AInt 1)
  else
    let help_array := lr_sched_epochs in
    index ← Np.argmax (Np.where_ (Np.le_mask help_array epoch));
    factor ← getitem lr_sched_factors index;
    Ok (AFloat factor).

Definition make_lr_schedule (optimizer : Optimizer)
    (lr_sched_epochs : option (list Z)) (lr_sched_factors : option (list float))
  : LambdaLR :=
  let determine_lr :=
    match lr_sched_factors, lr_sched_epochs with
    | Some factors, Some epochs => determine_lr epochs factors
    | _, _ => fun epoch => Ok (AInt 1)
    end in
  {| optimizer := optimizer; lr_lambda := determine_lr |}.

(** *** [get_arguments] (lines 105-308) *)

Import Argparse.

(** A hyperparameter descriptor: a dictionary with the keys ["name"] and
    ["type"] and, optionally, ["default"]. *)
Record Hyperparam : Type := {
  hp_name : string;
  hp_type : string -> option atom;
  hp_default : option pyval
}.

(** The dictionary [args] and the parser, as the function builds them. *)
Definition Building : Type := gmap string pyval * ArgumentParser.

(** One [if value is None: parser.add_argument(...) else: args[name] = value]. *)
Definition known_or_flag (name : string) (value : pyval)
    (register : ArgumentParser -> result ArgumentParser) (s : Building)
  : result Building :=
  let '(args, parser) := s in
  if is_none value then parser ← register parser; Ok (args, parser)
  else Ok (<[name := value]> args, parser).

Definition typed (type : string -> option atom) : Kwargs :=
  {| kw_kind := Store NargsNone; kw_type := type;
     kw_default := ANone; kw_required := false |}.

Definition typed_required (type : string -> option atom) : Kwargs :=
  {| kw_kind := Store NargsNone; kw_type := type;
     kw_default := ANone; kw_required := true |}.

Definition typed_default (type : string -> option atom) (d : pyval) : Kwargs :=
  {| kw_kind := Store NargsNone; kw_type := type;
     kw_default := d; kw_required := false |}.

Definition typed_plus (type : string -> option atom) : Kwargs :=
  {| kw_kind := Store NargsPlus; kw_type := type;
     kw_default := ANone; kw_required := false |}.

Definition const_flag : Kwargs :=
  {| kw_kind := StoreConst (ABool true); kw_type := py_str;
     kw_default := ABool false; kw_required := false |}.

(** The keyword arguments of the flag of a hyperparameter: its default
    when it has one, [required=True] otherwise. *)
Definition hp_kwargs (hp : Hyperparam) : Kwargs :=
  match hp_default hp with
  | Some hp_default => typed_default (hp_type hp) hp_default
  | None => typed_required (hp_type hp)
  end.

Definition hp_flag (hp : Hyperparam) : string := "--" +:+ hp_name hp.

(** The loop over [hyperparams] (lines 282-303). *)
Fixpoint add_hyperparams (hyperparams : list Hyperparam)
    (optimizer_hyperparams : gmap string pyval) (s : Building) : result Building :=
  match hyperparams with
  | [] => Ok s
  | hp :: rest =>
      let '(args, parser) := s in
      s' ← match optimizer_hyperparams !! hp_name hp with
           | Some v => Ok (<[hp_name hp := v]> args, parser)
           | None =>
               parser ← add_argument parser [hp_flag hp] (hp_kwargs hp);
               Ok (args, parser)
           end;
      add_hyperparams rest optimizer_hyperparams s'
  end.

(** Everything up to the call of [parse_args]: the values passed to the
    function and the parser for the rest. *)
Definition build (hyperparams : list Hyperparam)
    (testproblem weight_decay batch_size num_epochs learning_rate
     lr_sched_epochs lr_sched_factors random_seed data_dir output_dir
     train_log_interval print_train_iter no_logs : pyval)
    (optimizer_hyperparams : gmap string pyval) : result Building :=
  let s : Building := (∅, new_parser) in
  s ← known_or_flag "testproblem" testproblem
        (fun p => add_positional p "testproblem") s;
  s ← known_or_flag "weight_decay" weight_decay
        (fun p => add_argument p ["--weight_decay"; "--wd"] (typed py_float)) s;
  s ← known_or_flag "batch_size" batch_size
        (fun p => add_argument p ["--batch_size"; "--bs"] (typed_required py_int)) s;
  s ← known_or_flag "num_epochs" num_epochs
        (fun p => add_argument p ["-N"; "--num_epochs"] (typed_required py_int)) s;
  s ← known_or_flag "learning_rate" learning_rate
        (fun p => add_argument p ["--learning_rate"; "--lr"]
                    (typed_required py_float)) s;
  s ← known_or_flag "lr_sched_epochs" lr_sched_epochs
        (fun p => add_argument p ["--lr_sched_epochs"] (typed_plus py_int)) s;
  s ← known_or_flag "lr_sched_factors" lr_sched_factors
        (fun p => add_argument p ["--lr_sched_factors"] (typed_plus py_float)) s;
  s ← known_or_flag "random_seed" random_seed
        (fun p => add_argument p ["-r"; "--random_seed"]
                    (typed_default py_int (AInt 42))) s;
  s ← known_or_flag "data_dir" data_dir
        (fun p => add_argument p ["--data_dir"] plain) s;
  s ← known_or_flag "output_dir" output_dir
        (fun p => add_argument p ["--output_dir"]
                    (typed_default py_str (AStr "results"))) s;
  s ← known_or_flag "train_log_interval" train_log_interval
        (fun p => add_argument p ["--train_log_interval"]
                    (typed_default py_int (AInt 10))) s;
  s ← known_or_flag "print_train_iter" print_train_iter
        (fun p => add_argument p ["--print_train_iter"] const_flag) s;
  s ← known_or_flag "no_logs" no_logs
        (fun p => add_argument p ["--no_logs"] const_flag) s;
  add_hyperparams hyperparams optimizer_hyperparams s.

(** [get_arguments]; [argv] is the command line of the process without
    the program name, which [parse_args()] reads. [optimizer_class] is not
    used by the function and [optimizer_name] only in help texts. *)
Definition get_arguments (argv : list string) (hyperparams : list Hyperparam)
    (testproblem weight_decay batch_size num_epochs learning_rate
     lr_sched_epochs lr_sched_factors random_seed data_dir output_dir
     train_log_interval print_train_iter no_logs : pyval)
    (optimizer_hyperparams : gmap string pyval)
  : result (gmap string pyval) :=
  '(args, parser) ← build hyperparams testproblem weight_decay batch_size
                      num_epochs learning_rate lr_sched_epochs lr_sched_factors
                      random_seed data_dir output_dir train_log_interval
                      print_train_iter no_logs optimizer_hyperparams;
  cmdline_args ← parse_args parser argv;
  (* args.update(cmdline_args) *)
  Ok (cmdline_args ∪ args).

End RunnerUtils.

Export RunnerUtils.

(** ** [cifar10_vgg16.get_regularization_loss] *)

Module Vgg16.

(** What the method needs from the tensor library: the value of
    [parameters.pow(2).sum()], addition of two such values, the value [0]
    that [sum] starts from, and multiplication by a Python float. *)
Class Torch (tensor scalar : Type) : Type := {
  pow2_sum : tensor -> scalar;
  s_add : scalar -> scalar -> scalar;
  s_zero : scalar;
  s_scale : float -> scalar -> scalar
}.

Section Loss.
Context {tensor scalar : Type} `{T : Torch tensor scalar}.

(** The test problem: the named parameters of [self.net], in the order
    [named_parameters()] yields them, and [self._weight_decay]. *)
Record cifar10_vgg16 : Type := {
  named_parameters : list (string * tensor);
  _weight_decay : float
}.

(** The loop of lines 24-29, appending to [layer_norms]. *)
Fixpoint collect_norms (params : list (string * tensor))
    (layer_norms : list scalar) : list scalar :=
  match params with
  | [] => layer_norms
  | (parameters_name, parameters) :: rest =>
      if negb (Str.contains "bias" parameters_name)
      then collect_norms rest (layer_norms ++ [pow2_sum parameters])
      else collect_norms rest layer_norms
  end.

(** Python's [sum]: a left fold from [0]. *)
Definition py_sum (l : list scalar) : scalar := fold_left s_add l s_zero.

Definition get_regularization_loss (self : cifar10_vgg16) : scalar :=
  let layer_norms := collect_norms (named_parameters self) [] in
  let regularization_loss := s_scale d_0_5 (py_sum layer_norms) in
  s_scale (_weight_decay self) regularization_loss.

End Loss.

(** An instance: float64 tensors given by their entries, summed left to
    right. *)
Definition float_pow2_sum (t : list float) : float :=
  fold_left (fun acc x => add acc (mul x x)) t (S754_zero false).

#[export] Instance float_torch : Torch (list float) float := {|
  pow2_sum := float_pow2_sum;
  s_add := add;
  s_zero := S754_zero false;
  s_scale := mul
|}.

End Vgg16.

(** ** Notions the statements below use *)

Module Spec.

Import Argparse.

(** *** Run names *)

(** The text of a float in a run name. *)
Definition float_text (x : float) : string :=
  match float2str x with Ok s => s | Raise _ => "" end.

Definition value_text (v : atom) : string :=
  match hp_text v with Ok s => s | Raise _ => "" end.

Definition join (l : list string) : string := foldr String.append "" l.

Definition hp_segment (item : string * atom) : string :=
  fst item +:+ "__" +:+ value_text (snd item) +:+ "__".

Definition step_segment (learning_rate : float) (step : Z * float) : string :=
  "_" +:+ Str.of_int (fst step) +:+ "_" +:+ float_text (mul (snd step) learning_rate).

(** The folder name as the naming convention gives it, for the
    hyperparameters in the order [items]. *)
Definition folder_format (weight_decay : option float) (batch_size num_epochs : Z)
    (learning_rate : float) (lr_sched_epochs : option (list Z))
    (lr_sched_factors : option (list float)) (items : list (string * atom))
  : string :=
  "num_epochs__" +:+ Str.of_int num_epochs +:+ "__batch_size__" +:+
  Str.of_int batch_size +:+ "__" +:+
  match weight_decay with
  | Some w => "weight_decay__" +:+ float_text w +:+ "__"
  | None => ""
  end +:+
  join (map hp_segment items) +:+
  match lr_sched_epochs with
  | None => "lr__" +:+ float_text learning_rate
  | Some epochs =>
      "lr_schedule__0_" +:+ float_text learning_rate +:+
      join (map (step_segment learning_rate)
                (zip epochs (from_option id [] lr_sched_factors)))
  end.

Definition file_format (random_seed : Z) (now : struct_time) : string :=
  "random_seed__" +:+ Str.of_int random_seed +:+ "__" +:+ strftime now.

(** The inputs [make_run_name] can turn into a name: every float it
    formats is finite, and the factor list is there when the epoch list
    is. *)
Definition renderable (weight_decay : option float) (learning_rate : float)
    (lr_sched_epochs : option (list Z)) (lr_sched_factors : option (list float))
    (optimizer_hyperparams : gmap string atom) : Prop :=
  (∀ w, weight_decay = Some w → is_finite w = true) ∧
  (∀ n x, optimizer_hyperparams !! n = Some (AFloat x) → is_finite x = true) ∧
  is_finite learning_rate = true ∧
  (∀ epochs, lr_sched_epochs = Some epochs →
     ∃ factors, lr_sched_factors = Some factors ∧
       ∀ step, step ∈ zip epochs factors →
         is_finite (mul (snd step) learning_rate) = true).

(** *** Regularization *)

(** The parameters the loss penalizes: those whose name does not contain
    ['bias']. *)
Definition penalized {tensor : Type} (p : string * tensor) : bool :=
  negb (Str.contains "bias" (fst p)).

(** *** Schedules *)


(** *** Command lines *)

Definition before_eq (tok : string) : string :=
  match split_eq tok with Some (a, _) => a | None => tok end.

(** The word [tok] of a command line names the flag [o]: it is the flag,
    an abbreviation of it, the flag with a value attached, or a group of
    one-letter flags with the letter of [o] in it. *)
Definition mentions (tok o : string) : bool :=
  String.prefix tok o || String.prefix (before_eq tok) o || String.prefix o tok ||
  match o with
  | String "-" (String c EmptyString) =>
      starts_with_dash tok && negb (is_long tok) && Str.mem_char c tok
  | _ => false
  end.

(** None of the flags is named on the command line. *)
Definition flags_absent (flags argv : list string) : bool :=
  forallb (fun tok => forallb (fun o => negb (mentions tok o)) flags) argv.

(** A word that is read as a flag wherever it stands. *)
Definition flag_word (tok : string) : bool :=
  starts_with_dash tok && negb (String.eqb tok "-") && negb (String.eqb tok "--") &&
  negb (is_negative_number tok) && negb (Str.mem_char " " tok).

(** The action of index [i] has a flag that a word of the command line
    names. *)
Definition named (p : ArgumentParser) (argv : list string) (i : nat) : Prop :=
  ∃ a tok o, p !! i = Some a ∧ tok ∈ argv ∧ o ∈ option_strings a ∧
             mentions tok o = true.

(** What a flag of a classified command line comes from: a word of the
    command line that names it, a one-dash word when the flag has one
    dash and an argument attached. *)
Definition sym_ok (p : ArgumentParser) (argv : list string) (s : Sym) : Prop :=
  match s with
  | SymO (Some i, o, e) tok =>
      tok ∈ argv ∧ (∃ a, p !! i = Some a ∧ o ∈ option_strings a) ∧
      mentions tok o = true ∧
      (is_long o = false -> ∀ ex, e = Some ex ->
         starts_with_dash tok = true ∧ is_long tok = false ∧
         ∀ c, Str.mem_char c ex = true -> Str.mem_char c tok = true)
  | _ => True
  end.

Definition is_flag_sym (s : Sym) : bool :=
  match s with SymO _ _ => true | _ => false end.

(** The key under which [get_arguments] files a hyperparameter read
    from the command line. *)
Definition hp_key (name : string) : string :=
  Str.replace_char "-" "_" (Str.lstrip "-" name).

(** The parameters of [get_arguments] that have a flag of their own. *)
Definition parameter_names : list string :=
  ["testproblem"; "weight_decay"; "batch_size"; "num_epochs"; "learning_rate";
   "lr_sched_epochs"; "lr_sched_factors"; "random_seed"; "data_dir";
   "output_dir"; "train_log_interval"; "print_train_iter"; "no_logs"].

(** The flags that write to [random_seed]: its own, and that of a
    hyperparameter filed under this key. *)
Definition seed_flags (hyperparams : list Hyperparam) : list string :=
  "-r" :: "--random_seed" ::
  map hp_flag
    (List.filter (fun hp => String.eqb (hp_key (hp_name hp)) "random_seed")
                 hyperparams).

(** The parser and the dictionary before the loop over the
    hyperparameters, in closed form. *)
Definition optional (value : pyval) (a : Action) : list Action :=
  if is_none value then [a] else [].

Definition keep (name : string) (value : pyval) (args : gmap string pyval)
  : gmap string pyval :=
  if is_none value then args else <[name := value]> args.

Definition builtin_actions
    (testproblem weight_decay batch_size num_epochs learning_rate
     lr_sched_epochs lr_sched_factors random_seed data_dir output_dir
     train_log_interval print_train_iter no_logs : pyval) : list Action :=
  (optional testproblem (positional_action "testproblem") ++
   optional weight_decay
     (make_action ["--weight_decay"; "--wd"] "weight_decay" (typed py_float)) ++
   optional batch_size
     (make_action ["--batch_size"; "--bs"] "batch_size" (typed_required py_int)) ++
   optional num_epochs
     (make_action ["-N"; "--num_epochs"] "num_epochs" (typed_required py_int)) ++
   optional learning_rate
     (make_action ["--learning_rate"; "--lr"] "learning_rate"
        (typed_required py_float)) ++
   optional lr_sched_epochs
     (make_action ["--lr_sched_epochs"] "lr_sched_epochs" (typed_plus py_int)) ++
   optional lr_sched_factors
     (make_action ["--lr_sched_factors"] "lr_sched_factors" (typed_plus py_float)) ++
   optional random_seed
     (make_action ["-r"; "--random_seed"] "random_seed"
        (typed_default py_int (AInt 42))) ++
   optional data_dir (make_action ["--data_dir"] "data_dir" plain) ++
   optional output_dir
     (make_action ["--output_dir"] "output_dir"
        (typed_default py_str (AStr "results"))) ++
   optional train_log_interval
     (make_action ["--train_log_interval"] "train_log_interval"
        (typed_default py_int (AInt 10))) ++
   optional print_train_iter
     (make_action ["--print_train_iter"] "print_train_iter" const_flag) ++
   optional no_logs (make_action ["--no_logs"] "no_logs" const_flag))%list.

Definition builtin_args
    (testproblem weight_decay batch_size num_epochs learning_rate
     lr_sched_epochs lr_sched_factors random_seed data_dir output_dir
     train_log_interval print_train_iter no_logs : pyval) : gmap string pyval :=
  keep "no_logs" no_logs
    (keep "print_train_iter" print_train_iter
       (keep "train_log_interval" train_log_interval
          (keep "output_dir" output_dir
             (keep "data_dir" data_dir
                (keep "random_seed" random_seed
                   (keep "lr_sched_factors" lr_sched_factors
                      (keep "lr_sched_epochs" lr_sched_epochs
                         (keep "learning_rate" learning_rate
                            (keep "num_epochs" num_epochs
                               (keep "batch_size" batch_size
                                  (keep "weight_decay" weight_decay
                                     (keep "testproblem" testproblem ∅)))))))))))).

(** *** Notions of the further properties *)

(** The number of breakpoints that [epoch] has reached. *)
Definition reached (epochs : list Z) (epoch : Z) : nat :=
  length (List.filter (fun b => b <=? epoch) epochs).

(** [n] zeros. *)
Definition zeros (n : nat) : string :=
  String.string_of_list_ascii (repeat "0"%char n).

(** The last character of a string, if it has one. *)
Fixpoint last_char (s : string) : option ascii :=
  match s with
  | EmptyString => None
  | String c EmptyString => Some c
  | String _ s' => last_char s'
  end.

(** The parameters of [get_arguments] with the values passed for them. *)
Definition passed
    (testproblem weight_decay batch_size num_epochs learning_rate
     lr_sched_epochs lr_sched_factors random_seed data_dir output_dir
     train_log_interval print_train_iter no_logs : pyval) : list (string * pyval) :=
  [("testproblem", testproblem); ("weight_decay", weight_decay);
   ("batch_size", batch_size); ("num_epochs", num_epochs);
   ("learning_rate", learning_rate); ("lr_sched_epochs", lr_sched_epochs);
   ("lr_sched_factors", lr_sched_factors); ("random_seed", random_seed);
   ("data_dir", data_dir); ("output_dir", output_dir);
   ("train_log_interval", train_log_interval);
   ("print_train_iter", print_train_iter); ("no_logs", no_logs)].

(** The parameters of [get_arguments] that need not be given: the name,
    the flags and the default of each (lines 146-279). *)
Definition optional_parameters : list (string * (list string * pyval)) :=
  [("weight_decay", (["--weight_decay"; "--wd"], Atom ANone));
   ("lr_sched_epochs", (["--lr_sched_epochs"], Atom ANone));
   ("lr_sched_factors", (["--lr_sched_factors"], Atom ANone));
   ("random_seed", (["-r"; "--random_seed"], Atom (AInt 42)));
   ("data_dir", (["--data_dir"], Atom ANone));
   ("output_dir", (["--output_dir"], Atom (AStr "results")));
   ("train_log_interval", (["--train_log_interval"], Atom (AInt 10)));
   ("print_train_iter", (["--print_train_iter"], Atom (ABool false)));
   ("no_logs", (["--no_logs"], Atom (ABool false)))].

(** The exceptions [add_argument] raises for a flag it cannot register:
    no [dest] can be made of the flag, or the flag is taken. *)
Definition registration_error (e : exn) : Prop :=
  e = ValueError ∨ e = ArgumentError "conflicting option string".

(** [v] is what an action of the parser that writes to [d] makes of
    some words. *)
Definition written (p : ArgumentParser) (d : string) (v : pyval) : Prop :=
  ∃ a ws, a ∈ p ∧ dest a = d ∧ get_values a ws = Ok v.

(** Every action seen so far has left such a value under its name. *)
Definition seen_written (p : ArgumentParser) (st : State) : Prop :=
  ∀ j a, j ∈ seen st -> p !! j = Some a ->
         ∃ v, namespace st !! dest a = Some v ∧ written p (dest a) v.

(** No hyperparameter that is read from the command line is filed under
    [name]. *)
Definition not_filed (hyperparams : list Hyperparam) (kwargs : gmap string pyval)
    (name : string) : Prop :=
  ∀ hp, hp ∈ hyperparams -> kwargs !! hp_name hp = None ->
        hp_key (hp_name hp) ≠ name.

End Spec.

(** * Properties *)

Import Spec.

Ltac py_step := cbn [mbind result_bind Py.bind].
Ltac py_step_in H := cbn [mbind result_bind Py.bind] in H.

(** ** Strings *)

Lemma append_nil (a : string) : "" +:+ a = a.
Proof. reflexivity. Qed.

Lemma append_cons (x : ascii) (a b : string) :
  String x a +:+ b = String x (a +:+ b).
Proof. reflexivity. Qed.

Ltac str_simpl := rewrite ?append_cons, ?append_nil; simpl.

Section Strings.

Lemma append_assoc (a b c : string) : (a +:+ b) +:+ c = a +:+ (b +:+ c).
Proof. induction a as [|x a IH]; str_simpl; [done|]. by rewrite IH. Qed.

Lemma append_empty_r (a : string) : a +:+ "" = a.
Proof. induction a as [|x a IH]; str_simpl; [done|]. by rewrite IH. Qed.

Lemma length_append (a b : string) :
  String.length (a +:+ b) = (String.length a + String.length b)%nat.
Proof. induction a as [|x a IH]; str_simpl; [done|]. by rewrite IH. Qed.

Lemma mem_char_append (c : ascii) (a b : string) :
  Str.mem_char c (a +:+ b) = Str.mem_char c a || Str.mem_char c b.
Proof.
  induction a as [|x a IH]; str_simpl; [done|]. rewrite IH. by rewrite orb_assoc.
Qed.

Lemma all_digits_append (a b : string) :
  Str.all_digits (a +:+ b) = Str.all_digits a && Str.all_digits b.
Proof.
  induction a as [|x a IH]; str_simpl; [done|]. rewrite IH. by rewrite andb_assoc.
Qed.

Lemma digit_char_is_digit (n : Z) : Str.is_digit (Str.digit_char (n mod 10)) = true.
Proof.
  assert (H : 0 <= n mod 10 < 10) by (apply Z.mod_pos_bound; lia).
  assert (Hc : n mod 10 = 0 ∨ n mod 10 = 1 ∨ n mod 10 = 2 ∨ n mod 10 = 3 ∨
          n mod 10 = 4 ∨ n mod 10 = 5 ∨ n mod 10 = 6 ∨ n mod 10 = 7 ∨
          n mod 10 = 8 ∨ n mod 10 = 9) by lia.
  repeat (destruct Hc as [-> | Hc]; [reflexivity|]). by rewrite Hc.
Qed.

Lemma fixed_digits_app (w : nat) (n : Z) (acc : string) :
  Str.fixed_digits w n acc = Str.fixed_digits w n "" +:+ acc.
Proof.
  revert n acc. induction w as [|w IH]; intros n acc; simpl; [done|].
  rewrite (IH _ (String _ acc)), (IH _ (String _ "")).
  by rewrite append_assoc.
Qed.

Lemma fixed_digits_all (w : nat) (n : Z) :
  Str.all_digits (Str.fixed_digits w n "") = true.
Proof.
  revert n. induction w as [|w IH]; intros n; simpl; [done|].
  rewrite fixed_digits_app, all_digits_append, IH.
  cbn [Str.all_digits]. by rewrite digit_char_is_digit.
Qed.

Lemma fixed_digits_length (w : nat) (n : Z) :
  String.length (Str.fixed_digits w n "") = w.
Proof.
  revert n. induction w as [|w IH]; intros n; simpl; [done|].
  rewrite fixed_digits_app, length_append, IH. simpl. lia.
Qed.

(** A character that is not a digit does not occur among digits. *)
Lemma all_digits_mem (c : ascii) (s : string) :
  Str.is_digit c = false -> Str.all_digits s = true -> Str.mem_char c s = false.
Proof.
  intros Hc. induction s as [|x s IH]; simpl; [done|].
  intros [Hx Hs]%andb_true_iff. rewrite (IH Hs), orb_false_r.
  unfold Str.char_eqb. destruct (Ascii.eqb_spec c x) as [->|]; [congruence|done].
Qed.

Lemma split_on_no_sep (sep : ascii) (a : string) :
  Str.mem_char sep a = false -> Str.split_on sep a = [a].
Proof.
  induction a as [|x a IH]; str_simpl; [done|].
  intros [Hx Ha]%orb_false_iff. unfold Str.char_eqb in *.
  rewrite Ascii.eqb_sym, Hx, (IH Ha). done.
Qed.

Lemma split_on_once (sep : ascii) (a b : string) :
  Str.mem_char sep a = false -> Str.mem_char sep b = false ->
  Str.split_on sep (a +:+ String sep b) = [a; b].
Proof.
  intros Ha Hb. induction a as [|x a IH]; str_simpl.
  - unfold Str.char_eqb. by rewrite Ascii.eqb_refl, split_on_no_sep.
  - simpl in Ha. apply orb_false_iff in Ha as [Hx Ha]. unfold Str.char_eqb in *.
    rewrite Ascii.eqb_sym, Hx, (IH Ha). done.
Qed.

Lemma rstrip_keep (ch c : ascii) (a b : string) :
  c ≠ ch -> Str.rstrip ch (a +:+ String c b) = a +:+ String c (Str.rstrip ch b).
Proof.
  intros Hc.
  assert (Hne : ∀ b, ∃ y r, Str.rstrip ch (String c b) = String y r ∧
                            String y r = String c (Str.rstrip ch b)).
  { intros b'. simpl. destruct (Str.rstrip ch b') as [|y r] eqn:E.
    - unfold Str.char_eqb. destruct (Ascii.eqb_spec c ch); [done|]. by eexists _, _.
    - by eexists _, _. }
  induction a as [|x a IH]; str_simpl.
  - destruct (Hne b) as (y & r & H1 & H2). simpl in H1. by rewrite H1.
  - rewrite IH. destruct a; str_simpl; done.
Qed.

End Strings.

Section Float2str.

Lemma exponent_str_no_e (k : Z) : Str.mem_char "e" (exponent_str k) = false.
Proof.
  unfold exponent_str, Str.pad2, Str.of_nonneg.
  rewrite mem_char_append.
  assert (H : ∀ w n, Str.mem_char "e" (Str.fixed_digits w n "") = false).
  { intros. apply all_digits_mem; [done|apply fixed_digits_all]. }
  destruct (k <? 0), (Z.abs k <? 10); by rewrite ?mem_char_append, ?H.
Qed.

Lemma sign_str_no_e (neg : bool) : Str.mem_char "e" (sign_str neg) = false.
Proof. by destruct neg. Qed.

(** The shape of the formatted mantissa: a sign, one digit, the point and
    ten digits. *)
Lemma mantissa_str_shape (neg : bool) (q : Z) :
  ∃ lead frac,
    mantissa_str neg q = sign_str neg +:+ lead +:+ "." +:+ frac ∧
    String.length lead = 1%nat ∧ Str.all_digits lead = true ∧
    String.length frac = 10%nat ∧ Str.all_digits frac = true.
Proof.
  exists (Str.fixed_digits 1 (q / 10 ^ 10) ""), (Str.fixed_digits 10 (q mod 10 ^ 10) "").
  split; [|by rewrite !fixed_digits_length, !fixed_digits_all].
  unfold mantissa_str. by rewrite (fixed_digits_app 1).
Qed.

Lemma format_10e_shape (x : float) :
  is_finite x = true ->
  ∃ neg lead frac k,
    format_10e x = sign_str neg +:+ lead +:+ "." +:+ frac +:+ "e" +:+ exponent_str k ∧
    String.length lead = 1%nat ∧ Str.all_digits lead = true ∧
    String.length frac = 10%nat ∧ Str.all_digits frac = true.
Proof.
  intros Hfin.
  assert (Hm : ∀ neg q k, ∃ lead frac,
    mantissa_str neg q +:+ "e" +:+ exponent_str k
    = sign_str neg +:+ lead +:+ "." +:+ frac +:+ "e" +:+ exponent_str k ∧
    String.length lead = 1%nat ∧ Str.all_digits lead = true ∧
    String.length frac = 10%nat ∧ Str.all_digits frac = true).
  { intros neg q k. destruct (mantissa_str_shape neg q) as (lead & frac & -> & H).
    exists lead, frac. split; [|done]. by rewrite !append_assoc. }
  destruct x as [neg| | |neg m e]; try done; cbn [format_10e].
  - destruct (Hm neg 0 0) as (lead & frac & H). by exists neg, lead, frac, 0.
  - destruct (if 0 <=? e then _ else _) as [k q].
    destruct (Hm neg q k) as (lead & frac & H). by exists neg, lead, frac, k.
Qed.

Lemma float2str_finite (x : float) :
  is_finite x = true ->
  ∃ neg lead frac k,
    format_10e x = sign_str neg +:+ lead +:+ "." +:+ frac +:+ "e" +:+ exponent_str k ∧
    String.length lead = 1%nat ∧ Str.all_digits lead = true ∧
    String.length frac = 10%nat ∧ Str.all_digits frac = true ∧
    float2str x
    = Ok (sign_str neg +:+ lead +:+ "." +:+ Str.rstrip "0" frac +:+ "e" +:+ exponent_str k).
Proof.
  intros Hfin.
  destruct (format_10e_shape x Hfin) as (neg & lead & frac & k & Hf & Hl1 & Hl2 & Hf1 & Hf2).
  exists neg, lead, frac, k. repeat (split; [done|]).
  unfold float2str. rewrite Hf.
  replace (sign_str neg +:+ lead +:+ "." +:+ frac +:+ "e" +:+ exponent_str k)
    with ((sign_str neg +:+ lead +:+ "." +:+ frac) +:+ String "e" (exponent_str k))
    by (by rewrite !append_assoc).
  rewrite split_on_once.
  - f_equal.
    replace (sign_str neg +:+ lead +:+ "." +:+ frac)
      with ((sign_str neg +:+ lead) +:+ String "." frac)
      by (by rewrite !append_assoc).
    rewrite (rstrip_keep "0" "."); [|done]. by rewrite !append_assoc.
  - rewrite !mem_char_append, sign_str_no_e. simpl.
    by rewrite !all_digits_mem.
  - apply exponent_str_no_e.
Qed.

End Float2str.

Section Float2strShape.

Lemma float2str_not_finite (x : float) :
  is_finite x = false -> float2str x = Raise ValueError.
Proof. destruct x as [|[]| |]; try done; reflexivity. Qed.

Lemma d_1_0_is_one : of_decimal false 1 0 = d_1_0.
Proof. reflexivity. Qed.

(** C2 as stated fails on the code: the mantissa of [1.0] keeps its
    decimal point. *)
Lemma float2str_one_counterexample : float2str d_1_0 <> Ok "1e+00".
Proof. vm_compute. discriminate. Qed.

(** C2, amended: [float2str] writes a finite float in scientific notation
    with ten digits after the point, and takes the zeros at the end of
    these ten digits away; the leading digit and the point stay. For [1.0]
    the result is ["1.e+00"]. *)
Theorem float2str_strips_trailing_zeros (x : float) :
  is_finite x = true ->
  (∃ sign lead frac exponent,
     format_10e x = sign +:+ lead +:+ "." +:+ frac +:+ "e" +:+ exponent ∧
     String.length lead = 1%nat ∧ Str.all_digits lead = true ∧
     String.length frac = 10%nat ∧ Str.all_digits frac = true ∧
     float2str x
     = Ok (sign +:+ lead +:+ "." +:+ Str.rstrip "0" frac +:+ "e" +:+ exponent)) ∧
  float2str d_1_0 = Ok "1.e+00".
Proof.
  intros Hfin. split; [|reflexivity].
  destruct (float2str_finite x Hfin) as (neg & lead & frac & k & H).
  by exists (sign_str neg), lead, frac, (exponent_str k).
Qed.

Lemma float2str_strips_trailing_zeros_witness :
  is_finite d_0_1 = true ∧ float2str d_1_0 = Ok "1.e+00".
Proof.
  split; [reflexivity|].
  exact (proj2 (float2str_strips_trailing_zeros d_0_1 eq_refl)).
Defined.

End Float2strShape.

Section Regularization.

Import Vgg16.
Context {tensor scalar : Type} `{T : Torch tensor scalar}.

Lemma collect_norms_filter (params : list (string * tensor)) (acc : list scalar) :
  collect_norms params acc
  = (acc ++ map (fun p => pow2_sum (snd p)) (List.filter penalized params))%list.
Proof.
  revert acc. induction params as [|[name t] params IH]; intros acc; simpl.
  - by rewrite app_nil_r.
  - unfold penalized at 1. simpl.
    destruct (negb (Str.contains "bias" name)); rewrite IH; [|done].
    by rewrite <- app_assoc.
Qed.

(** C3, amended: the loss is the weight decay times one half times the
    sum of the squared norms of the parameters whose names do not contain
    ['bias']. *)
Theorem regularization_loss_half (self : cifar10_vgg16) :
  get_regularization_loss self
  = s_scale (_weight_decay self)
      (s_scale d_0_5
         (py_sum (map (fun p => pow2_sum (snd p))
                      (List.filter penalized (named_parameters self))))).
Proof.
  unfold get_regularization_loss. by rewrite collect_norms_filter.
Qed.

End Regularization.

(** C3 as stated fails on the code: with weight decay 1 and one weight
    of squared norm 1 the loss is 0.5, not 1. *)
Lemma regularization_loss_counterexample :
  let T := Vgg16.float_torch in
  let self := {| Vgg16.named_parameters :=
                   [("conv.weight", [d_1_0]); ("conv.bias", [d_1_0])];
                 Vgg16._weight_decay := d_1_0 |} in
  Vgg16.get_regularization_loss (T := T) self
  <> Vgg16.s_scale (Torch := T) (Vgg16._weight_decay self)
       (Vgg16.py_sum (T := T)
          (map (fun p => Vgg16.pow2_sum (Torch := T) (snd p))
               (List.filter penalized (Vgg16.named_parameters self)))).
Proof. vm_compute. discriminate. Qed.

(** ** The learning-rate schedule *)

Section Schedule.










(** C9: when either list is [None] the schedule function is constantly
    [1]. *)
Theorem make_lr_schedule_none (opt : Optimizer)
    (lr_sched_epochs : option (list Z)) (lr_sched_factors : option (list float))
    (epoch : Z) :
  lr_sched_epochs = None ∨ lr_sched_factors = None ->
  lr_lambda (make_lr_schedule opt lr_sched_epochs lr_sched_factors) epoch
  = Ok (AInt 1).
Proof.
  intros [-> | ->]; simpl; [by destruct lr_sched_factors|done].
Qed.

Lemma make_lr_schedule_none_witness :
  lr_lambda (make_lr_schedule {| lr := d_0_5 |} None (Some [d_0_1])) 60
  = Ok (AInt 1).
Proof.
  apply (make_lr_schedule_none {| lr := d_0_5 |} None (Some [d_0_1]) 60).
  left. reflexivity.
Defined.


End Schedule.

(** ** Run names *)

Section RunName.

Lemma float2str_returns (x : float) :
  returns (float2str x) <-> is_finite x = true.
Proof.
  destruct (is_finite x) eqn:E.
  - destruct (float2str_finite x E) as (? & ? & ? & ? & _ & _ & _ & _ & _ & ->). done.
  - rewrite (float2str_not_finite x E). simpl. split; [done|discriminate].
Qed.

Lemma float2str_text (x : float) (s : string) :
  float2str x = Ok s -> s = float_text x.
Proof. unfold float_text. by intros ->. Qed.

Lemma hp_text_returns (v : atom) :
  returns (hp_text v) <-> (∀ x, v = AFloat x -> is_finite x = true).
Proof.
  destruct v as [|[]|z|x|s]; simpl; try (split; [intros _ ? [=]|done]).
  rewrite float2str_returns. split; [by intros ? ? [= <-]|auto].
Qed.

Lemma hp_text_text (v : atom) (s : string) :
  hp_text v = Ok s -> s = value_text v.
Proof. unfold value_text. by intros ->. Qed.

(** A loop that appends one segment for each element. *)
Lemma for_each_segments {A : Type} (body : string -> A -> result string)
    (piece : A -> result string) (segment : A -> string) (l : list A) :
  (∀ acc x, body acc x = s ← piece x; Ok (acc +:+ s)) ->
  (∀ x s, piece x = Ok s -> s = segment x) ->
  ∀ acc,
    (returns (for_each body l acc) <-> Forall (fun x => returns (piece x)) l) ∧
    (∀ r, for_each body l acc = Ok r -> r = acc +:+ join (map segment l)).
Proof.
  intros Hbody Hseg. induction l as [|x l IH]; intros acc; simpl.
  - split; [split; [intros; constructor|done]|]. intros r [= <-]. unfold join. simpl. by rewrite append_empty_r.
  - rewrite Hbody. destruct (piece x) as [s|e] eqn:E; py_step.
    + destruct (IH (acc +:+ s)) as [IH1 IH2]. split.
      * rewrite IH1. split; [intros H; constructor; [by rewrite E|done]|].
        by intros [_ ?]%Forall_cons_1.
      * intros r Hr. rewrite (IH2 r Hr), <- (Hseg x s E).
        unfold join. simpl. by rewrite append_assoc.
    + split; [|done]. split; [done|]. intros [H _]%Forall_cons_1. by rewrite E in H.
Qed.

#[local] Instance item_le_trans : Transitive item_le.
Proof. intros a b c. unfold item_le. apply (transitivity (R := String.le)). Qed.

#[local] Instance item_le_total : Total item_le.
Proof. intros a b. unfold item_le. apply (total String.le). Qed.

Lemma sorted_items_perm (d : gmap string atom) : sorted_items d ≡ₚ map_to_list d.
Proof. apply merge_sort_Permutation. Qed.



Lemma sorted_items_elem (d : gmap string atom) (n : string) (v : atom) :
  (n, v) ∈ sorted_items d <-> d !! n = Some v.
Proof. rewrite sorted_items_perm. apply elem_of_map_to_list. Qed.


Lemma returns_bind {A B : Type} (r : result A) (k : A -> result B) :
  returns (r ≫= k) <-> ∃ a, r = Ok a ∧ returns (k a).
Proof.
  destruct r as [a|e]; py_step; simpl.
  - split; [by exists a|]. by intros (? & [= <-] & ?).
  - split; [done|]. by intros (? & [=] & _).
Qed.

(** The three parts of the folder name after the fixed beginning. *)
Lemma weight_decay_part (weight_decay : option float) (base : string) :
  let part :=
    match weight_decay with
    | Some wd =>
        w ← float2str wd;
        Ok (base +:+ ("weight_decay__" +:+ w +:+ "__"))
    | None => Ok base
    end in
  (returns part <-> (∀ w, weight_decay = Some w -> is_finite w = true)) ∧
  (∀ n, part = Ok n ->
     n = base +:+ match weight_decay with
                  | Some w => "weight_decay__" +:+ float_text w +:+ "__"
                  | None => ""
                  end).
Proof.
  destruct weight_decay as [wd|]; cbn zeta.
  - split.
    + rewrite returns_bind. split.
      * intros (w & Hw & _) ? [= <-]. apply float2str_returns. by rewrite Hw.
      * intros H. specialize (H wd eq_refl). apply float2str_returns in H.
        destruct (float2str wd) as [w|]; [|done]. by exists w.
    + intros n. destruct (float2str wd) as [w|] eqn:E; py_step; [|done].
      intros [= <-]. by rewrite (float2str_text wd w E).
  - split; [split; [by intros|done]|]. intros n [= <-]. by rewrite append_empty_r.
Qed.

Lemma hyperparams_part (hps : gmap string atom) (base : string) :
  let part :=
    for_each (fun name '(hp_name, hp_value) =>
                let name := name +:+ (hp_name +:+ "__") in
                v ← hp_text hp_value;
                Ok (name +:+ (v +:+ "__")))
             (sorted_items hps) base in
  (returns part <-> (∀ n x, hps !! n = Some (AFloat x) -> is_finite x = true)) ∧
  (∀ n, part = Ok n -> n = base +:+ join (map hp_segment (sorted_items hps))).
Proof.
  cbn zeta.
  edestruct (for_each_segments
    (fun name '(hp_name, hp_value) =>
       let name := name +:+ (hp_name +:+ "__") in
       v ← hp_text hp_value; Ok (name +:+ (v +:+ "__")))
    (fun item : string * atom =>
       v ← hp_text (snd item); Ok (fst item +:+ "__" +:+ v +:+ "__"))
    hp_segment (sorted_items hps)) as [Hret Hval].
  - intros acc [n v]. cbn zeta. simpl. destruct (hp_text v); py_step; [|done].
    by rewrite !append_assoc.
  - intros [n v] s. simpl. destruct (hp_text v) as [t|] eqn:E; py_step; [|done].
    intros [= <-]. unfold hp_segment. simpl. by rewrite (hp_text_text v t E).
  - split; [|exact Hval]. rewrite Hret, Forall_forall. split.
    + intros H n x Hn. apply sorted_items_elem in Hn. apply H in Hn.
      simpl in Hn. apply returns_bind in Hn as (t & Ht & _).
      apply float2str_returns. simpl in Ht. by rewrite Ht.
    + intros H [n v] Hn. apply sorted_items_elem in Hn. simpl.
      apply returns_bind.
      assert (Hv : returns (hp_text v)).
      { apply hp_text_returns. intros x ->. by apply (H n). }
      destruct (hp_text v) as [t|]; [|done]. by exists t.
Qed.

Lemma schedule_part (learning_rate : float) (lr_sched_epochs : option (list Z))
    (lr_sched_factors : option (list float)) (base : string) :
  let part :=
    match lr_sched_epochs with
    | None =>
        l ← float2str learning_rate;
        Ok (base +:+ ("lr__" +:+ l))
    | Some epochs =>
        l ← float2str learning_rate;
        let name :=
          base +:+ ("lr_schedule__" +:+ Str.of_int 0 +:+ "_" +:+ l) in
        pairs ← py_zip epochs lr_sched_factors;
        for_each (fun name '(epoch, factor) =>
                    f ← float2str (mul factor learning_rate);
                    Ok (name +:+ ("_" +:+ Str.of_int epoch +:+ "_" +:+ f)))
                 pairs name
    end in
  (returns part <->
     is_finite learning_rate = true ∧
     (∀ epochs, lr_sched_epochs = Some epochs ->
        ∃ factors, lr_sched_factors = Some factors ∧
          ∀ step, step ∈ zip epochs factors ->
            is_finite (mul (snd step) learning_rate) = true)) ∧
  (∀ n, part = Ok n ->
     n = base +:+
         match lr_sched_epochs with
         | None => "lr__" +:+ float_text learning_rate
         | Some epochs =>
             "lr_schedule__0_" +:+ float_text learning_rate +:+
             join (map (step_segment learning_rate)
                       (zip epochs (from_option id [] lr_sched_factors)))
         end).
Proof.
  cbn zeta.
  assert (Hloop : ∀ pairs acc,
    (returns (for_each (fun name '(epoch, factor) =>
                f ← float2str (mul factor learning_rate);
                Ok (name +:+ ("_" +:+ Str.of_int epoch +:+ "_" +:+ f))) pairs acc)
     <-> ∀ step, step ∈ pairs -> is_finite (mul (snd step) learning_rate) = true) ∧
    (∀ n, for_each (fun name '(epoch, factor) =>
                f ← float2str (mul factor learning_rate);
                Ok (name +:+ ("_" +:+ Str.of_int epoch +:+ "_" +:+ f))) pairs acc = Ok n ->
       n = acc +:+ join (map (step_segment learning_rate) pairs))).
  { intros pairs acc.
    edestruct (for_each_segments
      (fun name '(epoch, factor) =>
         f ← float2str (mul factor learning_rate);
         Ok (name +:+ ("_" +:+ Str.of_int epoch +:+ "_" +:+ f)))
      (fun step : Z * float =>
         f ← float2str (mul (snd step) learning_rate);
         Ok ("_" +:+ Str.of_int (fst step) +:+ "_" +:+ f))
      (step_segment learning_rate) pairs) as [Hret Hval].
    - intros a [e f]. simpl. by destruct (float2str _).
    - intros [e f] s. simpl.
      destruct (float2str (mul f learning_rate)) as [t|] eqn:E; py_step; [|done].
      intros [= <-]. unfold step_segment. simpl. by rewrite (float2str_text _ t E).
    - split; [|exact Hval]. rewrite Hret, Forall_forall. split.
      + intros H step Hs. apply H in Hs. apply returns_bind in Hs as (t & Ht & _).
        apply float2str_returns. by rewrite Ht.
      + intros H step Hs. apply H, float2str_returns in Hs. apply returns_bind.
        destruct (float2str _) as [t|]; [|done]. by exists t. }
  destruct (float2str learning_rate) as [l|e] eqn:El; py_step.
  - assert (Hfin : is_finite learning_rate = true).
    { apply float2str_returns. by rewrite El. }
    rewrite (float2str_text _ l El).
    destruct lr_sched_epochs as [epochs|]; py_step.
    + destruct lr_sched_factors as [factors|]; simpl; py_step.
      * destruct (Hloop (zip epochs factors)
          (base +:+ "lr_schedule__" +:+ Str.of_int 0 +:+ "_" +:+ float_text learning_rate))
          as [Hret Hval].
        split.
        -- rewrite Hret. split.
           ++ intros H. split; [done|]. intros ? [= <-]. by exists factors.
           ++ intros [_ H]. destruct (H epochs eq_refl) as (? & [= <-] & ?). done.
        -- intros n Hn. rewrite (Hval n Hn). by rewrite !append_assoc.
      * split; [|done]. split; [done|].
        intros [_ H]. by destruct (H epochs eq_refl) as (? & [=] & _).
    + split; [|by intros n [= <-]]. split; [|done]. intros _. split; [done|]. by intros.
  - assert (Hinf : is_finite learning_rate = true -> False).
    { intros H%float2str_returns. by rewrite El in H. }
    destruct lr_sched_epochs; py_step; (split; [|done]); (split; [done|]);
      by intros [H%Hinf _].
Qed.

(** The folder name does not depend on the clock, and the file name is
    the seed followed by the time read. *)
Lemma make_run_name_parts (weight_decay : option float) (batch_size num_epochs : Z)
    (learning_rate : float) (lr_sched_epochs : option (list Z))
    (lr_sched_factors : option (list float)) (random_seed : Z)
    (optimizer_hyperparams : gmap string atom) :
  ∃ folder : result string,
    (∀ now, make_run_name now weight_decay batch_size num_epochs learning_rate
              lr_sched_epochs lr_sched_factors random_seed optimizer_hyperparams
            = name ← folder; Ok (name, file_format random_seed now)) ∧
    (returns folder <->
       renderable weight_decay learning_rate lr_sched_epochs lr_sched_factors
         optimizer_hyperparams) ∧
    (∀ name, folder = Ok name ->
       name = folder_format weight_decay batch_size num_epochs learning_rate
                lr_sched_epochs lr_sched_factors (sorted_items optimizer_hyperparams)).
Proof.
  exists (match make_run_name
                  {| tm_year := 0; tm_mon := 0; tm_mday := 0;
                     tm_hour := 0; tm_min := 0; tm_sec := 0 |}
                  weight_decay batch_size num_epochs learning_rate
                  lr_sched_epochs lr_sched_factors random_seed
                  optimizer_hyperparams with
          | Ok (name, _) => Ok name
          | Raise e => Raise e
          end).
  unfold make_run_name, renderable, folder_format. cbn zeta.
  set (base := "num_epochs__" +:+ Str.of_int num_epochs +:+ "__batch_size__" +:+
               Str.of_int batch_size +:+ "__").
  destruct (weight_decay_part weight_decay base) as [R1 V1]. cbn zeta in R1, V1.
  destruct (match weight_decay with Some _ => _ | None => _ end) as [n1|e1] eqn:E1.
  2:{ split; [by intros; py_step|]. split; [|done]. split; [done|].
      intros (H & _). by apply R1 in H. }
  specialize (V1 n1 eq_refl).
  destruct (hyperparams_part optimizer_hyperparams n1) as [R2 V2]. cbn zeta in R2, V2.
  py_step.
  destruct (for_each _ (sorted_items optimizer_hyperparams) n1) as [n2|e2] eqn:E2.
  2:{ split; [by intros; py_step|]. split; [|done]. split; [done|].
      intros (_ & H & _). by apply R2 in H. }
  specialize (V2 n2 eq_refl).
  destruct (schedule_part learning_rate lr_sched_epochs lr_sched_factors n2)
    as [R3 V3]. cbn zeta in R3, V3.
  py_step.
  destruct (match lr_sched_epochs with Some _ => _ | None => _ end) as [n3|e3] eqn:E3.
  - split; [intros; py_step; unfold file_format; by rewrite !append_assoc|]. split.
    + split; [intros _|done]. destruct R3 as [R3 _]. destruct (R3 I) as [? ?].
      split; [by apply R1|]. split; [by apply R2|]. done.
    + intros ? [= <-]. rewrite (V3 n3 eq_refl), V2, V1. subst base.
      by rewrite !append_assoc.
  - split; [by intros; py_step|]. split; [|done]. split; [done|].
    intros (_ & _ & H). by apply R3 in H.
Qed.



(** C7 as stated fails on the code: the same arguments give two file
    names when the clock has moved on between the calls. *)
Lemma make_run_name_clock_counterexample :
  let t1 := {| tm_year := 2019; tm_mon := 3; tm_mday := 7;
               tm_hour := 9; tm_min := 5; tm_sec := 0 |} in
  let t2 := {| tm_year := 2019; tm_mon := 3; tm_mday := 7;
               tm_hour := 9; tm_min := 5; tm_sec := 1 |} in
  make_run_name t1 None 128 10 d_0_1 None None 42 ∅
  = Ok ("num_epochs__10__batch_size__128__lr__1.e-01",
        "random_seed__42__2019-03-07-09-05-00") ∧
  make_run_name t2 None 128 10 d_0_1 None None 42 ∅
  = Ok ("num_epochs__10__batch_size__128__lr__1.e-01",
        "random_seed__42__2019-03-07-09-05-01") ∧
  make_run_name t1 None 128 10 d_0_1 None None 42 ∅
  <> make_run_name t2 None 128 10 d_0_1 None None 42 ∅.
Proof.
  cbn zeta. split; [vm_compute; reflexivity|]. split; [vm_compute; reflexivity|].
  vm_compute. discriminate.
Qed.

(** C7, amended: two calls with the same arguments raise the same
    exception or return the same folder name; each file name is the seed
    followed by the time the call read from the clock, so the file names
    are the same when the two readings are written the same. *)
Theorem make_run_name_folder_deterministic (t1 t2 : struct_time)
    (weight_decay : option float) (batch_size num_epochs : Z)
    (learning_rate : float) (lr_sched_epochs : option (list Z))
    (lr_sched_factors : option (list float)) (random_seed : Z)
    (optimizer_hyperparams : gmap string atom) :
  match
    make_run_name t1 weight_decay batch_size num_epochs learning_rate
      lr_sched_epochs lr_sched_factors random_seed optimizer_hyperparams,
    make_run_name t2 weight_decay batch_size num_epochs learning_rate
      lr_sched_epochs lr_sched_factors random_seed optimizer_hyperparams
  with
  | Ok (folder1, file1), Ok (folder2, file2) =>
      folder1 = folder2 ∧
      file1 = "random_seed__" +:+ Str.of_int random_seed +:+ "__" +:+ strftime t1 ∧
      file2 = "random_seed__" +:+ Str.of_int random_seed +:+ "__" +:+ strftime t2
  | Raise e1, Raise e2 => e1 = e2
  | _, _ => False
  end.
Proof.
  destruct (make_run_name_parts weight_decay batch_size num_epochs learning_rate
              lr_sched_epochs lr_sched_factors random_seed optimizer_hyperparams)
    as (folder & Hcall & _).
  rewrite !Hcall. by destruct folder.
Qed.

End RunName.

(** ** The argument parser *)

Import Argparse.

Section Words.

Lemma prefix_refl (s : string) : String.prefix s s = true.
Proof.
  induction s as [|c s IH]; simpl; [done|]. by destruct (ascii_dec c c).
Qed.

Lemma prefix_cons_inv (c d : ascii) (s t : string) :
  String.prefix (String c s) (String d t) = true -> c = d ∧ String.prefix s t = true.
Proof. cbn [String.prefix]. by destruct (ascii_dec c d). Qed.

Lemma prefix_substring (n : nat) (s : string) :
  String.prefix (String.substring 0 n s) s = true.
Proof.
  revert s. induction n as [|n IH]; intros [|c s]; simpl; try done.
  destruct (ascii_dec c c); [apply IH|done].
Qed.

Lemma split_eq_spec (tok a b : string) :
  split_eq tok = Some (a, b) -> tok = a +:+ String "=" b.
Proof.
  revert a. induction tok as [|c tok IH]; intros a; simpl; [done|].
  unfold Str.char_eqb. destruct (Ascii.eqb_spec c "=") as [->|Hc].
  - by intros [= <- <-].
  - destruct (split_eq tok) as [[a' b']|]; simpl; [|done].
    intros [= <- <-]. str_simpl. by rewrite <- (IH a').
Qed.

Lemma mem_char_tail (c : ascii) (n : nat) (s : string) :
  Str.mem_char c (string_tail n s) = true -> Str.mem_char c s = true.
Proof.
  unfold string_tail. revert s. induction n as [|n IH]; intros s.
  - rewrite Nat.sub_0_r.
    assert (H : ∀ t, String.substring 0 (String.length t) t = t).
    { induction t as [|x t IHt]; simpl; [done|]. by rewrite IHt. }
    by rewrite H.
  - destruct s as [|x s]; simpl; [done|]. intros H%IH. rewrite H. apply orb_true_r.
Qed.

(** A word starting with two dashes keeps them in front of its [=]. *)
Lemma before_eq_long (tok o : string) :
  starts_with_dash tok = true -> is_long tok = true ->
  String.prefix (before_eq tok) o = true -> is_long o = true.
Proof.
  intros H1 H2.
  assert (∃ x, before_eq tok = String "-" (String "-" x)) as [x ->].
  { unfold before_eq. destruct tok as [|c1 [|c2 tok]]; try done. simpl in *.
    assert (c1 = "-"%char) as -> by (by destruct c1 as [[] [] [] [] [] [] [] []]).
    assert (c2 = "-"%char) as -> by (by destruct c2 as [[] [] [] [] [] [] [] []]).
    simpl. destruct (split_eq tok) as [[a b]|]; simpl; by eexists. }
  destruct o as [|d1 [|d2 o]]; try done.
  - intros [_ H]%prefix_cons_inv. discriminate H.
  - intros [<- [<- _]%prefix_cons_inv]%prefix_cons_inv. done.
Qed.

(** A word that has a one-dash flag in front is a one-dash word. *)
Lemma short_flag_short_word (tok o : string) :
  is_long o = false -> (1 < String.length o)%nat ->
  String.prefix o tok = true -> is_long tok = false.
Proof.
  destruct o as [|d1 [|d2 o]]; simpl; try lia.
  destruct tok as [|c1 [|c2 tok]]; try done.
  intros Ho _. simpl.
  destruct (ascii_dec d1 c1); [|done]. destruct (ascii_dec d2 c2); [|done]. by subst.
Qed.

End Words.

Section Table.

Lemma option_table_from_elem (k : nat) (p : ArgumentParser) (o : string) (i : nat) :
  (o, i) ∈ option_table_from k p ->
  ∃ a, (k <= i)%nat ∧ p !! (i - k)%nat = Some a ∧ o ∈ option_strings a.
Proof.
  revert k. induction p as [|a p IH]; intros k; simpl; [by intros ?%elem_of_nil|].
  rewrite elem_of_app. intros [H|H].
  - apply list_elem_of_fmap in H as (o' & [= <- <-] & Ho).
    exists a. rewrite Nat.sub_diag. by split; [lia|].
  - apply IH in H as (a' & Hk & Ha & Ho). exists a'. split; [lia|]. split; [|done].
    replace (i - k)%nat with (S (i - S k)) by lia. done.
Qed.

Lemma lookup_option_elem (tbl : list (string * nat)) (o : string) (i : nat) :
  lookup_option tbl o = Some i -> (o, i) ∈ tbl.
Proof.
  induction tbl as [|[o' j] tbl IH]; simpl; [done|].
  destruct (String.eqb_spec o' o) as [->|].
  - intros [= ->]. apply list_elem_of_here.
  - intros H. apply list_elem_of_further. by apply IH.
Qed.

Lemma lookup_option_action (p : ArgumentParser) (o : string) (i : nat) :
  lookup_option (option_table p) o = Some i ->
  ∃ a, p !! i = Some a ∧ o ∈ option_strings a.
Proof.
  intros H%lookup_option_elem%option_table_from_elem.
  destruct H as (a & _ & Ha & Ho). rewrite Nat.sub_0_r in Ha. by exists a.
Qed.

End Table.

Section Classify.

Lemma mentions_exact (tok : string) : mentions tok tok = true.
Proof. unfold mentions. by rewrite prefix_refl. Qed.

Lemma mentions_before_eq (tok o : string) :
  String.prefix (before_eq tok) o = true -> mentions tok o = true.
Proof. unfold mentions. intros ->. by rewrite orb_true_r. Qed.

Lemma mentions_front (tok o : string) :
  String.prefix o tok = true -> mentions tok o = true.
Proof. unfold mentions. intros ->. by rewrite !orb_true_r. Qed.

Lemma mentions_abbrev (tok o : string) :
  String.prefix tok o = true -> mentions tok o = true.
Proof. unfold mentions. by intros ->. Qed.

Lemma mentions_group (tok : string) (c : ascii) :
  starts_with_dash tok = true -> is_long tok = false -> Str.mem_char c tok = true ->
  mentions tok (String "-" (String c EmptyString)) = true.
Proof. unfold mentions. intros -> -> ->. by rewrite !orb_true_r. Qed.

Lemma split_eq_short (tok o e : string) :
  split_eq tok = Some (o, e) -> starts_with_dash tok = true -> is_long o = false ->
  is_long tok = false ∧ ∀ c, Str.mem_char c e = true -> Str.mem_char c tok = true.
Proof.
  intros ->%split_eq_spec Hd Ho. split.
  - destruct o as [|d1 [|d2 o]]; try done.
  - intros c Hc. rewrite mem_char_append. simpl. rewrite Hc. by rewrite !orb_true_r.
Qed.

Lemma option_tuples_ok (p : ArgumentParser) (argv : list string) (tok : string)
    (t : OptionTuple) :
  tok ∈ argv -> starts_with_dash tok = true ->
  t ∈ get_option_tuples (option_table p) tok -> sym_ok p argv (SymO t tok).
Proof.
  intros Htok Hd. unfold get_option_tuples.
  assert (Hact : ∀ o i, (o, i) ∈ option_table p ->
            ∃ a, p !! i = Some a ∧ o ∈ option_strings a).
  { intros o i (a & _ & Ha & Ho)%option_table_from_elem.
    rewrite Nat.sub_0_r in Ha. by exists a. }
  destruct (is_long tok) eqn:Hlong.
  - assert (Hgen : ∀ pre ex, before_eq tok = pre ->
      t ∈ omap (fun '(o, i) =>
                  if String.prefix pre o then Some (Some i, o, ex) else None)
               (option_table p) ->
      sym_ok p argv (SymO t tok)).
    { intros pre ex <- ([o i] & Hoi & Hf)%list_elem_of_omap.
      destruct (String.prefix (before_eq tok) o) eqn:Hp; [|done].
      injection Hf as <-. simpl. split; [done|]. split; [by apply Hact|].
      split; [by apply mentions_before_eq|].
      intros Ho. by rewrite (before_eq_long tok o Hd Hlong Hp) in Ho. }
    destruct (split_eq tok) as [[o' e']|] eqn:Hs; apply Hgen;
      unfold before_eq; by rewrite Hs.
  - intros ([o i] & Hoi & Hf)%list_elem_of_omap.
    destruct (String.eqb_spec o (String.substring 0 2 tok)) as [->|_].
    + injection Hf as <-. simpl. split; [done|]. split; [by apply Hact|].
      split; [apply mentions_front, prefix_substring|].
      intros _ ex [= <-]. split; [done|]. split; [done|].
      intros c. apply mem_char_tail.
    + destruct (String.prefix tok o) eqn:Hp; [|done].
      injection Hf as <-. simpl. split; [done|]. split; [by apply Hact|].
      split; [by apply mentions_abbrev|]. by intros _ ? [=].
Qed.

Lemma parse_optional_ok (p : ArgumentParser) (argv : list string) (tok : string)
    (t : OptionTuple) :
  tok ∈ argv -> parse_optional (option_table p) tok = Ok (Some t) ->
  sym_ok p argv (SymO t tok).
Proof.
  intros Htok. unfold parse_optional.
  destruct (starts_with_dash tok) eqn:Hd; simpl; [|done].
  destruct (lookup_option (option_table p) tok) as [i|] eqn:Hl.
  { intros [= <-]. simpl. split; [done|]. split; [by apply lookup_option_action|].
    split; [apply mentions_exact|]. by intros _ ? [=]. }
  destruct (String.length tok =? 1)%nat; [done|].
  assert (Htuples :
    match get_option_tuples (option_table p) tok with
    | [] =>
        if is_negative_number tok && negb (has_negative_number_optionals (option_table p))
        then Ok None
        else if Str.mem_char " " tok then Ok None else Ok (Some (None, tok, None))
    | [t] => Ok (Some t)
    | _ :: _ :: _ => usage_error "ambiguous option"
    end = Ok (Some t) -> sym_ok p argv (SymO t tok)).
  { destruct (get_option_tuples (option_table p) tok) as [|t' [|? ?]] eqn:Ht.
    - destruct (_ && _); [done|]. destruct (Str.mem_char " " tok); [done|].
      by intros [= <-].
    - intros [= <-]. apply option_tuples_ok; [done..|]. rewrite Ht. apply list_elem_of_here.
    - done. }
  destruct (split_eq tok) as [[o e]|] eqn:Hs; simpl; [|exact Htuples].
  destruct (lookup_option (option_table p) o) as [i|] eqn:Hlo; simpl; [|exact Htuples].
  intros [= <-]. simpl. split; [done|]. split; [by apply lookup_option_action|].
  split.
  - apply mentions_before_eq. unfold before_eq. rewrite Hs. apply prefix_refl.
  - intros Ho ex [= <-]. split; [done|]. by eapply split_eq_short.
Qed.

Lemma classify_ok (p : ArgumentParser) (argv words : list string) (syms : list Sym) :
  words ⊆ argv -> classify (option_table p) words = Ok syms ->
  Forall (sym_ok p argv) syms.
Proof.
  revert syms. induction words as [|tok words IH]; intros syms Hsub; simpl.
  - intros [= <-]. constructor.
  - destruct (String.eqb tok "--").
    + intros [= <-]. constructor; [done|]. apply Forall_fmap, Forall_true. done.
    + destruct (parse_optional (option_table p) tok) as [o|] eqn:Ho; py_step; [|done].
      destruct (classify (option_table p) words) as [syms'|] eqn:Hc; py_step; [|done].
      intros [= <-]. constructor.
      * destruct o as [t|]; [|done]. eapply parse_optional_ok; [|done].
        apply Hsub, list_elem_of_here.
      * apply IH; [|done]. intros x Hx. apply Hsub. by apply list_elem_of_further.
Qed.

(** When every word reads as a flag, no argument and no separator is
    left for the positional. *)
Lemma classify_flags (tbl : list (string * nat)) (words : list string) (syms : list Sym) :
  forallb flag_word words = true -> classify tbl words = Ok syms ->
  forallb is_flag_sym syms = true.
Proof.
  revert syms. induction words as [|tok words IH]; intros syms; simpl.
  - by intros _ [= <-].
  - intros [Hw Hws]%andb_true_iff. unfold flag_word in Hw.
    apply andb_true_iff in Hw as [Hw Hsp]. apply andb_true_iff in Hw as [Hw Hneg].
    apply andb_true_iff in Hw as [Hw Hdd]. apply andb_true_iff in Hw as [Hd Hone].
    apply negb_true_iff in Hdd, Hone, Hneg, Hsp. rewrite Hdd.
    destruct (parse_optional tbl tok) as [o|] eqn:Ho; py_step; [|done].
    destruct (classify tbl words) as [syms'|] eqn:Hc; py_step; [|done].
    intros [= <-]. simpl. rewrite (IH syms' Hws eq_refl), andb_true_r.
    destruct o as [t|]; [done|]. exfalso.
    assert (Hlen : (String.length tok =? 1)%nat = false).
    { destruct tok as [|c [|c' tok]]; try done.
      simpl in Hd. destruct c as [[] [] [] [] [] [] [] []]; done. }
    unfold parse_optional in Ho. rewrite Hd, Hlen, Hneg, Hsp in Ho. simpl in Ho.
    repeat case_match; simplify_eq.
Qed.

End Classify.

Section Consume.

Context (p : ArgumentParser).

Lemma take_action_inv (st st' : State) (i : nat) (ws : list string) :
  take_action p st (i, ws) = Ok st' ->
  ∃ a v, p !! i = Some a ∧ kind a ≠ Help ∧
    seen st' = i :: seen st ∧ positionals st' = positionals st ∧
    extras st' = extras st ∧ namespace st' = <[dest a := v]> (namespace st).
Proof.
  unfold take_action. destruct (p !! i) as [a|]; [|done].
  destruct (get_values a ws) as [v|]; py_step; [|done].
  destruct (kind a) eqn:Hk; try done; intros [= <-]; exists a, v; by rewrite Hk.
Qed.

Lemma take_actions_inv (ts : list (nat * list string)) (st st' : State) :
  take_actions p st ts = Ok st' ->
  positionals st' = positionals st ∧ extras st' = extras st ∧
  seen st ⊆ seen st' ∧ ts.*1 ⊆ seen st' ∧
  (∀ j, j ∈ seen st' -> j ∈ seen st ∨ j ∈ ts.*1) ∧
  (∀ d, (∀ j a, j ∈ ts.*1 -> p !! j = Some a -> dest a ≠ d) ->
        namespace st' !! d = namespace st !! d) ∧
  (∀ d, is_Some (namespace st !! d) -> is_Some (namespace st' !! d)).
Proof.
  revert st. induction ts as [|[i ws] ts IH]; intros st;
    cbn [take_actions fmap list_fmap].
  - intros [= <-]. split; [done|]. split; [done|]. split; [done|].
    split; [by intros j ?%elem_of_nil|]. split; [by left|]. by split.
  - destruct (take_action p st (i, ws)) as [st1|] eqn:E; py_step; [|done].
    apply take_action_inv in E as (a & v & Ha & _ & Hs & Hp & He & Hn).
    intros (Hp' & He' & Hs1 & Hs2 & Hs3 & Hn1 & Hn2)%IH.
    rewrite Hp', He', Hp, He. split; [done|]. split; [done|].
    split; [|split; [|split; [|split]]].
    + intros j Hj. apply Hs1. rewrite Hs. by apply list_elem_of_further.
    + intros j [->|Hj]%elem_of_cons; [|by apply Hs2].
      apply Hs1. rewrite Hs. apply list_elem_of_here.
    + intros j [Hj|Hj]%Hs3.
      * rewrite Hs in Hj. apply elem_of_cons in Hj as [->|Hj]; [right; left|by left].
      * right. by right.
    + intros d Hd. rewrite Hn1, Hn.
      * apply lookup_insert_ne. apply (Hd i a); [left|done].
      * intros j a' Hj. apply Hd. by right.
    + intros d Hd. apply Hn2. rewrite Hn. rewrite lookup_insert_is_Some.
      destruct (decide (dest a = d)); [by left|by right].
Qed.

Lemma span_args_suffix (syms : list Sym) (ws : list string) (rest : list Sym) :
  span_args syms = (ws, rest) -> ∃ pre, syms = (pre ++ rest)%list.
Proof.
  revert ws rest. induction syms as [|s syms IH]; intros ws rest; simpl.
  - intros [= <- <-]. by exists [].
  - destruct s as [w| |t tok]; try (intros [= <- <-]; by exists []).
    destruct (span_args syms) as [ws' r] eqn:E. intros [= <- <-].
    destruct (IH ws' r eq_refl) as [pre ->]. by exists (SymA w :: pre).
Qed.

Lemma consume_following_inv (i : nat) (rest rest' : list Sym) (t : nat * list string) :
  consume_following p i rest = Ok (t, rest') ->
  fst t = i ∧ ∃ pre, rest = (pre ++ rest')%list.
Proof.
  unfold consume_following. destruct (p !! i) as [a|]; [|done].
  destruct (kind a) as [[|]|c|].
  - destruct rest as [|[w| |? ?] rest0]; try done. intros [= <- <-].
    split; [done|]. by exists [SymA w].
  - destruct (span_args rest) as [[|w ws] r] eqn:E; [done|]. intros [= <- <-].
    split; [done|]. by eapply span_args_suffix.
  - intros [= <- <-]. split; [done|]. by exists [].
  - intros [= <- <-]. split; [done|]. by exists [].
Qed.

Lemma consume_explicit_inv (tbl : list (string * nat)) (e : string) :
  ∀ (i : nat) (os : string) (rest rest' : list Sym) (ts : list (nat * list string)),
    consume_explicit p tbl i os e rest = Ok (ts, rest') ->
    (∃ pre, rest = (pre ++ rest')%list) ∧
    Forall (fun t => fst t = i ∨
              is_long os = false ∧
              ∃ c, Str.mem_char c e = true ∧
                   lookup_option tbl (String "-" (String c EmptyString)) = Some (fst t))
           ts.
Proof.
  induction e as [|c e IH]; intros i os rest rest' ts; simpl.
  - destruct (p !! i) as [a|]; [|done].
    destruct (takes_no_argument a).
    + by destruct (negb (is_long os)).
    + intros [= <- <-]. split; [by exists []|]. constructor; [by left|constructor].
  - destruct (p !! i) as [a|]; [|done].
    destruct (takes_no_argument a).
    + destruct (is_long os) eqn:Hos; simpl; [done|].
      destruct (lookup_option tbl (String "-" (String c ""))) as [i'|] eqn:Hl; [|done].
      assert (Hc : Str.mem_char c (String c e) = true).
      { simpl. unfold Str.char_eqb. by rewrite Ascii.eqb_refl. }
      destruct e as [|c' e'].
      * destruct (consume_following p i' rest) as [[t r]|] eqn:E; py_step; [|done].
        intros [= <- <-]. apply consume_following_inv in E as [Ht Hpre].
        split; [done|]. constructor; [by left|]. constructor; [|constructor].
        right. split; [done|]. exists c. by rewrite Ht.
      * destruct (consume_explicit p tbl i' (String "-" (String c "")) (String c' e') rest)
          as [[ts' r]|] eqn:E; py_step; [|done].
        intros [= <- <-]. apply IH in E as [Hpre Hts]. split; [done|].
        constructor; [by left|]. eapply Forall_impl; [exact Hts|].
        intros t [Ht|(_ & c0 & Hc0 & Hl0)]; right; (split; [done|]).
        -- exists c. by rewrite Ht.
        -- exists c0. split; [|done]. cbn [Str.mem_char] in *. rewrite Hc0. apply orb_true_r.
    + intros [= <- <-]. split; [by exists []|]. constructor; [by left|constructor].
Qed.

Lemma match_positional_suffix (syms rest : list Sym) (w : string) :
  match_positional syms = Some (w, rest) -> ∃ pre, syms = (pre ++ rest)%list.
Proof.
  assert (Hd : ∀ l, ∃ pre, l = (pre ++ drop_dashes l)%list).
  { induction l as [|[?| |? ?] l [pre IH]]; try (by exists []).
    exists (SymDash :: pre). simpl. by rewrite <- IH. }
  unfold match_positional. destruct (Hd syms) as [pre1 H1].
  destruct (drop_dashes syms) as [|[w'| |? ?] r]; try done.
  intros [= <- <-]. destruct (Hd r) as [pre2 H2].
  exists (pre1 ++ SymA w' :: pre2)%list. rewrite H1 at 1. rewrite H2 at 1.
  by rewrite <- app_assoc.
Qed.

End Consume.

Section ConsumeLoop.

Context (p : ArgumentParser) (argv : list string).

Lemma not_all_flags_app (pre rest : list Sym) :
  forallb is_flag_sym rest = false -> forallb is_flag_sym (pre ++ rest) = false.
Proof. intros H. rewrite forallb_app, H. apply andb_false_r. Qed.

Lemma sym_ok_named (i : nat) (os : string) (e : option string) (tok : string)
    (ts : list (nat * list string)) :
  sym_ok p argv (SymO (Some i, os, e) tok) ->
  Forall (fun t => fst t = i ∨
            is_long os = false ∧
            ∃ c, (∃ ex, e = Some ex ∧ Str.mem_char c ex = true) ∧
                 lookup_option (option_table p) (String "-" (String c EmptyString))
                 = Some (fst t)) ts ->
  ∀ j, j ∈ ts.*1 -> named p argv j.
Proof.
  intros (Htok & (a & Ha & Ho) & Hm & Hgroup) Hts j Hj.
  apply list_elem_of_fmap in Hj as (t & -> & Ht).
  rewrite Forall_forall in Hts. destruct (Hts t Ht) as [->|(Hos & c & (ex & He & Hc) & Hl)].
  - by exists a, tok, os.
  - destruct (Hgroup Hos ex He) as (Hd & Hlong & Hmem).
    apply lookup_option_action in Hl as (a' & Ha' & Ho').
    exists a', tok, (String "-" (String c "")). split; [done|]. split; [done|].
    split; [done|]. apply mentions_group; auto.
Qed.

Lemma consume_inv (fuel : nat) :
  ∀ (st : State) (syms : list Sym) (st' : State),
    consume fuel p (option_table p) st syms = Ok st' ->
    Forall (sym_ok p argv) syms ->
    seen st ⊆ seen st' ∧
    (∀ j, j ∈ seen st' ->
       j ∈ seen st ∨ named p argv j ∨
       (j ∈ positionals st ∧ forallb is_flag_sym syms = false)) ∧
    (∀ d, (∀ j a, j ∈ seen st' -> p !! j = Some a -> dest a ≠ d) ->
          namespace st' !! d = namespace st !! d) ∧
    (∀ d, is_Some (namespace st !! d) -> is_Some (namespace st' !! d)).
Proof.
  assert (Hbase : ∀ st : State,
    seen st ⊆ seen st ∧
    (∀ j, j ∈ seen st -> ∀ syms,
       j ∈ seen st ∨ named p argv j ∨
       (j ∈ positionals st ∧ forallb is_flag_sym syms = false)) ∧
    (∀ d, (∀ j a, j ∈ seen st -> p !! j = Some a -> dest a ≠ d) ->
          namespace st !! d = namespace st !! d) ∧
    (∀ d, is_Some (namespace st !! d) -> is_Some (namespace st !! d))).
  { intros st. split; [done|]. split; [by left|]. by split. }
  induction fuel as [|fuel IH]; intros st syms st'; cbn [consume].
  { intros [= <-] _. destruct (Hbase st) as (? & H & ? & ?). repeat split; auto. }
  destruct syms as [|s rest].
  { intros [= <-] _. destruct (Hbase st) as (? & H & ? & ?). repeat split; auto. }
  (* A word that stays unread. *)
  assert (Hextra : ∀ tok,
    consume fuel p (option_table p) (add_extra st tok) rest = Ok st' ->
    Forall (sym_ok p argv) (s :: rest) ->
    seen st ⊆ seen st' ∧
    (∀ j, j ∈ seen st' ->
       j ∈ seen st ∨ named p argv j ∨
       (j ∈ positionals st ∧ forallb is_flag_sym (s :: rest) = false)) ∧
    (∀ d, (∀ j a, j ∈ seen st' -> p !! j = Some a -> dest a ≠ d) ->
          namespace st' !! d = namespace st !! d) ∧
    (∀ d, is_Some (namespace st !! d) -> is_Some (namespace st' !! d))).
  { intros tok Hc [_ Hrest]%Forall_cons_1.
    destruct (IH _ _ _ Hc Hrest) as (H1 & H2 & H3 & H4). simpl in *.
    split; [done|]. split; [|by split].
    intros j Hj. destruct (H2 j Hj) as [?|[?|[? Hf]]]; [by left|by right; left|].
    right; right. split; [done|]. apply (not_all_flags_app [s]), Hf. }
  (* The positional takes a word. *)
  assert (Hpos : ∀ i ps w rest' st1,
    is_flag_sym s = false ->
    positionals st = i :: ps ->
    (∃ pre, s :: rest = (pre ++ rest')%list) ->
    take_action p {| namespace := namespace st; seen := seen st;
                     positionals := ps; extras := extras st |} (i, [w]) = Ok st1 ->
    consume fuel p (option_table p) st1 rest' = Ok st' ->
    Forall (sym_ok p argv) (s :: rest) ->
    seen st ⊆ seen st' ∧
    (∀ j, j ∈ seen st' ->
       j ∈ seen st ∨ named p argv j ∨
       (j ∈ positionals st ∧ forallb is_flag_sym (s :: rest) = false)) ∧
    (∀ d, (∀ j a, j ∈ seen st' -> p !! j = Some a -> dest a ≠ d) ->
          namespace st' !! d = namespace st !! d) ∧
    (∀ d, is_Some (namespace st !! d) -> is_Some (namespace st' !! d))).
  { intros i ps w rest' st1 Hs Hps [pre Hpre] Ht Hc Hall.
    assert (Hnf : forallb is_flag_sym (s :: rest) = false) by (simpl; by rewrite Hs).
    apply take_action_inv in Ht as (a & v & Ha & _ & Hseen & Hp1 & _ & Hn). simpl in *.
    assert (Hrest : Forall (sym_ok p argv) rest').
    { rewrite Hpre in Hall. by apply Forall_app in Hall as [_ ?]. }
    destruct (IH _ _ _ Hc Hrest) as (H1 & H2 & H3 & H4).
    assert (Hi : i ∈ seen st') by (apply H1; rewrite Hseen; left).
    split; [|split; [|split]].
    - intros j Hj. apply H1. rewrite Hseen. by right.
    - intros j Hj. destruct (H2 j Hj) as [Hj1|[?|[Hj1 _]]]; [|by right; left|].
      + rewrite Hseen in Hj1. apply elem_of_cons in Hj1 as [->|?]; [|by left].
        right; right. rewrite Hps. split; [left|done].
      + right; right. rewrite Hps, Hp1 in *. split; [by right|done].
    - intros d Hd. rewrite (H3 d Hd), Hn. apply lookup_insert_ne. by apply (Hd i a).
    - intros d Hd. apply H4. rewrite Hn, lookup_insert_is_Some.
      destruct (decide (dest a = d)); [by left|by right]. }
  destruct s as [tok| |[[[i|] os] e] tok].
  - (* an argument *)
    destruct (positionals st) as [|i ps] eqn:Hps; [apply Hextra|].
    destruct (match_positional (SymA tok :: rest)) as [[w rest']|] eqn:Hm;
      [|apply Hextra].
    destruct (take_action p _ (i, [w])) as [st1|] eqn:Ht; py_step; [|done].
    intros Hc Hall. eapply Hpos; eauto. by eapply match_positional_suffix.
  - (* the separator *)
    destruct (positionals st) as [|i ps] eqn:Hps; [apply Hextra|].
    destruct (match_positional (SymDash :: rest)) as [[w rest']|] eqn:Hm;
      [|apply Hextra].
    destruct (take_action p _ (i, [w])) as [st1|] eqn:Ht; py_step; [|done].
    intros Hc Hall. eapply Hpos; eauto. by eapply match_positional_suffix.
  - (* a flag of the parser *)
    intros Hc [Hs Hrest]%Forall_cons_1.
    assert (Hts : ∃ ts rest' st1,
      (∃ pre, rest = (pre ++ rest')%list) ∧
      Forall (fun t => fst t = i ∨
                is_long os = false ∧
                ∃ c, (∃ ex, e = Some ex ∧ Str.mem_char c ex = true) ∧
                     lookup_option (option_table p) (String "-" (String c EmptyString))
                     = Some (fst t)) ts ∧
      take_actions p st ts = Ok st1 ∧
      consume fuel p (option_table p) st1 rest' = Ok st').
    { destruct e as [ex|].
      - destruct (consume_explicit p (option_table p) i os ex rest) as [[ts rest']|] eqn:E;
          py_step_in Hc; [|done].
        destruct (take_actions p st ts) as [st1|] eqn:Et; py_step_in Hc; [|done].
        apply consume_explicit_inv in E as [Hpre Hf].
        exists ts, rest', st1. split; [done|]. split; [|done].
        eapply Forall_impl; [exact Hf|]. intros t [?|(? & c & ? & ?)]; [by left|right].
        split; [done|]. exists c. split; [by exists ex|done].
      - destruct (consume_following p i rest) as [[t rest']|] eqn:E; py_step_in Hc; [|done].
        destruct (take_actions p st [t]) as [st1|] eqn:Et; py_step_in Hc; [|done].
        apply consume_following_inv in E as [Ht Hpre].
        exists [t], rest', st1. split; [done|]. split; [|done].
        constructor; [by left|constructor]. }
    destruct Hts as (ts & rest' & st1 & [pre Hpre] & Hf & Et & Hc').
    pose proof (sym_ok_named i os e tok ts Hs Hf) as Hnamed.
    apply take_actions_inv in Et as (Hp1 & _ & Hs1 & Hs2 & Hs3 & Hn1 & Hn2).
    assert (Hrest' : Forall (sym_ok p argv) rest').
    { rewrite Hpre in Hrest. by apply Forall_app in Hrest as [_ ?]. }
    destruct (IH _ _ _ Hc' Hrest') as (H1 & H2 & H3 & H4).
    split; [|split; [|split]].
    + intros j Hj. by apply H1, Hs1.
    + intros j Hj. destruct (H2 j Hj) as [Hj1|[?|[Hj1 Hfl]]]; [|by right; left|].
      * destruct (Hs3 j Hj1) as [?|?]; [by left|right; left; by apply Hnamed].
      * right; right. rewrite Hp1 in Hj1. split; [done|].
        rewrite Hpre. apply (not_all_flags_app (_ :: pre)), Hfl.
    + intros d Hd. rewrite (H3 d Hd). apply Hn1. intros j a Hj. apply Hd.
      by apply H1, Hs2.
    + intros d Hd. by apply H4, Hn2.
  - (* a flag the parser does not know *)
    apply Hextra.
Qed.

End ConsumeLoop.

Section ParseArgs.

Lemma finish_required (p : ArgumentParser) (seen : list nat) :
  ∀ (i : nat) (ns ns' : gmap string pyval),
    finish i p seen ns = Ok ns' ->
    ∀ j a, p !! j = Some a -> required a = true -> (i + j)%nat ∈ seen.
Proof.
  induction p as [|b p IH]; intros i ns ns'; cbn [finish]; [by intros _ j a ?|].
  intros Hf j a Hj Hreq.
  assert (Hrest : ∀ ns1, finish (S i) p seen ns1 = Ok ns' ->
            ∀ j', p !! j' = Some a -> (i + S j')%nat ∈ seen).
  { intros ns1 H j' Hj'. replace (i + S j')%nat with (S i + j')%nat by lia.
    by eapply IH. }
  destruct (bool_decide (i ∈ seen)) eqn:Hi.
  - apply bool_decide_eq_true in Hi. destruct j as [|j]; simpl in Hj.
    + by rewrite Nat.add_0_r.
    + by eapply Hrest.
  - destruct (required b) eqn:Hb.
    + by destruct (finish (S i) p seen ns).
    + destruct j as [|j]; simpl in Hj; [congruence|].
      repeat case_match; try done; by eapply Hrest.
Qed.

Lemma finish_keeps (p : ArgumentParser) (seen : list nat) :
  ∀ (i : nat) (ns ns' : gmap string pyval),
    finish i p seen ns = Ok ns' ->
    (∀ d, is_Some (ns !! d) -> is_Some (ns' !! d)) ∧
    (∀ d v, ns !! d = Some v -> (∀ s, v ≠ Atom (AStr s)) -> ns' !! d = Some v).
Proof.
  induction p as [|b p IH]; intros i ns ns'; cbn [finish]; [by intros [= <-]|].
  destruct (bool_decide (i ∈ seen)); [apply IH|].
  destruct (required b); [by destruct (finish (S i) p seen ns)|].
  destruct (default b) as [[| | | |s]|] eqn:Hd; try apply IH.
  destruct (ns !! dest b) as [[[| | | |s']|]|] eqn:Hn; try apply IH.
  destruct (String.eqb_spec s s') as [<-|]; [|apply IH].
  destruct (type_ b s) as [v|]; [|done].
  intros [H1 H2]%IH. split.
  - intros d Hdom. apply H1. rewrite lookup_insert_is_Some.
    destruct (decide (dest b = d)); [by left|by right].
  - intros d w Hw Hstr. apply H2; [|done]. rewrite lookup_insert_ne; [done|].
    intros <-. rewrite Hn in Hw. injection Hw as <-. by apply (Hstr s).
Qed.

Lemma initial_namespace_keeps (p : ArgumentParser) :
  ∀ (ns : gmap string pyval) d v,
    ns !! d = Some v -> initial_namespace p ns !! d = Some v.
Proof.
  induction p as [|a p IH]; intros ns d v Hd; cbn [initial_namespace]; [done|].
  destruct (kind a); try (destruct (ns !! dest a) eqn:E); try by apply IH.
  all: apply IH; rewrite lookup_insert_ne; [done|]; intros <-; congruence.
Qed.

Lemma initial_namespace_dest (p : ArgumentParser) :
  ∀ (ns : gmap string pyval) a,
    a ∈ p -> kind a ≠ Help -> is_Some (initial_namespace p ns !! dest a).
Proof.
  induction p as [|b p IH]; intros ns a Ha Hk; [by apply elem_of_nil in Ha|].
  cbn [initial_namespace]. apply elem_of_cons in Ha as [<-|Ha].
  - destruct (kind a); try done.
    all: destruct (ns !! dest a) as [v|] eqn:E;
      [exists v; by apply initial_namespace_keeps|];
      exists (default a); apply initial_namespace_keeps; by rewrite lookup_insert_eq.
  - destruct (kind b); try (destruct (ns !! dest b)); by apply IH.
Qed.

(** The default that enters the namespace is that of the first action
    writing to the name. *)
Lemma initial_namespace_first (p1 p2 : ArgumentParser) (a : Action)
    (ns : gmap string pyval) :
  Forall (fun b => dest b ≠ dest a) p1 -> kind a ≠ Help -> ns !! dest a = None ->
  initial_namespace (p1 ++ a :: p2)%list ns !! dest a = Some (default a).
Proof.
  intros H. revert ns. induction H as [|b p1 Hb _ IH]; intros ns Hk Hn.
  - cbn [app initial_namespace]. rewrite Hn.
    destruct (kind a); try done; apply initial_namespace_keeps; by rewrite lookup_insert_eq.
  - cbn [app initial_namespace].
    destruct (kind b); try (destruct (ns !! dest b) eqn:E); try by apply IH.
    all: apply IH; [done|]; by rewrite lookup_insert_ne.
Qed.

Lemma positional_indices_elem (p : ArgumentParser) :
  ∀ k j, j ∈ positional_indices k p ->
         ∃ a, (k <= j)%nat ∧ p !! (j - k)%nat = Some a ∧ option_strings a = [].
Proof.
  induction p as [|b p IH]; intros k j; cbn [positional_indices];
    [by intros ?%elem_of_nil|].
  assert (Hrest : j ∈ positional_indices (S k) p ->
            ∃ a, (k <= j)%nat ∧ (b :: p) !! (j - k)%nat = Some a ∧ option_strings a = []).
  { intros (a & Hk & Ha & Ho)%IH. exists a. split; [lia|]. split; [|done].
    replace (j - k)%nat with (S (j - S k)) by lia. done. }
  destruct (option_strings b) eqn:Hb; [|done].
  intros [->|Hj]%elem_of_cons; [|by apply Hrest].
  exists b. rewrite Nat.sub_diag. by split; [lia|].
Qed.

Lemma flags_absent_spec (flags argv : list string) (tok o : string) :
  flags_absent flags argv = true -> tok ∈ argv -> o ∈ flags -> mentions tok o = false.
Proof.
  unfold flags_absent. rewrite forallb_forall. intros H Ht Ho.
  apply list_elem_of_In in Ht, Ho. specialize (H tok Ht). rewrite forallb_forall in H.
  by apply negb_true_iff, H.
Qed.

Lemma parse_args_inv (p : ArgumentParser) (argv : list string)
    (ns : gmap string pyval) :
  parse_args p argv = Ok ns ->
  (∀ j a, p !! j = Some a -> required a = true ->
     named p argv j ∨ (option_strings a = [] ∧ forallb flag_word argv = false)) ∧
  (∀ a, a ∈ p -> kind a ≠ Help -> is_Some (ns !! dest a)) ∧
  (∀ d v, initial_namespace p ∅ !! d = Some v -> (∀ s, v ≠ Atom (AStr s)) ->
     (∀ j a, p !! j = Some a -> dest a = d ->
        ¬ named p argv j ∧ option_strings a ≠ []) ->
     ns !! d = Some v).
Proof.
  unfold parse_args.
  destruct (classify (option_table p) argv) as [syms|] eqn:Hc; py_step; [|done].
  destruct (consume _ _ _ _ syms) as [st|] eqn:Hcons; py_step; [|done].
  destruct (finish 0 p (seen st) (namespace st)) as [ns1|] eqn:Hf; py_step; [|done].
  destruct (extras st); [|done]. intros [= <-].
  pose proof (classify_ok p argv argv syms (reflexivity _) Hc) as Hok.
  destruct (consume_inv p argv _ _ _ _ Hcons Hok) as (_ & Hseen & Hns & Hdom).
  destruct (finish_keeps _ _ _ _ _ Hf) as [Hk1 Hk2]. cbn [seen positionals namespace] in *.
  assert (Horigin : ∀ j a, p !! j = Some a -> j ∈ seen st ->
            named p argv j ∨ (option_strings a = [] ∧ forallb flag_word argv = false)).
  { intros j a Ha Hj. destruct (Hseen j Hj) as [H|[H|[H Hfl]]].
    - by apply elem_of_nil in H.
    - by left.
    - right. apply positional_indices_elem in H as (a' & _ & Ha' & Ho).
      rewrite Nat.sub_0_r, Ha in Ha'. injection Ha' as <-. split; [done|].
      destruct (forallb flag_word argv) eqn:Hw; [|done].
      by rewrite (classify_flags _ _ _ Hw Hc) in Hfl. }
  split; [|split].
  - intros j a Ha Hreq. apply (Horigin j a Ha).
    apply (finish_required _ _ _ _ _ Hf j a Ha Hreq).
  - intros a Ha Hk. apply Hk1, Hdom. by apply initial_namespace_dest.
  - intros d v Hd Hstr Habs. apply Hk2; [|done]. rewrite Hns; [done|].
    intros j a Hj Ha Heq. destruct (Habs j a Ha Heq) as [Hn Ho].
    destruct (Horigin j a Ha Hj) as [?|[? _]]; done.
Qed.

End ParseArgs.

(** ** [get_arguments] *)

Section Build.

Lemma known_or_flag_positional (name : string) (value : pyval)
    (args : gmap string pyval) (p : ArgumentParser) (s' : Building) :
  known_or_flag name value (fun p => add_positional p name) (args, p) = Ok s' ->
  s' = (keep name value args, (p ++ optional value (positional_action name))%list).
Proof.
  unfold known_or_flag, keep, optional, add_positional.
  destruct (is_none value); py_step; intros [= <-]; [done|]. by rewrite app_nil_r.
Qed.

Lemma known_or_flag_flag (name : string) (value : pyval) (flags : list string)
    (kw : Kwargs) (d : string) (args : gmap string pyval) (p : ArgumentParser)
    (s' : Building) :
  infer_dest flags = Ok d ->
  known_or_flag name value (fun p => add_argument p flags kw) (args, p) = Ok s' ->
  s' = (keep name value args, (p ++ optional value (make_action flags d kw))%list).
Proof.
  intros Hd. unfold known_or_flag, keep, optional, add_argument.
  destruct (is_none value); py_step.
  - destruct (negb _); [done|]. rewrite Hd. py_step.
    destruct (existsb _ flags); py_step; [done|]. by intros [= <-].
  - intros [= <-]. by rewrite app_nil_r.
Qed.

Lemma build_shape (hyperparams : list Hyperparam)
    (testproblem weight_decay batch_size num_epochs learning_rate
     lr_sched_epochs lr_sched_factors random_seed data_dir output_dir
     train_log_interval print_train_iter no_logs : pyval)
    (optimizer_hyperparams : gmap string pyval) (r : Building) :
  build hyperparams testproblem weight_decay batch_size num_epochs learning_rate
    lr_sched_epochs lr_sched_factors random_seed data_dir output_dir
    train_log_interval print_train_iter no_logs optimizer_hyperparams = Ok r ->
  add_hyperparams hyperparams optimizer_hyperparams
    (builtin_args testproblem weight_decay batch_size num_epochs learning_rate
       lr_sched_epochs lr_sched_factors random_seed data_dir output_dir
       train_log_interval print_train_iter no_logs,
     (new_parser ++
      builtin_actions testproblem weight_decay batch_size num_epochs learning_rate
        lr_sched_epochs lr_sched_factors random_seed data_dir output_dir
        train_log_interval print_train_iter no_logs)%list) = Ok r.
Proof.
  unfold build. cbn zeta.
  repeat match goal with
  | |- context [known_or_flag ?n ?v ?reg ?s] =>
      let E := fresh "E" in
      destruct (known_or_flag n v reg s) as [?s'|] eqn:E; py_step; [|done];
      first [ apply known_or_flag_positional in E
            | eapply known_or_flag_flag in E; [|reflexivity] ];
      subst
  end.
  unfold builtin_args, builtin_actions. by rewrite <- !app_assoc.
Qed.


Lemma infer_dest_hp (name d : string) :
  infer_dest ["--" +:+ name] = Ok d -> d = hp_key name.
Proof.
  unfold infer_dest, hp_key.
  change ("--" +:+ name) with (String "-" (String "-" name)). cbn.
  destruct (Str.lstrip "-" name); [done|]. by intros [= <-].
Qed.

Lemma char_eqb_sym (a b : ascii) : Str.char_eqb a b = Str.char_eqb b a.
Proof. apply Ascii.eqb_sym. Qed.

Lemma lstrip_plain (ch : ascii) (s : string) :
  Str.mem_char ch s = false -> Str.lstrip ch s = s.
Proof.
  destruct s as [|c s]; [done|]. cbn [Str.mem_char Str.lstrip].
  intros [H _]%orb_false_iff. by rewrite char_eqb_sym, H.
Qed.

Lemma replace_plain (a b : ascii) (s : string) :
  Str.mem_char a s = false -> Str.replace_char a b s = s.
Proof.
  induction s as [|c s IH]; [done|]. cbn [Str.mem_char Str.replace_char].
  intros [H Hs]%orb_false_iff. by rewrite char_eqb_sym, H, IH.
Qed.

Lemma hp_key_plain (name : string) :
  Str.mem_char "-" name = false -> hp_key name = name.
Proof.
  intros H. unfold hp_key. by rewrite lstrip_plain, replace_plain.
Qed.

(** The loop over the hyperparameters: what it adds to the parser and
    to the dictionary. *)
Lemma add_hyperparams_shape (hyperparams : list Hyperparam)
    (kwargs : gmap string pyval) :
  ∀ (args0 : gmap string pyval) (p0 : ArgumentParser) (args : gmap string pyval)
    (p : ArgumentParser),
    add_hyperparams hyperparams kwargs (args0, p0) = Ok (args, p) ->
    ∃ acts, p = (p0 ++ acts)%list ∧
      Forall (fun a => ∃ hp, hp ∈ hyperparams ∧ kwargs !! hp_name hp = None ∧
                a = make_action [hp_flag hp] (hp_key (hp_name hp)) (hp_kwargs hp))
             acts ∧
      (∀ hp, hp ∈ hyperparams -> kwargs !! hp_name hp = None ->
         make_action [hp_flag hp] (hp_key (hp_name hp)) (hp_kwargs hp) ∈ acts) ∧
      (∀ hp, hp ∈ hyperparams -> is_Some (kwargs !! hp_name hp) ->
         is_Some (args !! hp_name hp)) ∧
      (∀ d, is_Some (args0 !! d) -> is_Some (args !! d)) ∧
      (∀ d v, args !! d = Some v -> args0 !! d = Some v ∨ kwargs !! d = Some v).
Proof.
  induction hyperparams as [|hp hps IH]; intros args0 p0 args p; cbn [add_hyperparams].
  - intros [= <- <-]. exists []. rewrite app_nil_r. split; [done|]. split; [done|].
    split; [by intros ? ?%elem_of_nil|]. split; [by intros ? ?%elem_of_nil|].
    split; [done|]. intros; by left.
  - destruct (kwargs !! hp_name hp) as [v|] eqn:Hv; py_step.
    + intros (acts & -> & Hall & Hin & Hsup & Hmono & Hval)%IH.
      exists acts. split; [done|]. split; [|split; [|split; [|split]]].
      * eapply Forall_impl; [exact Hall|]. intros a (hp' & ? & ? & ?).
        exists hp'. split; [by right|done].
      * intros hp' [->|Hhp]%elem_of_cons; [congruence|by apply Hin].
      * intros hp' [->|Hhp]%elem_of_cons Hs; [|by apply Hsup].
        apply Hmono. rewrite lookup_insert_eq. by eexists.
      * intros d Hd. apply Hmono. rewrite lookup_insert_is_Some.
        destruct (decide (hp_name hp = d)); [by left|by right].
      * intros d w [Hw|Hw]%Hval; [|by right].
        apply lookup_insert_Some in Hw as [[<- <-]|[_ Hw]]; [by right|by left].
    + unfold add_argument at 1. cbn [forallb hp_flag starts_with_dash negb andb].
      destruct (infer_dest [hp_flag hp]) as [d|] eqn:Hd; py_step; [|done].
      apply infer_dest_hp in Hd as ->.
      destruct (existsb _ [hp_flag hp]); py_step; [done|].
      intros (acts & -> & Hall & Hin & Hsup & Hmono & Hval)%IH.
      exists (make_action [hp_flag hp] (hp_key (hp_name hp)) (hp_kwargs hp) :: acts).
      split; [by rewrite <- app_assoc|]. split; [|split; [|split; [|split]]].
      * constructor; [exists hp; by split; [left|]|].
        eapply Forall_impl; [exact Hall|]. intros a (hp' & ? & ? & ?).
        exists hp'. split; [by right|done].
      * intros hp' [->|Hhp]%elem_of_cons Hn; [left|right; by apply Hin].
      * intros hp' [->|Hhp]%elem_of_cons Hs; [|by apply Hsup].
        rewrite Hv in Hs. by destruct Hs.
      * done.
      * done.
Qed.

Lemma elem_of_optional (value : pyval) (a : Action) :
  is_none value = true -> a ∈ optional value a.
Proof. unfold optional. intros ->. left. Qed.

Lemma elem_of_optional_inv (value : pyval) (a b : Action) :
  a ∈ optional value b -> a = b ∧ is_none value = true.
Proof.
  unfold optional. destruct (is_none value); [|by intros ?%elem_of_nil].
  by intros ->%list_elem_of_singleton.
Qed.

Lemma keep_here (name : string) (value : pyval) (m : gmap string pyval) :
  is_none value = false -> keep name value m !! name = Some value.
Proof. unfold keep. intros ->. apply lookup_insert_eq. Qed.

Lemma keep_mono (name : string) (value : pyval) (m : gmap string pyval) (d : string) :
  is_Some (m !! d) -> is_Some (keep name value m !! d).
Proof.
  unfold keep. destruct (is_none value); [done|]. rewrite lookup_insert_is_Some.
  destruct (decide (name = d)); [by left|by right].
Qed.

Lemma keep_other (name : string) (value : pyval) (m : gmap string pyval) (d : string) :
  name ≠ d -> keep name value m !! d = m !! d.
Proof. unfold keep. destruct (is_none value); [done|]. apply lookup_insert_ne. Qed.

Lemma get_arguments_ok (argv : list string) (hyperparams : list Hyperparam)
    (testproblem weight_decay batch_size num_epochs learning_rate
     lr_sched_epochs lr_sched_factors random_seed data_dir output_dir
     train_log_interval print_train_iter no_logs : pyval)
    (kwargs : gmap string pyval) (m : gmap string pyval) :
  get_arguments argv hyperparams testproblem weight_decay batch_size num_epochs
    learning_rate lr_sched_epochs lr_sched_factors random_seed data_dir output_dir
    train_log_interval print_train_iter no_logs kwargs = Ok m ->
  ∃ args acts cmdline,
    let p := (new_parser ++
              builtin_actions testproblem weight_decay batch_size num_epochs
                learning_rate lr_sched_epochs lr_sched_factors random_seed data_dir
                output_dir train_log_interval print_train_iter no_logs ++ acts)%list in
    add_hyperparams hyperparams kwargs
      (builtin_args testproblem weight_decay batch_size num_epochs learning_rate
         lr_sched_epochs lr_sched_factors random_seed data_dir output_dir
         train_log_interval print_train_iter no_logs,
       (new_parser ++
        builtin_actions testproblem weight_decay batch_size num_epochs learning_rate
          lr_sched_epochs lr_sched_factors random_seed data_dir output_dir
          train_log_interval print_train_iter no_logs)%list) = Ok (args, p) ∧
    parse_args p argv = Ok cmdline ∧ m = cmdline ∪ args.
Proof.
  unfold get_arguments.
  destruct (build _ _ _ _ _ _ _ _ _ _ _ _ _ _ _) as [[args p]|] eqn:Hb; py_step; [|done].
  destruct (parse_args p argv) as [cmdline|] eqn:Hp; py_step; [|done].
  intros [= <-]. apply build_shape in Hb.
  destruct (add_hyperparams_shape _ _ _ _ _ _ Hb) as (acts & Hacts & _).
  exists args, acts, cmdline. cbn zeta. rewrite <- app_assoc in Hacts.
  by rewrite <- Hacts.
Qed.

End Build.

Ltac find_action :=
  solve [ repeat first
            [ by apply elem_of_optional
            | apply elem_of_app; first [ left; by apply elem_of_optional | right ] ] ].

Ltac find_key :=
  solve [ repeat first [ by (eexists; apply keep_here) | apply keep_mono ] ].

Section GetArguments.

Context (argv : list string) (hyperparams : list Hyperparam)
  (testproblem weight_decay batch_size num_epochs learning_rate
   lr_sched_epochs lr_sched_factors random_seed data_dir output_dir
   train_log_interval print_train_iter no_logs : pyval)
  (kwargs : gmap string pyval).

Let call : result (gmap string pyval) :=
  get_arguments argv hyperparams testproblem weight_decay batch_size num_epochs
    learning_rate lr_sched_epochs lr_sched_factors random_seed data_dir output_dir
    train_log_interval print_train_iter no_logs kwargs.

Let builtins : list Action :=
  builtin_actions testproblem weight_decay batch_size num_epochs learning_rate
    lr_sched_epochs lr_sched_factors random_seed data_dir output_dir
    train_log_interval print_train_iter no_logs.


Lemma returned_has_parameters (m : gmap string pyval) :
  call = Ok m ->
  (∀ name, name ∈ parameter_names -> is_Some (m !! name)) ∧
  (∀ hp, hp ∈ hyperparams -> Str.mem_char "-" (hp_name hp) = false ->
     is_Some (m !! hp_name hp)).
Proof.
  subst call. intros (args & acts & cmdline & Hadd & Hparse & ->)%get_arguments_ok.
  cbn zeta in *. set (p := (new_parser ++ _ ++ acts)%list) in *.
  destruct (parse_args_inv p argv cmdline Hparse) as (_ & Hdest & _).
  destruct (add_hyperparams_shape _ _ _ _ _ _ Hadd)
    as (acts' & Hacts & _ & Hin & Hsup & Hmono & _).
  rewrite <- app_assoc in Hacts. apply app_inv_head in Hacts.
  apply app_inv_head in Hacts as <-.
  assert (Hflag : ∀ a, a ∈ builtins ∨ a ∈ acts -> kind a ≠ Help ->
            is_Some ((cmdline ∪ args) !! dest a)).
  { intros a Ha Hk. apply lookup_union_is_Some. left. apply Hdest; [|done].
    subst p. apply elem_of_app. right. by apply elem_of_app. }
  assert (Hkey : ∀ d, is_Some (builtin_args testproblem weight_decay batch_size
                          num_epochs learning_rate lr_sched_epochs lr_sched_factors
                          random_seed data_dir output_dir train_log_interval
                          print_train_iter no_logs !! d) ->
            is_Some ((cmdline ∪ args) !! d)).
  { intros d Hd. apply lookup_union_is_Some. right. by apply Hmono. }
  split.
  - intros name Hname. unfold parameter_names in Hname.
    repeat (apply elem_of_cons in Hname as [->|Hname]);
      [..|by apply elem_of_nil in Hname].
    + destruct (is_none testproblem) eqn:E.
      * apply (Hflag (positional_action "testproblem")); [left|done].
        subst builtins. unfold builtin_actions. find_action.
      * apply Hkey. unfold builtin_args. find_key.
    + destruct (is_none weight_decay) eqn:E.
      * apply (Hflag (make_action ["--weight_decay"; "--wd"] "weight_decay"
                        (typed py_float))); [left|done].
        subst builtins. unfold builtin_actions. find_action.
      * apply Hkey. unfold builtin_args. find_key.
    + destruct (is_none batch_size) eqn:E.
      * apply (Hflag (make_action ["--batch_size"; "--bs"] "batch_size"
                        (typed_required py_int))); [left|done].
        subst builtins. unfold builtin_actions. find_action.
      * apply Hkey. unfold builtin_args. find_key.
    + destruct (is_none num_epochs) eqn:E.
      * apply (Hflag (make_action ["-N"; "--num_epochs"] "num_epochs"
                        (typed_required py_int))); [left|done].
        subst builtins. unfold builtin_actions. find_action.
      * apply Hkey. unfold builtin_args. find_key.
    + destruct (is_none learning_rate) eqn:E.
      * apply (Hflag (make_action ["--learning_rate"; "--lr"] "learning_rate"
                        (typed_required py_float))); [left|done].
        subst builtins. unfold builtin_actions. find_action.
      * apply Hkey. unfold builtin_args. find_key.
    + destruct (is_none lr_sched_epochs) eqn:E.
      * apply (Hflag (make_action ["--lr_sched_epochs"] "lr_sched_epochs"
                        (typed_plus py_int))); [left|done].
        subst builtins. unfold builtin_actions. find_action.
      * apply Hkey. unfold builtin_args. find_key.
    + destruct (is_none lr_sched_factors) eqn:E.
      * apply (Hflag (make_action ["--lr_sched_factors"] "lr_sched_factors"
                        (typed_plus py_float))); [left|done].
        subst builtins. unfold builtin_actions. find_action.
      * apply Hkey. unfold builtin_args. find_key.
    + destruct (is_none random_seed) eqn:E.
      * apply (Hflag (make_action ["-r"; "--random_seed"] "random_seed"
                        (typed_default py_int (AInt 42)))); [left|done].
        subst builtins. unfold builtin_actions. find_action.
      * apply Hkey. unfold builtin_args. find_key.
    + destruct (is_none data_dir) eqn:E.
      * apply (Hflag (make_action ["--data_dir"] "data_dir" plain)); [left|done].
        subst builtins. unfold builtin_actions. find_action.
      * apply Hkey. unfold builtin_args. find_key.
    + destruct (is_none output_dir) eqn:E.
      * apply (Hflag (make_action ["--output_dir"] "output_dir"
                        (typed_default py_str (AStr "results")))); [left|done].
        subst builtins. unfold builtin_actions. find_action.
      * apply Hkey. unfold builtin_args. find_key.
    + destruct (is_none train_log_interval) eqn:E.
      * apply (Hflag (make_action ["--train_log_interval"] "train_log_interval"
                        (typed_default py_int (AInt 10)))); [left|done].
        subst builtins. unfold builtin_actions. find_action.
      * apply Hkey. unfold builtin_args. find_key.
    + destruct (is_none print_train_iter) eqn:E.
      * apply (Hflag (make_action ["--print_train_iter"] "print_train_iter"
                        const_flag)); [left|done].
        subst builtins. unfold builtin_actions. find_action.
      * apply Hkey. unfold builtin_args. find_key.
    + destruct (is_none no_logs) eqn:E.
      * apply (Hflag (make_action ["--no_logs"] "no_logs" const_flag)); [left|done].
        subst builtins. unfold builtin_actions. find_action.
      * apply Hkey. unfold builtin_args. find_key.
  - intros hp Hhp Hplain. destruct (kwargs !! hp_name hp) as [v|] eqn:Hv.
    + apply lookup_union_is_Some. right. apply Hsup; [done|]. by rewrite Hv.
    + rewrite <- (hp_key_plain _ Hplain).
      apply (Hflag (make_action [hp_flag hp] (hp_key (hp_name hp)) (hp_kwargs hp))).
      * right. by apply Hin.
      * unfold hp_kwargs. by destruct (hp_default hp).
Qed.

End GetArguments.

Section Required.





End Required.

Section Seed.

Lemma Forall_optional (P : Action -> Prop) (value : pyval) (a : Action) :
  P a -> Forall P (optional value a).
Proof. unfold optional. destruct (is_none value); by repeat constructor. Qed.

(** C10: when [random_seed] is not passed and no word of the command
    line names a flag that writes to it, the mapping [get_arguments]
    returns binds [random_seed] to 42. *)
Theorem get_arguments_default_seed (argv : list string)
    (hyperparams : list Hyperparam)
    (testproblem weight_decay batch_size num_epochs learning_rate
     lr_sched_epochs lr_sched_factors random_seed data_dir output_dir
     train_log_interval print_train_iter no_logs : pyval)
    (kwargs : gmap string pyval) (m : gmap string pyval) :
  is_none random_seed = true ->
  flags_absent (seed_flags hyperparams) argv = true ->
  get_arguments argv hyperparams testproblem weight_decay batch_size num_epochs
    learning_rate lr_sched_epochs lr_sched_factors random_seed data_dir output_dir
    train_log_interval print_train_iter no_logs kwargs = Ok m ->
  m !! "random_seed" = Some (Atom (AInt 42)).
Proof.
  intros Hnone Habs (args & acts & cmdline & Hadd & Hparse & ->)%get_arguments_ok.
  cbn zeta in *.
  destruct (add_hyperparams_shape _ _ _ _ _ _ Hadd) as (acts' & Hacts & Hall & _).
  rewrite <- app_assoc in Hacts. apply app_inv_head in Hacts.
  apply app_inv_head in Hacts as <-.
  set (seed := make_action ["-r"; "--random_seed"] "random_seed"
                 (typed_default py_int (AInt 42))).
  apply lookup_union_Some_l.
  destruct (parse_args_inv _ argv cmdline Hparse) as (_ & _ & Hdefault).
  apply Hdefault; [|done|].
  - (* the default of the first action that writes to the name *)
    unfold builtin_actions. unfold optional at 8. rewrite Hnone. fold seed.
    rewrite !app_assoc. rewrite <- (app_assoc _ [seed]).
    rewrite <- (app_assoc _ ([seed] ++ _)%list). rewrite <- (app_assoc [seed]).
    cbn [app]. rewrite <- !app_assoc.
    repeat match goal with
    | |- context [(?a ++ ?b ++ ?c)%list] =>
        lazymatch c with
        | context [seed] => rewrite (app_assoc a b c)
        end
    end.
    apply (initial_namespace_first _ _ seed); [|done|done].
    repeat (apply Forall_app; split); try (by apply Forall_optional).
    by repeat constructor.
  - (* no action that writes to the name is named on the command line *)
    intros j a Hj Hdest.
    assert (Ha : a ∈ (new_parser ++ builtin_actions testproblem weight_decay batch_size
                        num_epochs learning_rate lr_sched_epochs lr_sched_factors
                        random_seed data_dir output_dir train_log_interval
                        print_train_iter no_logs ++ acts)%list).
    { by eapply list_elem_of_lookup_2. }
    assert (Hflags : option_strings a ≠ [] ∧
                     ∀ o, o ∈ option_strings a -> o ∈ seed_flags hyperparams).
    { apply elem_of_app in Ha as [Ha|Ha].
      { apply list_elem_of_singleton in Ha as ->. done. }
      apply elem_of_app in Ha as [Ha|Ha].
      - unfold builtin_actions in Ha.
        repeat (apply elem_of_app in Ha as [Ha|Ha]);
          apply elem_of_optional_inv in Ha as [-> _]; try done.
        split; [done|]. intros o Ho. unfold seed_flags.
        apply elem_of_cons in Ho as [->|Ho]; [left|].
        apply list_elem_of_singleton in Ho as ->. right; left.
      - rewrite Forall_forall in Hall. destruct (Hall a Ha) as (hp & Hhp & _ & ->).
        split; [done|]. intros o ->%list_elem_of_singleton.
        unfold seed_flags. do 2 right. apply list_elem_of_fmap. exists hp.
        split; [done|]. apply list_elem_of_In, filter_In. split.
        + by apply list_elem_of_In.
        + cbn [dest make_action] in Hdest. rewrite Hdest. apply String.eqb_refl. }
    destruct Hflags as [Hne Hsub]. split; [|done].
    intros (a' & tok & o & Ha' & Htok & Ho & Hm).
    assert (Some a = Some a') as [= <-] by (rewrite <- Hj; exact Ha').
    by rewrite (flags_absent_spec _ _ _ _ Habs Htok (Hsub o Ho)) in Hm.
Qed.

End Seed.

Section SeedWitness.

Lemma get_arguments_default_seed_witness :
  ∃ m, get_arguments ["cifar10_vgg16"; "--bs"; "128"; "-N"; "10"; "--lr"; "0.1"] []
         ANone ANone ANone ANone ANone ANone ANone ANone ANone ANone ANone ANone
         ANone ∅ = Ok m ∧
       m !! "random_seed" = Some (Atom (AInt 42)).
Proof.
  assert (H : returns
                (get_arguments
                   ["cifar10_vgg16"; "--bs"; "128"; "-N"; "10"; "--lr"; "0.1"]
                   [] ANone ANone ANone ANone ANone ANone ANone ANone ANone ANone
                   ANone ANone ANone ∅)) by (vm_compute; exact I).
  destruct (get_arguments ["cifar10_vgg16"; "--bs"; "128"; "-N"; "10"; "--lr"; "0.1"]
              [] ANone ANone ANone ANone ANone ANone ANone ANone ANone ANone ANone
              ANone ANone ∅) as [m|e] eqn:E; [|destruct H].
  exists m. split; [reflexivity|].
  apply (get_arguments_default_seed
           ["cifar10_vgg16"; "--bs"; "128"; "-N"; "10"; "--lr"; "0.1"] []
           ANone ANone ANone ANone ANone ANone ANone ANone ANone ANone ANone ANone
           ANone ∅ m); [reflexivity|vm_compute; reflexivity|exact E].
Defined.

(** C8 fails on the code for a hyperparameter that bears the name of a
    parameter: the caller passes [weight_decay = 0.01], the optimizer
    declares a hyperparameter [weight_decay] with default [0.0], the
    command line is empty, and the mapping binds [weight_decay] to [0.0];
    with [--weight_decay 0.5] on the command line it binds it to [0.5]. *)
Theorem get_arguments_overrides_caller :
  let hp := {| hp_name := "weight_decay"; hp_type := py_float;
               hp_default := Some (Atom (AFloat (S754_zero false))) |} in
  let call argv :=
    get_arguments argv [hp] (AStr "cifar10_vgg16") (AFloat d_0_01) (AInt 128)
      (AInt 10) (AFloat d_0_1) ANone ANone ANone ANone ANone ANone ANone ANone ∅ in
  match call [] with
  | Ok m => m !! "weight_decay" = Some (Atom (AFloat (S754_zero false)))
  | Raise _ => False
  end ∧
  match call ["--weight_decay"; "0.5"] with
  | Ok m => m !! "weight_decay" = Some (Atom (AFloat d_0_5))
  | Raise _ => False
  end.
Proof. split; vm_compute; reflexivity. Qed.

End SeedWitness.

(** ** The schedule function on any two lists *)

Section ScheduleAnyOrder.

Lemma where_from_length (es : list Z) (epoch : Z) :
  ∀ s, length (Np.where_from s (Np.le_mask es epoch)) = reached es epoch.
Proof.
  unfold reached. induction es as [|b es IH]; intros s; simpl; [done|].
  destruct (b <=? epoch); simpl; by rewrite IH.
Qed.

Lemma where_from_ascending (mask : list bool) :
  ∀ s, StronglySorted lt (Np.where_from s mask) ∧
       Forall (fun i => (s <= i)%nat) (Np.where_from s mask).
Proof.
  induction mask as [|b mask IH]; intros s; simpl; [by split; constructor|].
  destruct (IH (S s)) as [Hs Hall]. destruct b.
  - split.
    + constructor; [done|]. eapply Forall_impl; [exact Hall|]. simpl; lia.
    + constructor; [lia|]. eapply Forall_impl; [exact Hall|]. simpl; lia.
  - split; [done|]. eapply Forall_impl; [exact Hall|]. simpl; lia.
Qed.

Lemma argmax_from_ascending (a : list nat) :
  ∀ best_pos best pos,
    StronglySorted lt (best :: a) ->
    Np.argmax_from best_pos best pos a
    = match a with [] => best_pos | _ => (pos + length a - 1)%nat end.
Proof.
  induction a as [|x a IH]; intros best_pos best pos Hs; simpl; [done|].
  apply StronglySorted_inv in Hs as [Hs Hall].
  apply Forall_inv in Hall.
  destruct (Nat.ltb_spec best x); [|lia].
  rewrite IH; [|done]. destruct a; simpl; lia.
Qed.

Lemma determine_lr_reached (epochs : list Z) (factors : list float)
    (epoch first : Z) :
  epochs !! 0%nat = Some first -> first <= epoch ->
  (0 < reached epochs epoch)%nat ∧
  determine_lr epochs factors epoch
  = match factors !! (reached epochs epoch - 1)%nat with
    | Some factor => Ok (AFloat factor)
    | None => Raise IndexError
    end.
Proof.
  intros Hfirst Hle. destruct epochs as [|b rest]; [done|].
  simpl in Hfirst. injection Hfirst as ->.
  assert (Hr : reached (first :: rest) epoch = S (reached rest epoch)).
  { unfold reached. simpl. by destruct (Z.leb_spec first epoch); [|lia]. }
  split; [lia|].
  unfold determine_lr, getitem. cbn [lookup list_lookup mbind result_bind Py.bind].
  destruct (Z.ltb_spec epoch first); [lia|].
  unfold Np.where_, Np.le_mask. cbn [map Np.where_from].
  destruct (Z.leb_spec first epoch); [|lia].
  fold (Np.le_mask rest epoch). unfold Np.argmax.
  cbn [mbind result_bind Py.bind].
  rewrite argmax_from_ascending.
  2:{ destruct (where_from_ascending (Np.le_mask rest epoch) 1) as [Hs Hall].
      constructor; [done|]. eapply Forall_impl; [exact Hall|]. simpl; lia. }
  rewrite Hr. pose proof (where_from_length rest epoch 1%nat) as Hlen.
  replace (S (reached rest epoch) - 1)%nat with (reached rest epoch) by lia.
  destruct (Np.where_from 1 (Np.le_mask rest epoch)) as [|w ws] eqn:Hw.
  - simpl in Hlen. rewrite <- Hlen. by destruct (factors !! 0%nat).
  - rewrite <- Hlen. simpl length.
    replace (1 + S (length ws) - 1)%nat with (S (length ws)) by lia.
    by destruct (factors !! S (length ws)).
Qed.

Lemma reached_le_length (epochs : list Z) (epoch : Z) :
  (reached epochs epoch <= length epochs)%nat.
Proof.
  unfold reached. induction epochs as [|b es IH]; simpl; [done|].
  destruct (b <=? epoch); simpl; lia.
Qed.



(** X2: with at least one breakpoint and at least as many factors as
    breakpoints the schedule function never raises: it returns [1] or one
    of the first [len(lr_sched_epochs)] factors, so factors beyond these
    are never used. *)
Theorem determine_lr_enough_factors (opt : Optimizer) (epochs : list Z)
    (factors : list float) (epoch : Z) :
  epochs ≠ [] -> (length epochs <= length factors)%nat ->
  lr_lambda (make_lr_schedule opt (Some epochs) (Some factors)) epoch = Ok (AInt 1) ∨
  ∃ factor, factor ∈ take (length epochs) factors ∧
    lr_lambda (make_lr_schedule opt (Some epochs) (Some factors)) epoch
    = Ok (AFloat factor).
Proof.
  intros Hne Hlen. cbn [make_lr_schedule lr_lambda].
  destruct (epochs !! 0%nat) as [first|] eqn:Hfirst; [|by destruct epochs].
  destruct (Z.lt_ge_cases epoch first) as [Hlt|Hge].
  - left. unfold determine_lr, getitem. rewrite Hfirst.
    cbn [mbind result_bind Py.bind].
    by destruct (Z.ltb_spec epoch first); [|lia].
  - right.
    destruct (determine_lr_reached epochs factors epoch first) as [Hpos ->];
      [done|lia|].
    pose proof (reached_le_length epochs epoch) as Hr.
    destruct (lookup_lt_is_Some_2 factors (reached epochs epoch - 1)) as [factor Hf];
      [lia|].
    exists factor. rewrite Hf. split; [|done].
    apply (list_elem_of_lookup_2 _ (reached epochs epoch - 1)).
    rewrite lookup_take_lt; [done|lia].
Qed.

Lemma determine_lr_enough_factors_witness :
  lr_lambda (make_lr_schedule {| lr := d_0_5 |} (Some [50; 100; 60])
               (Some [d_0_1; d_0_01; d_0_5; d_1_0])) 70 = Ok (AInt 1) ∨
  ∃ factor, factor ∈ take 3 [d_0_1; d_0_01; d_0_5; d_1_0] ∧
    lr_lambda (make_lr_schedule {| lr := d_0_5 |} (Some [50; 100; 60])
                 (Some [d_0_1; d_0_01; d_0_5; d_1_0])) 70
    = Ok (AFloat factor).
Proof.
  apply (determine_lr_enough_factors {| lr := d_0_5 |} [50; 100; 60]
           [d_0_1; d_0_01; d_0_5; d_1_0] 70); [discriminate|simpl; lia].
Defined.


End ScheduleAnyOrder.

(** ** More on [float2str] *)

Section Float2strMore.

Lemma rstrip_zeros (ch : ascii) (s : string) :
  last_char (Str.rstrip ch s) ≠ Some ch ∧
  ∃ n, s = Str.rstrip ch s +:+ String.string_of_list_ascii (repeat ch n).
Proof.
  induction s as [|c s [IHl [n IHn]]]; simpl.
  - split; [done|]. by exists 0%nat.
  - destruct (Str.rstrip ch s) as [|r rs] eqn:E.
    + unfold Str.char_eqb. destruct (Ascii.eqb_spec c ch) as [->|Hne].
      * split; [done|]. exists (S n). simpl. rewrite append_nil in IHn.
        by rewrite IHn.
      * split; [simpl; congruence|]. exists n. rewrite append_cons.
        by rewrite IHn at 1.
    + split; [done|]. exists n. rewrite append_cons. by rewrite IHn at 1.
Qed.

(** X4: [float2str] returns a string for every finite float and raises
    [ValueError] for an infinity and for NaN, whose text has no [e] to
    split at. *)
Theorem float2str_finite_or_value_error (x : float) :
  if is_finite x then returns (float2str x) else float2str x = Raise ValueError.
Proof.
  destruct (is_finite x) eqn:E.
  - by apply float2str_returns.
  - by apply float2str_not_finite.
Qed.

(** X5: for a finite float the result of [float2str] is the
    ["{:.10e}"] text without a run of zeros at the end of its ten digits
    after the point: padding the digits with zeros gives the text back,
    and the digits that are left do not end in a zero. *)
Theorem float2str_drops_only_zeros (x : float) :
  is_finite x = true ->
  ∃ sign lead frac exponent n,
    float2str x = Ok (sign +:+ lead +:+ "." +:+ frac +:+ "e" +:+ exponent) ∧
    format_10e x
    = sign +:+ lead +:+ "." +:+ frac +:+ zeros n +:+ "e" +:+ exponent ∧
    String.length lead = 1%nat ∧
    (String.length frac + n = 10)%nat ∧
    last_char frac ≠ Some "0"%char.
Proof.
  intros Hfin.
  destruct (float2str_finite x Hfin) as (neg & lead & frac & k & Hf & Hl & _ & Hn & _ & H).
  destruct (rstrip_zeros "0" frac) as [Hlast [n Hz]].
  exists (sign_str neg), lead, (Str.rstrip "0" frac), (exponent_str k), n.
  split; [done|]. split.
  { rewrite Hf. rewrite Hz at 1. unfold zeros. by rewrite append_assoc. }
  split; [done|]. split; [|done].
  rewrite Hz in Hn at 1. rewrite length_append in Hn.
  assert (String.length (String.string_of_list_ascii (repeat "0"%char n)) = n) as Hr.
  { clear. induction n as [|n IH]; simpl; [done|]. by rewrite IH. }
  lia.
Qed.

Lemma float2str_drops_only_zeros_witness :
  ∃ sign lead frac exponent n,
    float2str d_0_5 = Ok (sign +:+ lead +:+ "." +:+ frac +:+ "e" +:+ exponent) ∧
    format_10e d_0_5
    = sign +:+ lead +:+ "." +:+ frac +:+ zeros n +:+ "e" +:+ exponent ∧
    String.length lead = 1%nat ∧
    (String.length frac + n = 10)%nat ∧
    last_char frac ≠ Some "0"%char.
Proof. exact (float2str_drops_only_zeros d_0_5 eq_refl). Defined.

End Float2strMore.

(** ** More on run names *)

Section RunNameMore.

(** X6: the folder name does not depend on the random seed, nor on the
    clock: two calls that differ in these alone return the same folder
    name or raise the same exception. *)
Theorem make_run_name_folder_ignores_seed (t1 t2 : struct_time)
    (seed1 seed2 : Z) (weight_decay : option float) (batch_size num_epochs : Z)
    (learning_rate : float) (lr_sched_epochs : option (list Z))
    (lr_sched_factors : option (list float))
    (optimizer_hyperparams : gmap string atom) :
  match
    make_run_name t1 weight_decay batch_size num_epochs learning_rate
      lr_sched_epochs lr_sched_factors seed1 optimizer_hyperparams,
    make_run_name t2 weight_decay batch_size num_epochs learning_rate
      lr_sched_epochs lr_sched_factors seed2 optimizer_hyperparams
  with
  | Ok (folder1, _), Ok (folder2, _) => folder1 = folder2
  | Raise e1, Raise e2 => e1 = e2
  | _, _ => False
  end.
Proof.
  unfold make_run_name.
  destruct (match weight_decay with
            | Some wd => _
            | None => _
            end) as [n1|e1]; cbn [mbind result_bind Py.bind]; [|done].
  destruct (for_each _ (sorted_items optimizer_hyperparams) n1) as [n2|e2];
    cbn [mbind result_bind Py.bind]; [|done].
  destruct (match lr_sched_epochs with
            | Some epochs => _
            | None => _
            end) as [n3|e3]; cbn [mbind result_bind Py.bind]; done.
Qed.

Lemma zip_take_common {A B : Type} (l : list A) (k : list B) :
  zip (take (length l `min` length k) l) (take (length l `min` length k) k) = zip l k.
Proof.
  revert k. induction l as [|a l IH]; intros [|b k]; simpl; try done.
  by rewrite IH.
Qed.

(** X7: of an epoch list and a factor list of different lengths
    [make_run_name] uses the pairs that [zip] makes, so the surplus
    entries of the longer list are dropped without an error. *)
Theorem make_run_name_truncates_schedule (now : struct_time)
    (weight_decay : option float) (batch_size num_epochs : Z)
    (learning_rate : float) (epochs : list Z) (factors : list float)
    (random_seed : Z) (optimizer_hyperparams : gmap string atom) :
  let n := (length epochs `min` length factors)%nat in
  make_run_name now weight_decay batch_size num_epochs learning_rate
    (Some epochs) (Some factors) random_seed optimizer_hyperparams
  = make_run_name now weight_decay batch_size num_epochs learning_rate
      (Some (take n epochs)) (Some (take n factors)) random_seed
      optimizer_hyperparams.
Proof.
  cbn zeta. unfold make_run_name, py_zip. by rewrite zip_take_common.
Qed.

(** X8: with an epoch list and no factor list [make_run_name] raises
    [TypeError] (from [zip]), provided the floats formatted before that
    point, weight decay, float hyperparameters and learning rate, are
    finite. *)
Theorem make_run_name_epochs_without_factors (now : struct_time)
    (weight_decay : option float) (batch_size num_epochs : Z)
    (learning_rate : float) (epochs : list Z)
    (random_seed : Z) (optimizer_hyperparams : gmap string atom) :
  (∀ w, weight_decay = Some w -> is_finite w = true) ->
  (∀ name x, optimizer_hyperparams !! name = Some (AFloat x) -> is_finite x = true) ->
  is_finite learning_rate = true ->
  make_run_name now weight_decay batch_size num_epochs learning_rate
    (Some epochs) None random_seed optimizer_hyperparams
  = Raise TypeError.
Proof.
  intros Hw Hh Hl. unfold make_run_name. cbn zeta.
  set (base := "num_epochs__" +:+ Str.of_int num_epochs +:+ "__batch_size__" +:+
               Str.of_int batch_size +:+ "__").
  destruct (weight_decay_part weight_decay base) as [R1 _]. cbn zeta in R1.
  destruct (match weight_decay with Some _ => _ | None => _ end) as [n1|e1].
  2:{ by apply R1 in Hw. }
  destruct (hyperparams_part optimizer_hyperparams n1) as [R2 _]. cbn zeta in R2.
  cbn [mbind result_bind Py.bind].
  destruct (for_each _ (sorted_items optimizer_hyperparams) n1) as [n2|e2].
  2:{ by apply R2 in Hh. }
  cbn [mbind result_bind Py.bind].
  apply float2str_returns in Hl.
  by destruct (float2str learning_rate).
Qed.

Lemma make_run_name_epochs_without_factors_witness :
  make_run_name {| tm_year := 2019; tm_mon := 3; tm_mday := 7;
                   tm_hour := 9; tm_min := 5; tm_sec := 0 |}
    None 128 100 d_0_1 (Some [50; 100]) None 42 ∅
  = Raise TypeError.
Proof.
  apply make_run_name_epochs_without_factors.
  - intros w H. discriminate H.
  - intros name x H. rewrite lookup_empty in H. discriminate H.
  - reflexivity.
Defined.

End RunNameMore.

(** ** More on the regularization loss *)

Section RegularizationMore.

Import Vgg16.
Context {tensor scalar : Type} `{T : Torch tensor scalar}.

Lemma filter_penalized_bias (before after : list (string * tensor))
    (name : string) (t : tensor) :
  Str.contains "bias" name = true ->
  List.filter penalized (before ++ (name, t) :: after)
  = List.filter penalized (before ++ after).
Proof.
  intros H. rewrite !List.filter_app. simpl. unfold penalized at 2. simpl.
  by rewrite H.
Qed.

(** X9: a parameter whose name contains ['bias'] does not enter the
    loss: the loss is the same with and without it, wherever it stands
    among the parameters. *)
Theorem regularization_loss_ignores_bias (before after : list (string * tensor))
    (name : string) (t : tensor) (weight_decay : float) :
  Str.contains "bias" name = true ->
  get_regularization_loss
    {| named_parameters := before ++ (name, t) :: after;
       _weight_decay := weight_decay |}
  = get_regularization_loss
      {| named_parameters := before ++ after; _weight_decay := weight_decay |}.
Proof.
  intros H. unfold get_regularization_loss. cbn [named_parameters _weight_decay].
  by rewrite !collect_norms_filter, filter_penalized_bias.
Qed.

(** X10: when every parameter name contains ['bias'] (also when there
    is no parameter at all) the loss is the weight decay times one half
    times the [0] that [sum] starts from. *)
Theorem regularization_loss_no_weights (self : cifar10_vgg16) :
  Forall (fun p => Str.contains "bias" (fst p) = true) (named_parameters self) ->
  get_regularization_loss self
  = s_scale (_weight_decay self) (s_scale d_0_5 s_zero).
Proof.
  intros H. unfold get_regularization_loss. rewrite collect_norms_filter.
  replace (List.filter penalized (named_parameters self)) with (@nil (string * tensor)).
  { done. }
  induction H as [|p l Hp _ IH]; simpl; [done|].
  unfold penalized at 1. by rewrite Hp.
Qed.

End RegularizationMore.

Lemma regularization_loss_ignores_bias_witness :
  let T := Vgg16.float_torch in
  Vgg16.get_regularization_loss (T := T)
    {| Vgg16.named_parameters :=
         [("conv.weight", [d_0_5])] ++ ("conv.bias", [d_1_0]) :: [("fc.weight", [d_0_1])];
       Vgg16._weight_decay := d_0_01 |}
  = Vgg16.get_regularization_loss (T := T)
      {| Vgg16.named_parameters := [("conv.weight", [d_0_5])] ++ [("fc.weight", [d_0_1])];
         Vgg16._weight_decay := d_0_01 |}.
Proof.
  exact (regularization_loss_ignores_bias (T := Vgg16.float_torch)
           [("conv.weight", [d_0_5])] [("fc.weight", [d_0_1])] "conv.bias" [d_1_0]
           d_0_01 eq_refl).
Defined.

Lemma regularization_loss_no_weights_witness :
  let T := Vgg16.float_torch in
  Vgg16.get_regularization_loss (T := T)
    {| Vgg16.named_parameters := [("conv.bias", [d_1_0])];
       Vgg16._weight_decay := d_0_01 |}
  = mul d_0_01 (mul d_0_5 (S754_zero false)).
Proof.
  apply (regularization_loss_no_weights (T := Vgg16.float_torch)
           {| Vgg16.named_parameters := [("conv.bias", [d_1_0])];
              Vgg16._weight_decay := d_0_01 |}).
  repeat constructor.
Defined.

(** ** Names the command line does not write to *)

Section Untouched.

Context (p : ArgumentParser) (d : string).

Lemma initial_namespace_other (q : ArgumentParser) :
  ∀ ns : gmap string pyval,
    (∀ a, a ∈ q -> kind a ≠ Help -> dest a ≠ d) ->
    initial_namespace q ns !! d = ns !! d.
Proof.
  induction q as [|b q IH]; intros ns Hq; cbn [initial_namespace]; [done|].
  assert (Hq' : ∀ a, a ∈ q -> kind a ≠ Help -> dest a ≠ d).
  { intros a Ha. apply Hq. by right. }
  assert (Hb : kind b ≠ Help -> dest b ≠ d) by (apply Hq; left).
  destruct (kind b) eqn:Hk; try (destruct (ns !! dest b) eqn:E); try by apply IH.
  all: rewrite IH; [|done]; apply lookup_insert_ne; by apply Hb.
Qed.

Lemma finish_other (seen : list nat) (q : ArgumentParser) :
  ∀ (i : nat) (ns ns' : gmap string pyval),
    finish i q seen ns = Ok ns' ->
    (∀ a s, a ∈ q -> default a = Atom (AStr s) -> dest a ≠ d) ->
    ns' !! d = ns !! d.
Proof.
  induction q as [|b q IH]; intros i ns ns'; cbn [finish]; [by intros [= <-]|].
  intros Hf Hq.
  assert (Hq' : ∀ a s, a ∈ q -> default a = Atom (AStr s) -> dest a ≠ d).
  { intros a s Ha. apply (Hq a s). by right. }
  revert Hf.
  destruct (bool_decide (i ∈ seen)); [intros Hf; by eapply IH|].
  destruct (required b); [by destruct (finish (S i) q seen ns)|].
  destruct (default b) as [[| | | |s]|] eqn:Hd; try (intros Hf; by eapply IH).
  destruct (ns !! dest b) as [[[| | | |s']|]|] eqn:Hn; try (intros Hf; by eapply IH).
  destruct (String.eqb_spec s s') as [<-|]; [|intros Hf; by eapply IH].
  destruct (type_ b s) as [v|]; [|done].
  intros Hf. rewrite (IH _ _ _ Hf Hq'). apply lookup_insert_ne.
  apply (Hq b s); [left|done].
Qed.

Hypothesis Hp : ∀ a, a ∈ p -> kind a ≠ Help -> dest a ≠ d.

Lemma take_action_other (st st' : State) (t : nat * list string) :
  take_action p st t = Ok st' -> namespace st' !! d = namespace st !! d.
Proof.
  destruct t as [i ws].
  intros (a & v & Ha & Hk & _ & _ & _ & ->)%take_action_inv.
  apply lookup_insert_ne. apply Hp; [|done]. by eapply list_elem_of_lookup_2.
Qed.

Lemma take_actions_other (ts : list (nat * list string)) :
  ∀ st st', take_actions p st ts = Ok st' -> namespace st' !! d = namespace st !! d.
Proof.
  induction ts as [|t ts IH]; intros st st'; cbn [take_actions]; [by intros [= <-]|].
  destruct (take_action p st t) as [st1|] eqn:E; py_step; [|done].
  intros ->%IH. by eapply take_action_other.
Qed.

Lemma consume_other (tbl : list (string * nat)) (fuel : nat) :
  ∀ (st : State) (syms : list Sym) (st' : State),
    consume fuel p tbl st syms = Ok st' ->
    namespace st' !! d = namespace st !! d.
Proof.
  induction fuel as [|fuel IH]; intros st syms st'; cbn [consume]; [by intros [= <-]|].
  destruct syms as [|s rest]; [by intros [= <-]|].
  assert (Hextra : ∀ tok,
    consume fuel p tbl (add_extra st tok) rest = Ok st' ->
    namespace st' !! d = namespace st !! d).
  { intros tok Hc. by rewrite (IH _ _ _ Hc). }
  assert (Hpos : ∀ i ps w rest' st1,
    take_action p {| namespace := namespace st; seen := seen st;
                     positionals := ps; extras := extras st |} (i, [w]) = Ok st1 ->
    consume fuel p tbl st1 rest' = Ok st' ->
    namespace st' !! d = namespace st !! d).
  { intros i ps w rest' st1 Ht Hc. rewrite (IH _ _ _ Hc).
    by rewrite (take_action_other _ _ _ Ht). }
  destruct s as [tok| |[[[i|] os] e] tok].
  - destruct (positionals st) as [|i ps]; [apply Hextra|].
    destruct (match_positional (SymA tok :: rest)) as [[w rest']|]; [|apply Hextra].
    destruct (take_action p _ (i, [w])) as [st1|] eqn:Ht; py_step; [|done].
    by eapply Hpos.
  - destruct (positionals st) as [|i ps]; [apply Hextra|].
    destruct (match_positional (SymDash :: rest)) as [[w rest']|]; [|apply Hextra].
    destruct (take_action p _ (i, [w])) as [st1|] eqn:Ht; py_step; [|done].
    by eapply Hpos.
  - destruct e as [ex|].
    + destruct (consume_explicit p tbl i os ex rest) as [[ts rest']|]; py_step; [|done].
      destruct (take_actions p st ts) as [st1|] eqn:Et; py_step; [|done].
      intros Hc. rewrite (IH _ _ _ Hc). by eapply take_actions_other.
    + destruct (consume_following p i rest) as [[t rest']|]; py_step; [|done].
      destruct (take_actions p st [t]) as [st1|] eqn:Et; py_step; [|done].
      intros Hc. rewrite (IH _ _ _ Hc). by eapply take_actions_other.
  - apply Hextra.
Qed.

End Untouched.

(** A name that no action of the parser writes to is not in the
    namespace [parse_args] returns. *)
Lemma parse_args_other (p : ArgumentParser) (argv : list string)
    (ns : gmap string pyval) (d : string) :
  parse_args p argv = Ok ns ->
  (∀ a, a ∈ p -> a ≠ help_action -> dest a ≠ d) ->
  ns !! d = None.
Proof.
  unfold parse_args.
  destruct (classify (option_table p) argv) as [syms|]; py_step; [|done].
  destruct (consume _ _ _ _ syms) as [st|] eqn:Hcons; py_step; [|done].
  destruct (finish 0 p (seen st) (namespace st)) as [ns1|] eqn:Hf; py_step; [|done].
  destruct (extras st); [|done]. intros [= <-] Hd.
  assert (Hk : ∀ a, a ∈ p -> kind a ≠ Help -> dest a ≠ d).
  { intros a Ha Hk. apply Hd; [done|]. by intros ->. }
  rewrite (finish_other d _ _ _ _ _ Hf).
  2:{ intros a s Ha Hs. apply Hd; [done|]. intros ->. discriminate Hs. }
  rewrite (consume_other p d Hk _ _ _ _ _ Hcons). cbn [namespace].
  rewrite (initial_namespace_other d p ∅ Hk). apply lookup_empty.
Qed.

(** ** The values passed to [get_arguments] *)

Section Passed.

Context (testproblem weight_decay batch_size num_epochs learning_rate
         lr_sched_epochs lr_sched_factors random_seed data_dir output_dir
         train_log_interval print_train_iter no_logs : pyval).

Let values := passed testproblem weight_decay batch_size num_epochs learning_rate
                lr_sched_epochs lr_sched_factors random_seed data_dir output_dir
                train_log_interval print_train_iter no_logs.
Let actions := builtin_actions testproblem weight_decay batch_size num_epochs
                 learning_rate lr_sched_epochs lr_sched_factors random_seed data_dir
                 output_dir train_log_interval print_train_iter no_logs.
Let args0 := builtin_args testproblem weight_decay batch_size num_epochs
               learning_rate lr_sched_epochs lr_sched_factors random_seed data_dir
               output_dir train_log_interval print_train_iter no_logs.

Lemma passed_names : values.*1 = parameter_names.
Proof. reflexivity. Qed.

Lemma passed_functional (name : string) (v w : pyval) :
  (name, v) ∈ values -> (name, w) ∈ values -> v = w.
Proof.
  subst values. unfold passed. intros Hv Hw.
  repeat (apply elem_of_cons in Hv as [Hv|Hv];
          [injection Hv as -> ->;
           repeat (apply elem_of_cons in Hw as [Hw|Hw]; [by injection Hw|]);
           by apply elem_of_nil in Hw|]).
  by apply elem_of_nil in Hv.
Qed.

Lemma builtin_actions_passed (a : Action) :
  a ∈ actions ->
  ∃ value, (dest a, value) ∈ values ∧ is_none value = true ∧ kind a ≠ Help.
Proof.
  subst actions values. unfold builtin_actions, passed. intros Ha.
  repeat (apply elem_of_app in Ha as [Ha|Ha];
          [apply elem_of_optional_inv in Ha as [-> Hn];
           eexists; split; [|by split]; cbn [dest positional_action make_action];
           set_solver|]).
  apply elem_of_optional_inv in Ha as [-> Hn].
  eexists; split; [|by split]. cbn [dest make_action]. set_solver.
Qed.

Lemma keep_lookup (name : string) (value : pyval) (m : gmap string pyval)
    (d : string) (w : pyval) :
  keep name value m !! d = Some w ->
  (d = name ∧ w = value ∧ is_none value = false) ∨ m !! d = Some w.
Proof.
  unfold keep. destruct (is_none value) eqn:E; [by right|].
  destruct (decide (name = d)) as [->|Hne].
  - rewrite lookup_insert_eq. intros [= <-]. by left.
  - rewrite lookup_insert_ne; [|done]. by right.
Qed.

Lemma builtin_args_passed (d : string) (w : pyval) :
  args0 !! d = Some w <-> (d, w) ∈ values ∧ is_none w = false.
Proof.
  subst args0 values. unfold builtin_args, passed. split.
  - intros H.
    repeat (apply keep_lookup in H as [(-> & -> & Hn)|H]; [split; [set_solver|done]|]).
    by rewrite lookup_empty in H.
  - intros [H Hn].
    repeat (apply elem_of_cons in H as [H|H];
            [injection H as -> ->; rewrite ?keep_other by done; by apply keep_here|]).
    by apply elem_of_nil in H.
Qed.

End Passed.

Section CallerValues.

Lemma add_hyperparams_args (hyperparams : list Hyperparam)
    (kwargs : gmap string pyval) :
  ∀ (args0 : gmap string pyval) (p0 : ArgumentParser) (args : gmap string pyval)
    (p : ArgumentParser),
    add_hyperparams hyperparams kwargs (args0, p0) = Ok (args, p) ->
    (∀ d v, args !! d = Some v ->
       args0 !! d = Some v ∨
       ∃ hp, hp ∈ hyperparams ∧ hp_name hp = d ∧ kwargs !! d = Some v) ∧
    (∀ hp v, hp ∈ hyperparams -> kwargs !! hp_name hp = Some v ->
       args !! hp_name hp = Some v) ∧
    (∀ d v, args0 !! d = Some v -> (kwargs !! d = None ∨ kwargs !! d = Some v) ->
       args !! d = Some v).
Proof.
  induction hyperparams as [|hp rest IH]; intros args0 p0 args p;
    cbn [add_hyperparams].
  - intros [= <- <-]. split; [by left|]. split; [by intros hp v ?%elem_of_nil|done].
  - destruct (kwargs !! hp_name hp) as [v|] eqn:Hk; py_step.
    + intros (H1 & H2 & H3)%IH. split; [|split].
      * intros d w [Hw|(hp' & ? & ? & ?)]%H1.
        -- destruct (decide (hp_name hp = d)) as [<-|Hne].
           ++ rewrite lookup_insert_eq in Hw. injection Hw as <-.
              right. exists hp. split; [left|done].
           ++ rewrite lookup_insert_ne in Hw; [|done]. by left.
        -- right. exists hp'. split; [by right|done].
      * intros hp' w [->|Hin]%elem_of_cons Hw; [|by apply H2].
        rewrite Hk in Hw. injection Hw as <-.
        apply H3; [by rewrite lookup_insert_eq|by right].
      * intros d w Hw Hkw. apply H3; [|done].
        destruct (decide (hp_name hp = d)) as [<-|Hne].
        -- rewrite lookup_insert_eq. destruct Hkw as [Hkw|Hkw]; congruence.
        -- by rewrite lookup_insert_ne.
    + destruct (add_argument p0 [hp_flag hp] (hp_kwargs hp)) as [p1|]; py_step; [|done].
      intros (H1 & H2 & H3)%IH. split; [|split; [|done]].
      * intros d w [Hw|(hp' & ? & ? & ?)]%H1; [by left|].
        right. exists hp'. split; [by right|done].
      * intros hp' w [->|Hin]%elem_of_cons Hw; [congruence|by apply H2].
Qed.

Context (argv : list string) (hyperparams : list Hyperparam)
        (testproblem weight_decay batch_size num_epochs learning_rate
         lr_sched_epochs lr_sched_factors random_seed data_dir output_dir
         train_log_interval print_train_iter no_logs : pyval)
        (kwargs : gmap string pyval).

Let call := get_arguments argv hyperparams testproblem weight_decay batch_size
              num_epochs learning_rate lr_sched_epochs lr_sched_factors random_seed
              data_dir output_dir train_log_interval print_train_iter no_logs kwargs.
Let values := passed testproblem weight_decay batch_size num_epochs learning_rate
                lr_sched_epochs lr_sched_factors random_seed data_dir output_dir
                train_log_interval print_train_iter no_logs.
Let actions := builtin_actions testproblem weight_decay batch_size num_epochs
                 learning_rate lr_sched_epochs lr_sched_factors random_seed data_dir
                 output_dir train_log_interval print_train_iter no_logs.
Let args0 := builtin_args testproblem weight_decay batch_size num_epochs
               learning_rate lr_sched_epochs lr_sched_factors random_seed data_dir
               output_dir train_log_interval print_train_iter no_logs.

(** What a call that returns went through: the dictionary of the values
    passed, the parser, and the namespace read from the command line. *)
Lemma get_arguments_stages (m : gmap string pyval) :
  call = Ok m ->
  ∃ args acts cmdline,
    add_hyperparams hyperparams kwargs (args0, (new_parser ++ actions)%list)
    = Ok (args, (new_parser ++ actions ++ acts)%list) ∧
    Forall (fun a => ∃ hp, hp ∈ hyperparams ∧ kwargs !! hp_name hp = None ∧
              a = make_action [hp_flag hp] (hp_key (hp_name hp)) (hp_kwargs hp))
           acts ∧
    parse_args (new_parser ++ actions ++ acts)%list argv = Ok cmdline ∧
    m = cmdline ∪ args.
Proof.
  intros (args & acts & cmdline & Hadd & Hparse & ->)%get_arguments_ok.
  cbn zeta in *.
  destruct (add_hyperparams_shape _ _ _ _ _ _ Hadd) as (acts' & Hacts & Hall & _).
  rewrite <- app_assoc in Hacts. apply app_inv_head in Hacts.
  apply app_inv_head in Hacts as <-.
  by exists args, acts, cmdline.
Qed.

(** The names the command line can write to. *)
Lemma cmdline_other (acts : list Action) (cmdline : gmap string pyval) (d : string) :
  Forall (fun a => ∃ hp, hp ∈ hyperparams ∧ kwargs !! hp_name hp = None ∧
            a = make_action [hp_flag hp] (hp_key (hp_name hp)) (hp_kwargs hp))
         acts ->
  parse_args (new_parser ++ actions ++ acts)%list argv = Ok cmdline ->
  (∀ value, (d, value) ∈ values -> is_none value = false) ->
  (∀ hp, hp ∈ hyperparams -> kwargs !! hp_name hp = None -> hp_key (hp_name hp) ≠ d) ->
  cmdline !! d = None.
Proof.
  intros Hall Hparse Hv Hh. apply (parse_args_other _ _ _ _ Hparse).
  intros a Ha Hne.
  apply elem_of_app in Ha as [Ha|Ha].
  { by apply list_elem_of_singleton in Ha. }
  apply elem_of_app in Ha as [Ha|Ha].
  - apply builtin_actions_passed in Ha as (value & Hin & Hnone & _).
    intros Heq. rewrite Heq in Hin. apply Hv in Hin. congruence.
  - rewrite Forall_forall in Hall. destruct (Hall a Ha) as (hp & Hhp & Hk & ->).
    cbn [dest make_action]. by apply Hh.
Qed.

(** X11: a parameter passed to [get_arguments] with a value other than
    [None] is bound to this value in the mapping returned, whatever the
    command line, provided no hyperparameter read from the command line
    is filed under the parameter's name (and, as Python's calling
    convention has it, the keyword arguments hold no entry of that
    name). *)
Theorem get_arguments_keeps_passed (m : gmap string pyval) (name : string)
    (value : pyval) :
  (name, value) ∈ values ->
  is_none value = false ->
  kwargs !! name = None ->
  (∀ hp, hp ∈ hyperparams -> kwargs !! hp_name hp = None ->
         hp_key (hp_name hp) ≠ name) ->
  call = Ok m ->
  m !! name = Some value.
Proof.
  intros Hin Hnone Hkw Hhp (args & acts & cmdline & Hadd & Hall & Hparse & ->)%get_arguments_stages.
  rewrite lookup_union_r.
  - destruct (add_hyperparams_args _ _ _ _ _ _ Hadd) as (_ & _ & H3).
    apply H3; [|by left]. by apply builtin_args_passed.
  - apply (cmdline_other acts); try done.
    intros value' Hin'. by rewrite (passed_functional _ _ _ _ _ _ _ _ _ _ _ _ _ _ _ _ Hin' Hin).
Qed.

(** X12: a declared hyperparameter that the caller supplies as keyword
    argument is bound to the caller's value in the mapping returned,
    whatever the command line, provided its name is not a parameter name
    and no hyperparameter read from the command line is filed under its
    name. *)
Theorem get_arguments_keeps_hyperparameter (m : gmap string pyval)
    (hp : Hyperparam) (value : pyval) :
  hp ∈ hyperparams ->
  kwargs !! hp_name hp = Some value ->
  hp_name hp ∉ parameter_names ->
  (∀ hp', hp' ∈ hyperparams -> kwargs !! hp_name hp' = None ->
          hp_key (hp_name hp') ≠ hp_name hp) ->
  call = Ok m ->
  m !! hp_name hp = Some value.
Proof.
  intros Hin Hkw Hpar Hhp (args & acts & cmdline & Hadd & Hall & Hparse & ->)%get_arguments_stages.
  rewrite lookup_union_r.
  - destruct (add_hyperparams_args _ _ _ _ _ _ Hadd) as (_ & H2 & _). by apply H2.
  - apply (cmdline_other acts); try done.
    intros value' Hin'. exfalso. apply Hpar.
    rewrite <- (passed_names testproblem weight_decay batch_size num_epochs learning_rate
                 lr_sched_epochs lr_sched_factors random_seed data_dir output_dir
                 train_log_interval print_train_iter no_logs).
    apply list_elem_of_fmap. by exists (hp_name hp, value').
Qed.

(** X13: the mapping returned has no key besides the thirteen parameter
    names, the names of the declared hyperparameters that were supplied,
    and the keys of the declared hyperparameters that were not; a keyword
    argument that is not declared in [hyperparams] is dropped. *)
Theorem get_arguments_keys (m : gmap string pyval) (d : string) :
  call = Ok m ->
  is_Some (m !! d) ->
  d ∈ parameter_names ∨
  ∃ hp, hp ∈ hyperparams ∧
        (d = hp_name hp ∧ is_Some (kwargs !! hp_name hp) ∨
         d = hp_key (hp_name hp) ∧ kwargs !! hp_name hp = None).
Proof.
  intros (args & acts & cmdline & Hadd & Hall & Hparse & ->)%get_arguments_stages [v Hv].
  apply lookup_union_Some_raw in Hv as [Hv|[_ Hv]].
  - destruct (decide (d ∈ dest <$> (actions ++ acts)%list)) as [Hd|Hd].
    + apply list_elem_of_fmap in Hd as (a & -> & Ha).
      apply elem_of_app in Ha as [Ha|Ha].
      * left. apply builtin_actions_passed in Ha as (value & Hin & _).
        rewrite <- (passed_names testproblem weight_decay batch_size num_epochs
                     learning_rate lr_sched_epochs lr_sched_factors random_seed
                     data_dir output_dir train_log_interval print_train_iter no_logs).
        apply list_elem_of_fmap. by exists (dest a, value).
      * right. rewrite Forall_forall in Hall.
        destruct (Hall a Ha) as (hp & Hhp & Hk & ->).
        exists hp. split; [done|]. by right.
    + rewrite (parse_args_other _ _ _ d Hparse) in Hv; [done|].
      intros a Ha Hne Heq. apply Hd. apply list_elem_of_fmap. exists a.
      split; [done|]. apply elem_of_app in Ha as [Ha|Ha]; [|done].
      by apply list_elem_of_singleton in Ha.
  - destruct (add_hyperparams_args _ _ _ _ _ _ Hadd) as (H1 & _ & _).
    destruct (H1 d v Hv) as [H0|(hp & Hhp & <- & Hk)].
    + left. apply builtin_args_passed in H0 as [H0 _].
      rewrite <- (passed_names testproblem weight_decay batch_size num_epochs
                   learning_rate lr_sched_epochs lr_sched_factors random_seed
                   data_dir output_dir train_log_interval print_train_iter no_logs).
      apply list_elem_of_fmap. by exists (d, v).
    + right. exists hp. split; [done|]. left. by rewrite Hk.
Qed.

End CallerValues.

Lemma get_arguments_keeps_passed_witness :
  ∃ m, get_arguments ["--momentum"; "0.5"]
         [{| hp_name := "momentum"; hp_type := py_float; hp_default := None |}]
         (AStr "cifar10_vgg16") ANone (AInt 128) (AInt 10) (AFloat d_0_1)
         ANone ANone ANone ANone ANone ANone ANone ANone ∅ = Ok m ∧
       m !! "batch_size" = Some (Atom (AInt 128)).
Proof.
  assert (H : returns
                (get_arguments ["--momentum"; "0.5"]
                   [{| hp_name := "momentum"; hp_type := py_float; hp_default := None |}]
                   (AStr "cifar10_vgg16") ANone (AInt 128) (AInt 10) (AFloat d_0_1)
                   ANone ANone ANone ANone ANone ANone ANone ANone ∅))
    by (vm_compute; exact I).
  destruct (get_arguments ["--momentum"; "0.5"]
              [{| hp_name := "momentum"; hp_type := py_float; hp_default := None |}]
              (AStr "cifar10_vgg16") ANone (AInt 128) (AInt 10) (AFloat d_0_1)
              ANone ANone ANone ANone ANone ANone ANone ANone ∅) as [m|e] eqn:E;
    [|destruct H].
  exists m. split; [reflexivity|].
  apply (get_arguments_keeps_passed ["--momentum"; "0.5"]
           [{| hp_name := "momentum"; hp_type := py_float; hp_default := None |}]
           (AStr "cifar10_vgg16") ANone (AInt 128) (AInt 10) (AFloat d_0_1)
           ANone ANone ANone ANone ANone ANone ANone ANone ∅ m "batch_size"
           (AInt 128)).
  - do 2 apply list_elem_of_further. apply list_elem_of_here.
  - reflexivity.
  - apply lookup_empty.
  - intros hp Hhp _. apply list_elem_of_singleton in Hhp. rewrite Hhp.
    vm_compute. discriminate.
  - exact E.
Defined.

Lemma get_arguments_keeps_hyperparameter_witness :
  ∃ m, get_arguments ["cifar10_vgg16"; "--bs"; "128"; "-N"; "10"; "--lr"; "0.1"]
         [{| hp_name := "momentum"; hp_type := py_float; hp_default := None |}]
         ANone ANone ANone ANone ANone ANone ANone ANone ANone ANone ANone ANone
         ANone (<["momentum" := Atom (AFloat d_0_5)]> ∅) = Ok m ∧
       m !! "momentum" = Some (Atom (AFloat d_0_5)).
Proof.
  assert (H : returns
                (get_arguments
                   ["cifar10_vgg16"; "--bs"; "128"; "-N"; "10"; "--lr"; "0.1"]
                   [{| hp_name := "momentum"; hp_type := py_float; hp_default := None |}]
                   ANone ANone ANone ANone ANone ANone ANone ANone ANone ANone ANone
                   ANone ANone (<["momentum" := Atom (AFloat d_0_5)]> ∅)))
    by (vm_compute; exact I).
  destruct (get_arguments ["cifar10_vgg16"; "--bs"; "128"; "-N"; "10"; "--lr"; "0.1"]
              [{| hp_name := "momentum"; hp_type := py_float; hp_default := None |}]
              ANone ANone ANone ANone ANone ANone ANone ANone ANone ANone ANone ANone
              ANone (<["momentum" := Atom (AFloat d_0_5)]> ∅)) as [m|e] eqn:E;
    [|destruct H].
  exists m. split; [reflexivity|].
  apply (get_arguments_keeps_hyperparameter
           ["cifar10_vgg16"; "--bs"; "128"; "-N"; "10"; "--lr"; "0.1"]
           [{| hp_name := "momentum"; hp_type := py_float; hp_default := None |}]
           ANone ANone ANone ANone ANone ANone ANone ANone ANone ANone ANone ANone
           ANone (<["momentum" := Atom (AFloat d_0_5)]> ∅) m
           {| hp_name := "momentum"; hp_type := py_float; hp_default := None |}
           (AFloat d_0_5)).
  - apply list_elem_of_here.
  - apply lookup_insert_eq.
  - intros Hin. apply list_elem_of_In in Hin. vm_compute in Hin.
    repeat (destruct Hin as [Hin|Hin]; [discriminate Hin|]). exact Hin.
  - intros hp Hhp Hk. apply list_elem_of_singleton in Hhp. rewrite Hhp in Hk.
    cbn [hp_name] in Hk. rewrite lookup_insert_eq in Hk. discriminate Hk.
  - exact E.
Defined.

Lemma get_arguments_keys_witness :
  ∃ m, get_arguments ["cifar10_vgg16"; "--bs"; "128"; "-N"; "10"; "--lr"; "0.1"]
         [] ANone ANone ANone ANone ANone ANone ANone ANone ANone ANone ANone ANone
         ANone ∅ = Ok m ∧
       is_Some (m !! "batch_size") ∧
       ("batch_size" ∈ parameter_names ∨
        ∃ hp : Hyperparam, hp ∈ [] ∧
          ("batch_size" = hp_name hp ∧
           is_Some ((∅ : gmap string pyval) !! hp_name hp) ∨
           "batch_size" = hp_key (hp_name hp) ∧
           (∅ : gmap string pyval) !! hp_name hp = None)).
Proof.
  assert (H : returns
                (get_arguments
                   ["cifar10_vgg16"; "--bs"; "128"; "-N"; "10"; "--lr"; "0.1"]
                   [] ANone ANone ANone ANone ANone ANone ANone ANone ANone ANone ANone
                   ANone ANone ∅))
    by (vm_compute; exact I).
  destruct (get_arguments ["cifar10_vgg16"; "--bs"; "128"; "-N"; "10"; "--lr"; "0.1"]
              [] ANone ANone ANone ANone ANone ANone ANone ANone ANone ANone ANone ANone
              ANone ∅) as [m|e] eqn:E;
    [|destruct H].
  exists m. split; [reflexivity|].
  assert (Hb : is_Some (m !! "batch_size")).
  { apply (returned_has_parameters
             ["cifar10_vgg16"; "--bs"; "128"; "-N"; "10"; "--lr"; "0.1"]
             [] ANone ANone ANone ANone ANone ANone ANone ANone ANone ANone ANone ANone
             ANone ∅ m E).
    do 2 apply list_elem_of_further. apply list_elem_of_here. }
  split; [exact Hb|].
  exact (get_arguments_keys
           ["cifar10_vgg16"; "--bs"; "128"; "-N"; "10"; "--lr"; "0.1"]
           [] ANone ANone ANone ANone ANone ANone ANone ANone ANone ANone ANone ANone
           ANone ∅ m "batch_size" E Hb).
Defined.

(** ** Defaults *)

Section Defaults.

Lemma finish_same (seen : list nat) (d : string) (v : pyval) (q : ArgumentParser) :
  ∀ (i : nat) (ns ns' : gmap string pyval),
    finish i q seen ns = Ok ns' ->
    ns !! d = Some v ->
    (∀ a s, a ∈ q -> dest a = d -> default a = Atom (AStr s) -> v = Atom (AStr s) ->
            type_ a s = Some (AStr s)) ->
    ns' !! d = Some v.
Proof.
  induction q as [|b q IH]; intros i ns ns'; cbn [finish]; [by intros [= <-]|].
  intros Hf Hv Hq.
  assert (Hq' : ∀ a s, a ∈ q -> dest a = d -> default a = Atom (AStr s) ->
                 v = Atom (AStr s) -> type_ a s = Some (AStr s)).
  { intros a s Ha. apply (Hq a s). by right. }
  revert Hf.
  destruct (bool_decide (i ∈ seen)); [intros Hf; by eapply IH|].
  destruct (required b); [by destruct (finish (S i) q seen ns)|].
  destruct (default b) as [[| | | |s]|] eqn:Hd; try (intros Hf; by eapply IH).
  destruct (ns !! dest b) as [[[| | | |s']|]|] eqn:Hn; try (intros Hf; by eapply IH).
  destruct (String.eqb_spec s s') as [<-|]; [|intros Hf; by eapply IH].
  destruct (type_ b s) as [w|] eqn:Hw; [|done].
  intros Hf. eapply IH; [exact Hf| |done].
  destruct (decide (dest b = d)) as [Heq|Hne].
  - rewrite Heq in Hn. rewrite Hn in Hv. injection Hv as <-.
    rewrite (Hq b s) in Hw; [|by left|done|done|done]. injection Hw as <-.
    by rewrite Heq, lookup_insert_eq.
  - by rewrite lookup_insert_ne.
Qed.

(** The default of a name stays in the namespace when no flag that
    writes to the name is on the command line. *)
Lemma parse_args_default (p : ArgumentParser) (argv : list string)
    (ns : gmap string pyval) (d : string) (v : pyval) :
  parse_args p argv = Ok ns ->
  initial_namespace p ∅ !! d = Some v ->
  (∀ j a, p !! j = Some a -> dest a = d -> ¬ named p argv j ∧ option_strings a ≠ []) ->
  (∀ a s, a ∈ p -> dest a = d -> default a = Atom (AStr s) -> v = Atom (AStr s) ->
          type_ a s = Some (AStr s)) ->
  ns !! d = Some v.
Proof.
  unfold parse_args.
  destruct (classify (option_table p) argv) as [syms|] eqn:Hc; py_step; [|done].
  destruct (consume _ _ _ _ syms) as [st|] eqn:Hcons; py_step; [|done].
  destruct (finish 0 p (seen st) (namespace st)) as [ns1|] eqn:Hf; py_step; [|done].
  destruct (extras st); [|done]. intros [= <-] Hd Habs Hstr.
  pose proof (classify_ok p argv argv syms (reflexivity _) Hc) as Hok.
  destruct (consume_inv p argv _ _ _ _ Hcons Hok) as (_ & Hseen & Hns & _).
  cbn [seen positionals namespace] in *.
  apply (finish_same _ _ _ _ _ _ _ Hf); [|done].
  rewrite Hns; [done|].
  intros j a Hj Ha Heq. destruct (Habs j a Ha Heq) as [Hn Ho].
  destruct (Hseen j Hj) as [H|[H|[H _]]]; [by apply elem_of_nil in H|done|].
  apply positional_indices_elem in H as (a' & _ & Ha' & Ho').
  rewrite Nat.sub_0_r in Ha'.
  assert (Some a = Some a') as [= <-] by (rewrite <- Ha; exact Ha').
  done.
Qed.

Lemma optional_dest_sublist (value : pyval) (a : Action) :
  dest <$> optional value a `sublist_of` [dest a].
Proof. unfold optional. destruct (is_none value); [done|]. by apply sublist_nil_l. Qed.

Lemma NoDup_fmap_eq {A B : Type} (f : A -> B) (l : list A) (x y : A) :
  NoDup (f <$> l) -> x ∈ l -> y ∈ l -> f x = f y -> x = y.
Proof.
  induction l as [|z l IH]; [by intros _ ?%elem_of_nil|].
  rewrite fmap_cons. intros [Hz Hl]%NoDup_cons Hx Hy Hf.
  apply elem_of_cons in Hx as [->|Hx]; apply elem_of_cons in Hy as [->|Hy]; try done.
  - exfalso. apply Hz. rewrite Hf. apply list_elem_of_fmap. by exists y.
  - exfalso. apply Hz. rewrite <- Hf. apply list_elem_of_fmap. by exists x.
  - by apply IH.
Qed.

Lemma initial_namespace_member (p q : ArgumentParser) (a : Action) :
  NoDup (dest <$> p) -> a ∈ p -> kind a ≠ Help ->
  ∀ ns, ns !! dest a = None ->
        initial_namespace (p ++ q)%list ns !! dest a = Some (default a).
Proof.
  intros Hnd Ha Hk ns Hns.
  apply list_elem_of_split in Ha as (p1 & p2 & ->).
  rewrite <- app_assoc. cbn [app].
  apply initial_namespace_first; [|done|done].
  rewrite fmap_app, fmap_cons in Hnd. apply NoDup_app in Hnd as (_ & Hdis & _).
  apply Forall_forall. intros b Hb Heq. apply (Hdis (dest b)).
  - apply list_elem_of_fmap. by exists b.
  - rewrite Heq. left.
Qed.

Context (argv : list string) (hyperparams : list Hyperparam)
        (testproblem weight_decay batch_size num_epochs learning_rate
         lr_sched_epochs lr_sched_factors random_seed data_dir output_dir
         train_log_interval print_train_iter no_logs : pyval)
        (kwargs : gmap string pyval).

Let call := get_arguments argv hyperparams testproblem weight_decay batch_size
              num_epochs learning_rate lr_sched_epochs lr_sched_factors random_seed
              data_dir output_dir train_log_interval print_train_iter no_logs kwargs.
Let values := passed testproblem weight_decay batch_size num_epochs learning_rate
                lr_sched_epochs lr_sched_factors random_seed data_dir output_dir
                train_log_interval print_train_iter no_logs.
Let actions := builtin_actions testproblem weight_decay batch_size num_epochs
                 learning_rate lr_sched_epochs lr_sched_factors random_seed data_dir
                 output_dir train_log_interval print_train_iter no_logs.

Lemma builtin_actions_dests : NoDup (dest <$> (new_parser ++ actions)%list).
Proof.
  apply (sublist_NoDup _ ("help" :: parameter_names)).
  - apply (bool_decide_unpack _). vm_compute. exact I.
  - subst actions. unfold builtin_actions. rewrite !fmap_app.
    change ("help" :: parameter_names)
      with (["help"] ++ ["testproblem"] ++ ["weight_decay"] ++ ["batch_size"] ++
            ["num_epochs"] ++ ["learning_rate"] ++ ["lr_sched_epochs"] ++
            ["lr_sched_factors"] ++ ["random_seed"] ++ ["data_dir"] ++
            ["output_dir"] ++ ["train_log_interval"] ++ ["print_train_iter"] ++
            ["no_logs"])%list.
    repeat (apply sublist_app; [first [done | apply optional_dest_sublist]|]).
    apply optional_dest_sublist.
Qed.

Lemma default_of_action (a : Action) (m : gmap string pyval) :
  a ∈ actions -> option_strings a ≠ [] ->
  (∀ s, default a = Atom (AStr s) -> type_ a s = Some (AStr s)) ->
  flags_absent (option_strings a) argv = true ->
  (∀ hp, hp ∈ hyperparams -> kwargs !! hp_name hp = None ->
         hp_key (hp_name hp) ≠ dest a) ->
  call = Ok m ->
  m !! dest a = Some (default a).
Proof.
  intros Ha Hflags Htype Habs Hhp
    (args & acts & cmdline & Hadd & Hall & Hparse & ->)%get_arguments_stages.
  apply lookup_union_Some_l.
  destruct (builtin_actions_passed _ _ _ _ _ _ _ _ _ _ _ _ _ _ Ha)
    as (value & Hin & Hnone & Hk).
  assert (Hhere : a ∈ (new_parser ++ actions)%list) by (apply elem_of_app; by right).
  assert (Hsame : ∀ b, b ∈ (new_parser ++ actions ++ acts)%list -> dest b = dest a ->
                       b = a).
  { intros b Hb Heq. rewrite app_assoc in Hb. apply elem_of_app in Hb as [Hb|Hb].
    - by apply (NoDup_fmap_eq dest _ _ _ builtin_actions_dests).
    - rewrite Forall_forall in Hall. destruct (Hall b Hb) as (hp & Hin' & Hkw & ->).
      cbn [dest make_action] in Heq. by destruct (Hhp hp). }
  apply (parse_args_default _ _ _ _ _ Hparse).
  - rewrite app_assoc.
    apply (initial_namespace_member (new_parser ++ actions)%list);
      [apply builtin_actions_dests|done|done|apply lookup_empty].
  - intros j b Hj Heq.
    assert (b = a) as -> by (apply Hsame; [by eapply list_elem_of_lookup_2|done]).
    split; [|done].
    intros (a' & tok & o & Ha' & Htok & Ho & Hm).
    assert (Some a = Some a') as [= <-] by (rewrite <- Hj; exact Ha').
    by rewrite (flags_absent_spec _ _ _ _ Habs Htok Ho) in Hm.
  - intros b s Hb Heq Hd _. rewrite (Hsame b Hb Heq) in Hd |- *. by apply Htype.
Qed.

Ltac default_case Htable Habs Hval m param kw :=
  injection Htable as -> -> ->;
  match type of Habs with
  | flags_absent ?fl _ = true =>
      match goal with
      | |- _ !! ?n = _ => apply (default_of_action (make_action fl n kw) m)
      end
  end;
  [ unfold actions, builtin_actions;
    rewrite (Hval param)
      by (unfold values, passed;
          repeat first [apply list_elem_of_here | apply list_elem_of_further]);
    find_action
  | done | by intros s [= <-] | done | done | done ].

(** X14: the defaults of the optional parameters. A parameter of the
    table that is not passed and whose flags no word of the command line
    names is bound to its default: [None] for [weight_decay],
    [lr_sched_epochs], [lr_sched_factors] and [data_dir], [42] for
    [random_seed], ["results"] for [output_dir], [10] for
    [train_log_interval] and [False] for [print_train_iter] and
    [no_logs]; provided no hyperparameter read from the command line is
    filed under the parameter's name. *)
Theorem get_arguments_defaults (m : gmap string pyval) (name : string)
    (flags : list string) (dflt value : pyval) :
  (name, (flags, dflt)) ∈ optional_parameters ->
  (name, value) ∈ values ->
  is_none value = true ->
  flags_absent flags argv = true ->
  (∀ hp, hp ∈ hyperparams -> kwargs !! hp_name hp = None ->
         hp_key (hp_name hp) ≠ name) ->
  call = Ok m ->
  m !! name = Some dflt.
Proof.
  intros Htable Hin Hnone Habs Hhp Hcall.
  assert (Hval : ∀ w, (name, w) ∈ values -> w = value).
  { intros w Hw. by apply (passed_functional testproblem weight_decay batch_size
      num_epochs learning_rate lr_sched_epochs lr_sched_factors random_seed data_dir
      output_dir train_log_interval print_train_iter no_logs name). }
  unfold optional_parameters in Htable.
  apply elem_of_cons in Htable as [Htable|Htable];
    [default_case Htable Habs Hval m weight_decay (typed py_float)|].
  apply elem_of_cons in Htable as [Htable|Htable];
    [default_case Htable Habs Hval m lr_sched_epochs (typed_plus py_int)|].
  apply elem_of_cons in Htable as [Htable|Htable];
    [default_case Htable Habs Hval m lr_sched_factors (typed_plus py_float)|].
  apply elem_of_cons in Htable as [Htable|Htable];
    [default_case Htable Habs Hval m random_seed (typed_default py_int (AInt 42))|].
  apply elem_of_cons in Htable as [Htable|Htable];
    [default_case Htable Habs Hval m data_dir plain|].
  apply elem_of_cons in Htable as [Htable|Htable];
    [default_case Htable Habs Hval m output_dir (typed_default py_str (AStr "results"))|].
  apply elem_of_cons in Htable as [Htable|Htable];
    [default_case Htable Habs Hval m train_log_interval (typed_default py_int (AInt 10))|].
  apply elem_of_cons in Htable as [Htable|Htable];
    [default_case Htable Habs Hval m print_train_iter const_flag|].
  apply elem_of_cons in Htable as [Htable|Htable];
    [default_case Htable Habs Hval m no_logs const_flag|].
  by apply elem_of_nil in Htable.
Qed.

End Defaults.

Section HyperparameterDefault.

Lemma first_with_dest (d : string) (l : list Action) (a : Action) :
  a ∈ l -> dest a = d ->
  ∃ l1 b l2, l = (l1 ++ b :: l2)%list ∧ dest b = d ∧ b ∈ l ∧
             Forall (fun c => dest c ≠ d) l1.
Proof.
  induction l as [|c l IH]; [by intros ?%elem_of_nil|].
  intros Ha Hd. destruct (decide (dest c = d)) as [Hc|Hc].
  - exists [], c, l. split; [done|]. split; [done|]. split; [left|constructor].
  - apply elem_of_cons in Ha as [->|Ha]; [done|].
    destruct (IH Ha Hd) as (l1 & b & l2 & -> & Hb & Hin & Hall).
    exists (c :: l1), b, l2. split; [done|]. split; [done|].
    split; [by right|by constructor].
Qed.

Context (argv : list string) (hyperparams : list Hyperparam)
        (testproblem weight_decay batch_size num_epochs learning_rate
         lr_sched_epochs lr_sched_factors random_seed data_dir output_dir
         train_log_interval print_train_iter no_logs : pyval)
        (kwargs : gmap string pyval).

Let call := get_arguments argv hyperparams testproblem weight_decay batch_size
              num_epochs learning_rate lr_sched_epochs lr_sched_factors random_seed
              data_dir output_dir train_log_interval print_train_iter no_logs kwargs.
Let actions := builtin_actions testproblem weight_decay batch_size num_epochs
                 learning_rate lr_sched_epochs lr_sched_factors random_seed data_dir
                 output_dir train_log_interval print_train_iter no_logs.

(** X17: a declared hyperparameter with a default (not a string) that
    the caller does not supply and whose flag no word of the command line
    names is bound to its default, under the key made of its name;
    provided the key is no parameter name (nor [help]) and no other
    hyperparameter read from the command line is filed under it. *)
Theorem get_arguments_hyperparameter_default (m : gmap string pyval)
    (hp : Hyperparam) (dflt : pyval) :
  hp ∈ hyperparams ->
  kwargs !! hp_name hp = None ->
  hp_default hp = Some dflt ->
  (∀ s, dflt ≠ Atom (AStr s)) ->
  hp_key (hp_name hp) ∉ "help" :: parameter_names ->
  (∀ hp', hp' ∈ hyperparams -> kwargs !! hp_name hp' = None ->
          hp_key (hp_name hp') = hp_key (hp_name hp) -> hp' = hp) ->
  flags_absent [hp_flag hp] argv = true ->
  call = Ok m ->
  m !! hp_key (hp_name hp) = Some dflt.
Proof.
  intros Hin Hk Hd Hstr Hkey Huniq Habs Hcall.
  pose proof Hcall as (args & acts & cmdline & Hadd & Hall & Hparse & ->)%get_arguments_stages.
  apply lookup_union_Some_l.
  set (d := hp_key (hp_name hp)) in *.
  set (a := make_action [hp_flag hp] d (hp_kwargs hp)).
  assert (Hdflt : default a = dflt).
  { subst a. unfold hp_kwargs. by rewrite Hd. }
  assert (Ha : a ∈ acts).
  { apply add_hyperparams_shape in Hadd as (acts' & Heq & _ & Hmem & _).
    rewrite <- app_assoc in Heq. apply app_inv_head in Heq.
    apply app_inv_head in Heq as <-. by apply Hmem. }
  assert (Hbuiltin : ∀ b, b ∈ (new_parser ++ actions)%list -> dest b ≠ d).
  { intros b Hb Heq. apply Hkey. rewrite <- Heq.
    apply elem_of_app in Hb as [Hb|Hb].
    - apply list_elem_of_singleton in Hb as ->. left.
    - right. apply builtin_actions_passed in Hb as (value & Hv & _).
      rewrite <- (passed_names testproblem weight_decay batch_size num_epochs
                   learning_rate lr_sched_epochs lr_sched_factors random_seed
                   data_dir output_dir train_log_interval print_train_iter no_logs).
      apply list_elem_of_fmap. by exists (dest b, value). }
  assert (Hsame : ∀ b, b ∈ (new_parser ++ actions ++ acts)%list -> dest b = d -> b = a).
  { intros b Hb Heq. rewrite app_assoc in Hb. apply elem_of_app in Hb as [Hb|Hb].
    - by destruct (Hbuiltin b).
    - rewrite Forall_forall in Hall. destruct (Hall b Hb) as (hp' & Hin' & Hk' & ->).
      cbn [dest make_action] in Heq. by rewrite (Huniq hp' Hin' Hk' Heq). }
  apply (parse_args_default _ _ _ _ _ Hparse).
  - destruct (first_with_dest d acts a Ha eq_refl) as (l1 & b & l2 & -> & Hb & Hbin & Hl1).
    assert (b = a) as ->.
    { apply Hsame; [|done]. apply elem_of_app. right. apply elem_of_app. by right. }
    rewrite <- Hdflt.
    assert (Hassoc : ∀ x y z w : list Action,
              (x ++ y ++ z ++ w = ((x ++ y) ++ z) ++ w)%list)
      by (intros; by rewrite <- !app_assoc).
    rewrite Hassoc.
    apply (initial_namespace_first _ l2 a);
      [|by subst a; unfold hp_kwargs; rewrite Hd|apply lookup_empty].
    apply Forall_app. split; [|done].
    apply Forall_forall. intros c Hc. by apply Hbuiltin.
  - intros j b Hj Heq.
    assert (b = a) as -> by (apply Hsame; [by eapply list_elem_of_lookup_2|done]).
    split; [|done].
    intros (a' & tok & o & Ha' & Htok & Ho & Hm).
    assert (Some a = Some a') as [= <-] by (rewrite <- Hj; exact Ha').
    by rewrite (flags_absent_spec _ _ _ _ Habs Htok Ho) in Hm.
  - intros b s _ _ _ Hs. by destruct (Hstr s).
Qed.

End HyperparameterDefault.

Lemma get_arguments_hyperparameter_default_witness :
  ∃ m, get_arguments ["cifar10_vgg16"; "--bs"; "128"; "-N"; "10"; "--lr"; "0.1"]
         [{| hp_name := "momentum"; hp_type := py_float;
             hp_default := Some (Atom (AFloat d_0_5)) |}]
         ANone ANone ANone ANone ANone ANone ANone ANone ANone ANone ANone ANone
         ANone ∅ = Ok m ∧
       m !! "momentum" = Some (Atom (AFloat d_0_5)).
Proof.
  assert (H : returns
                (get_arguments
                   ["cifar10_vgg16"; "--bs"; "128"; "-N"; "10"; "--lr"; "0.1"]
                   [{| hp_name := "momentum"; hp_type := py_float;
                       hp_default := Some (Atom (AFloat d_0_5)) |}]
                   ANone ANone ANone ANone ANone ANone ANone ANone ANone ANone ANone
                   ANone ANone ∅))
    by (vm_compute; exact I).
  destruct (get_arguments ["cifar10_vgg16"; "--bs"; "128"; "-N"; "10"; "--lr"; "0.1"]
              [{| hp_name := "momentum"; hp_type := py_float;
                  hp_default := Some (Atom (AFloat d_0_5)) |}]
              ANone ANone ANone ANone ANone ANone ANone ANone ANone ANone ANone ANone
              ANone ∅) as [m|e] eqn:E;
    [|destruct H].
  exists m. split; [reflexivity|].
  apply (get_arguments_hyperparameter_default
           ["cifar10_vgg16"; "--bs"; "128"; "-N"; "10"; "--lr"; "0.1"]
           [{| hp_name := "momentum"; hp_type := py_float;
               hp_default := Some (Atom (AFloat d_0_5)) |}]
           ANone ANone ANone ANone ANone ANone ANone ANone ANone ANone ANone ANone
           ANone ∅ m
           {| hp_name := "momentum"; hp_type := py_float;
              hp_default := Some (Atom (AFloat d_0_5)) |}
           (AFloat d_0_5)).
  - apply list_elem_of_here.
  - apply lookup_empty.
  - reflexivity.
  - intros s Hs. discriminate Hs.
  - intros Hin. apply list_elem_of_In in Hin. vm_compute in Hin.
    repeat (destruct Hin as [Hin|Hin]; [discriminate Hin|]). exact Hin.
  - intros hp' Hhp' _ _. by apply list_elem_of_singleton in Hhp'.
  - vm_compute. reflexivity.
  - exact E.
Defined.

(** ** The values read from the command line *)

Section Written.

Context (p : ArgumentParser).

Lemma take_action_written (st st' : State) (t : nat * list string) :
  take_action p st t = Ok st' -> seen_written p st -> seen_written p st'.
Proof.
  destruct t as [i ws]. unfold take_action.
  destruct (p !! i) as [a|] eqn:Hi; [|done].
  destruct (get_values a ws) as [v|] eqn:Hv; py_step; [|done].
  assert (Hw : written p (dest a) v).
  { exists a, ws. split; [by eapply list_elem_of_lookup_2|done]. }
  intros Hst Hinv.
  assert (st' = {| namespace := <[dest a := v]> (namespace st); seen := i :: seen st;
                   positionals := positionals st; extras := extras st |}) as ->.
  { destruct (kind a); try done; by injection Hst. }
  intros j b Hj Hb. cbn [seen namespace] in *.
  destruct (decide (dest a = dest b)) as [Heq|Hne].
  - exists v. rewrite <- Heq. by rewrite lookup_insert_eq.
  - rewrite lookup_insert_ne; [|done].
    apply elem_of_cons in Hj as [->|Hj]; [|by apply (Hinv j b)].
    assert (Some a = Some b) as [= ->] by (rewrite <- Hi; exact Hb). done.
Qed.

Lemma take_actions_written (ts : list (nat * list string)) :
  ∀ st st', take_actions p st ts = Ok st' -> seen_written p st -> seen_written p st'.
Proof.
  induction ts as [|t ts IH]; intros st st'; cbn [take_actions]; [by intros [= <-]|].
  destruct (take_action p st t) as [st1|] eqn:E; py_step; [|done].
  intros H Hinv. apply (IH _ _ H). by eapply take_action_written.
Qed.

Lemma consume_written (tbl : list (string * nat)) (fuel : nat) :
  ∀ (st : State) (syms : list Sym) (st' : State),
    consume fuel p tbl st syms = Ok st' -> seen_written p st -> seen_written p st'.
Proof.
  induction fuel as [|fuel IH]; intros st syms st'; cbn [consume]; [by intros [= <-]|].
  destruct syms as [|s rest]; [by intros [= <-]|].
  assert (Hextra : ∀ tok,
    consume fuel p tbl (add_extra st tok) rest = Ok st' ->
    seen_written p st -> seen_written p st').
  { intros tok Hc Hinv. by apply (IH _ _ _ Hc). }
  assert (Hpos : ∀ i ps w rest' st1,
    take_action p {| namespace := namespace st; seen := seen st;
                     positionals := ps; extras := extras st |} (i, [w]) = Ok st1 ->
    consume fuel p tbl st1 rest' = Ok st' ->
    seen_written p st -> seen_written p st').
  { intros i ps w rest' st1 Ht Hc Hinv. apply (IH _ _ _ Hc).
    by apply (take_action_written _ _ _ Ht). }
  destruct s as [tok| |[[[i|] os] e] tok].
  - destruct (positionals st) as [|i ps]; [apply Hextra|].
    destruct (match_positional (SymA tok :: rest)) as [[w rest']|]; [|apply Hextra].
    destruct (take_action p _ (i, [w])) as [st1|] eqn:Ht; py_step; [|done].
    by eapply Hpos.
  - destruct (positionals st) as [|i ps]; [apply Hextra|].
    destruct (match_positional (SymDash :: rest)) as [[w rest']|]; [|apply Hextra].
    destruct (take_action p _ (i, [w])) as [st1|] eqn:Ht; py_step; [|done].
    by eapply Hpos.
  - destruct e as [ex|].
    + destruct (consume_explicit p tbl i os ex rest) as [[ts rest']|]; py_step; [|done].
      destruct (take_actions p st ts) as [st1|] eqn:Et; py_step; [|done].
      intros Hc Hinv. apply (IH _ _ _ Hc). by eapply take_actions_written.
    + destruct (consume_following p i rest) as [[t rest']|]; py_step; [|done].
      destruct (take_actions p st [t]) as [st1|] eqn:Et; py_step; [|done].
      intros Hc Hinv. apply (IH _ _ _ Hc). by eapply take_actions_written.
  - apply Hextra.
Qed.

(** A required action leaves a value made of words of the command line. *)
Lemma parse_args_required_written (argv : list string) (ns : gmap string pyval)
    (j : nat) (a : Action) :
  parse_args p argv = Ok ns ->
  p !! j = Some a -> required a = true ->
  (∀ b s, b ∈ p -> dest b = dest a -> default b ≠ Atom (AStr s)) ->
  ∃ v, ns !! dest a = Some v ∧ written p (dest a) v.
Proof.
  unfold parse_args.
  destruct (classify (option_table p) argv) as [syms|]; py_step; [|done].
  destruct (consume _ _ _ _ syms) as [st|] eqn:Hcons; py_step; [|done].
  destruct (finish 0 p (seen st) (namespace st)) as [ns1|] eqn:Hf; py_step; [|done].
  destruct (extras st); [|done]. intros [= <-] Hj Hreq Hdef.
  pose proof (finish_required _ _ _ _ _ Hf j a Hj Hreq) as Hseen. cbn in Hseen.
  assert (Hinv : seen_written p st).
  { apply (consume_written _ _ _ _ _ Hcons). by intros ? ? ?%elem_of_nil. }
  destruct (Hinv j a Hseen Hj) as (v & Hv & Hw).
  exists v. split; [|done].
  apply (finish_same _ _ _ _ _ _ _ Hf Hv).
  intros b s Hb Heq Hd. by destruct (Hdef b s).
Qed.

End Written.

Section RequiredTypes.

Lemma py_int_is_int (s : string) (x : atom) : py_int s = Some x -> ∃ z, x = AInt z.
Proof.
  unfold py_int. destruct (signed_digits s) as [z|]; [|done].
  intros [= <-]. by exists z.
Qed.

Lemma py_float_is_float (s : string) (x : atom) :
  py_float s = Some x -> ∃ f, x = AFloat f.
Proof.
  unfold py_float. destruct (split_sign s) as [neg body].
  destruct (String.eqb body "inf"); [intros [= <-]; by eexists|].
  destruct (String.eqb body "nan"); [intros [= <-]; by eexists|].
  destruct (span_digits body) as [int_part r].
  destruct (match r with String "." r' => span_digits r' | _ => (EmptyString, r) end)
    as [frac_part r'].
  destruct (int_part +:+ frac_part); [done|].
  destruct (match r' with
            | EmptyString => Some 0
            | String c r'' =>
                if Str.char_eqb c "e" || Str.char_eqb c "E"
                then signed_digits r'' else None
            end) as [e|]; [|done].
  cbn [mbind option_bind].
  destruct (digits_value _ 0) as [m|]; [|done].
  cbn [mbind option_bind]. intros [= <-]. by eexists.
Qed.

Lemma get_values_one (a : Action) (ws : list string) (v : pyval) :
  kind a = Store NargsNone -> get_values a ws = Ok v ->
  ∃ w x, type_ a w = Some x ∧ v = Atom x.
Proof.
  unfold get_values. intros ->. destruct ws as [|w [|? ?]]; try done.
  destruct (type_ a w) as [x|] eqn:E; [|done]. intros [= <-]. by exists w, x.
Qed.

Context (argv : list string) (hyperparams : list Hyperparam)
        (testproblem weight_decay batch_size num_epochs learning_rate
         lr_sched_epochs lr_sched_factors random_seed data_dir output_dir
         train_log_interval print_train_iter no_logs : pyval)
        (kwargs : gmap string pyval).

Let call := get_arguments argv hyperparams testproblem weight_decay batch_size
              num_epochs learning_rate lr_sched_epochs lr_sched_factors random_seed
              data_dir output_dir train_log_interval print_train_iter no_logs kwargs.
Let actions := builtin_actions testproblem weight_decay batch_size num_epochs
                 learning_rate lr_sched_epochs lr_sched_factors random_seed data_dir
                 output_dir train_log_interval print_train_iter no_logs.

Lemma required_value (a : Action) (m : gmap string pyval) :
  a ∈ actions -> required a = true -> default a = Atom ANone ->
  not_filed hyperparams kwargs (dest a) ->
  call = Ok m ->
  ∃ v ws, m !! dest a = Some v ∧ get_values a ws = Ok v.
Proof.
  intros Ha Hreq Hdef Hhp
    (args & acts & cmdline & Hadd & Hall & Hparse & ->)%get_arguments_stages.
  assert (Hhere : a ∈ (new_parser ++ actions)%list) by (apply elem_of_app; by right).
  assert (Hsame : ∀ b, b ∈ (new_parser ++ actions ++ acts)%list -> dest b = dest a ->
                       b = a).
  { intros b Hb Heq. rewrite app_assoc in Hb. apply elem_of_app in Hb as [Hb|Hb].
    - by apply (NoDup_fmap_eq dest _ _ _
                  (builtin_actions_dests testproblem weight_decay batch_size
                     num_epochs learning_rate lr_sched_epochs lr_sched_factors
                     random_seed data_dir output_dir train_log_interval
                     print_train_iter no_logs)).
    - rewrite Forall_forall in Hall. destruct (Hall b Hb) as (hp & Hin' & Hkw & ->).
      cbn [dest make_action] in Heq. by destruct (Hhp hp). }
  assert (Hin : a ∈ (new_parser ++ actions ++ acts)%list).
  { rewrite app_assoc. apply elem_of_app. by left. }
  apply list_elem_of_lookup_1 in Hin as [j Hj].
  destruct (parse_args_required_written _ _ _ j a Hparse Hj Hreq) as (v & Hv & Hw).
  { intros b s Hb Heq. rewrite (Hsame b Hb Heq), Hdef. done. }
  destruct Hw as (b & ws & Hb & Heq & Hval). rewrite (Hsame b Hb Heq) in Hval.
  exists v, ws. split; [|done]. by apply lookup_union_Some_l.
Qed.

(** X19: the values read for the required parameters have the type
    of their flag: when [get_arguments] returns, a test problem that was
    not passed is bound to a string, a batch size and a number of epochs
    that were not passed to integers, and a learning rate that was not
    passed to a float; each provided no hyperparameter read from the
    command line is filed under the parameter's name. *)
Theorem get_arguments_required_types (m : gmap string pyval) :
  call = Ok m ->
  (is_none testproblem = true -> not_filed hyperparams kwargs "testproblem" ->
   ∃ s, m !! "testproblem" = Some (Atom (AStr s))) ∧
  (is_none batch_size = true -> not_filed hyperparams kwargs "batch_size" ->
   ∃ z, m !! "batch_size" = Some (Atom (AInt z))) ∧
  (is_none num_epochs = true -> not_filed hyperparams kwargs "num_epochs" ->
   ∃ z, m !! "num_epochs" = Some (Atom (AInt z))) ∧
  (is_none learning_rate = true -> not_filed hyperparams kwargs "learning_rate" ->
   ∃ x, m !! "learning_rate" = Some (Atom (AFloat x))).
Proof.
  intros Hcall. split; [|split; [|split]]; intros Hnone Hhp.
  - destruct (required_value (positional_action "testproblem") m)
      as (v & ws & Hm & Hv); try done.
    { subst actions. unfold builtin_actions. find_action. }
    apply get_values_one in Hv as (w & x & [= <-] & ->); [|done]. by exists w.
  - destruct (required_value
                (make_action ["--batch_size"; "--bs"] "batch_size"
                   (typed_required py_int)) m) as (v & ws & Hm & Hv); try done.
    { subst actions. unfold builtin_actions. find_action. }
    apply get_values_one in Hv as (w & x & Hx & ->); [|done].
    apply py_int_is_int in Hx as [z ->]. by exists z.
  - destruct (required_value
                (make_action ["-N"; "--num_epochs"] "num_epochs"
                   (typed_required py_int)) m) as (v & ws & Hm & Hv); try done.
    { subst actions. unfold builtin_actions. find_action. }
    apply get_values_one in Hv as (w & x & Hx & ->); [|done].
    apply py_int_is_int in Hx as [z ->]. by exists z.
  - destruct (required_value
                (make_action ["--learning_rate"; "--lr"] "learning_rate"
                   (typed_required py_float)) m) as (v & ws & Hm & Hv); try done.
    { subst actions. unfold builtin_actions. find_action. }
    apply get_values_one in Hv as (w & x & Hx & ->); [|done].
    apply py_float_is_float in Hx as [f ->]. by exists f.
Qed.

End RequiredTypes.

Lemma get_arguments_required_types_witness :
  ∃ m z, get_arguments ["cifar10_vgg16"; "--bs"; "128"; "-N"; "10"; "--lr"; "0.1"]
           [] ANone ANone ANone ANone ANone ANone ANone ANone ANone ANone ANone ANone
           ANone ∅ = Ok m ∧
         m !! "batch_size" = Some (Atom (AInt z)).
Proof.
  assert (H : returns
                (get_arguments
                   ["cifar10_vgg16"; "--bs"; "128"; "-N"; "10"; "--lr"; "0.1"]
                   [] ANone ANone ANone ANone ANone ANone ANone ANone ANone ANone ANone
                   ANone ANone ∅))
    by (vm_compute; exact I).
  destruct (get_arguments ["cifar10_vgg16"; "--bs"; "128"; "-N"; "10"; "--lr"; "0.1"]
              [] ANone ANone ANone ANone ANone ANone ANone ANone ANone ANone ANone ANone
              ANone ∅) as [m|e] eqn:E;
    [|destruct H].
  destruct (get_arguments_required_types
              ["cifar10_vgg16"; "--bs"; "128"; "-N"; "10"; "--lr"; "0.1"]
              [] ANone ANone ANone ANone ANone ANone ANone ANone ANone ANone ANone ANone
              ANone ∅ m E) as (_ & Hbs & _).
  destruct Hbs as [z Hz].
  - reflexivity.
  - intros hp Hhp. apply elem_of_nil in Hhp. destruct Hhp.
  - exists m, z. split; [reflexivity|exact Hz].
Defined.

(** ** Registering the flags *)

Section Registration.

Lemma lookup_option_fresh (p : ArgumentParser) (o : string) :
  (∀ a, a ∈ p -> o ∉ option_strings a) -> lookup_option (option_table p) o = None.
Proof.
  intros H. destruct (lookup_option (option_table p) o) as [i|] eqn:E; [|done].
  apply lookup_option_action in E as (a & Ha & Ho).
  destruct (H a); [by eapply list_elem_of_lookup_2|done].
Qed.

Lemma lookup_option_member (tbl : list (string * nat)) (o : string) (i : nat) :
  (o, i) ∈ tbl -> is_Some (lookup_option tbl o).
Proof.
  induction tbl as [|[o' j] tbl IH]; [by intros ?%elem_of_nil|].
  simpl. destruct (String.eqb_spec o' o) as [->|Hne]; [by eexists|].
  intros [[= ? ?]|H]%elem_of_cons; [congruence|by apply IH].
Qed.

Lemma option_table_member (p : ArgumentParser) (a : Action) (o : string) :
  a ∈ p -> o ∈ option_strings a -> ∀ k, ∃ i, (o, i) ∈ option_table_from k p.
Proof.
  induction p as [|b p IH]; [by intros ?%elem_of_nil|].
  intros [->|Ha]%elem_of_cons Ho k; simpl.
  - exists k. apply elem_of_app. left. apply list_elem_of_fmap. by exists o.
  - destruct (IH Ha Ho (S k)) as [i Hi]. exists i. apply elem_of_app. by right.
Qed.

Lemma lookup_option_registered (p : ArgumentParser) (a : Action) (o : string) :
  a ∈ p -> o ∈ option_strings a -> is_Some (lookup_option (option_table p) o).
Proof.
  intros Ha Ho. destruct (option_table_member p a o Ha Ho 0) as [i Hi].
  by eapply lookup_option_member.
Qed.

Lemma add_argument_fresh (p : ArgumentParser) (flags : list string) (kw : Kwargs)
    (d : string) :
  forallb starts_with_dash flags = true -> infer_dest flags = Ok d ->
  (∀ o a, o ∈ flags -> a ∈ p -> o ∉ option_strings a) ->
  add_argument p flags kw = Ok (p ++ [make_action flags d kw])%list.
Proof.
  intros Hdash Hd Hfresh. unfold add_argument. rewrite Hdash, Hd. py_step.
  cbn [negb].
  replace (existsb _ flags) with false; [done|].
  symmetry. apply not_true_is_false. intros (o & Ho & Hb)%existsb_exists.
  apply bool_decide_eq_true in Hb. apply list_elem_of_In in Ho.
  rewrite lookup_option_fresh in Hb; [by destruct Hb|].
  intros a. by apply Hfresh.
Qed.

(** What [add_argument] raises. *)
Lemma add_argument_raises (p : ArgumentParser) (flags : list string) (kw : Kwargs)
    (e : exn) :
  add_argument p flags kw = Raise e ->
  e = ValueError ∨ e = ArgumentError "conflicting option string".
Proof.
  unfold add_argument. destruct (negb _); [intros [= <-]; by left|].
  destruct (infer_dest flags) as [d|e'] eqn:Hd; py_step.
  - destruct (existsb _ flags); [intros [= <-]; by right|done].
  - intros [= <-]. left. unfold infer_dest in Hd.
    destruct (_ ++ _)%list; [by injection Hd|].
    destruct (Str.lstrip "-" _); [by injection Hd|done].
Qed.

Lemma known_or_flag_registers (name : string) (value : pyval) (flags : list string)
    (kw : Kwargs) (d : string) (args : gmap string pyval) (p : ArgumentParser) :
  forallb starts_with_dash flags = true -> infer_dest flags = Ok d ->
  (∀ o a, o ∈ flags -> a ∈ p -> o ∉ option_strings a) ->
  known_or_flag name value (fun p => add_argument p flags kw) (args, p)
  = Ok (keep name value args, (p ++ optional value (make_action flags d kw))%list).
Proof.
  intros Hdash Hd Hfresh. unfold known_or_flag, keep, optional.
  destruct (is_none value); py_step.
  - by rewrite (add_argument_fresh p flags kw d).
  - by rewrite app_nil_r.
Qed.

End Registration.

Ltac fresh_flags :=
  let o := fresh "o" in
  let a := fresh "a" in
  let Ho := fresh "Ho" in
  let Ha := fresh "Ha" in
  intros o a Ho Ha;
  repeat (apply elem_of_app in Ha as [Ha|Ha];
          [|apply elem_of_optional_inv in Ha as [-> _];
            cbn [option_strings make_action positional_action];
            intros Hin; apply list_elem_of_In in Hin; apply list_elem_of_In in Ho;
            cbn [In] in Ho, Hin; intuition congruence]);
  apply list_elem_of_singleton in Ha as ->;
  cbn [option_strings help_action];
  intros Hin; apply list_elem_of_In in Hin; apply list_elem_of_In in Ho;
  cbn [In] in Ho, Hin; intuition congruence.

Section BuiltinFlags.

Context (hyperparams : list Hyperparam)
        (testproblem weight_decay batch_size num_epochs learning_rate
         lr_sched_epochs lr_sched_factors random_seed data_dir output_dir
         train_log_interval print_train_iter no_logs : pyval)
        (kwargs : gmap string pyval).

(** The flags of the thirteen parameters are always registered: only the
    flag of a hyperparameter can be refused. *)
Lemma build_builtins :
  build hyperparams testproblem weight_decay batch_size num_epochs learning_rate
    lr_sched_epochs lr_sched_factors random_seed data_dir output_dir
    train_log_interval print_train_iter no_logs kwargs
  = add_hyperparams hyperparams kwargs
      (builtin_args testproblem weight_decay batch_size num_epochs learning_rate
         lr_sched_epochs lr_sched_factors random_seed data_dir output_dir
         train_log_interval print_train_iter no_logs,
       (new_parser ++
        builtin_actions testproblem weight_decay batch_size num_epochs learning_rate
          lr_sched_epochs lr_sched_factors random_seed data_dir output_dir
          train_log_interval print_train_iter no_logs)%list).
Proof.
  unfold build, builtin_args, builtin_actions.
  assert (Hpos : known_or_flag "testproblem" testproblem
                   (fun p => add_positional p "testproblem") (∅, new_parser)
                 = Ok (keep "testproblem" testproblem ∅,
                       (new_parser ++
                        optional testproblem (positional_action "testproblem"))%list)).
  { unfold known_or_flag, keep, optional, add_positional.
    destruct (is_none testproblem); py_step; [done|]. by rewrite app_nil_r. }
  rewrite Hpos. py_step.
  repeat (erewrite known_or_flag_registers;
          [py_step; rewrite <- ?app_assoc
          | reflexivity
          | reflexivity
          | rewrite ?app_assoc; fresh_flags ]).
  reflexivity.
Qed.

End BuiltinFlags.

Section Conflicts.

Lemma bind_raise {A B : Type} (r : result A) (k : A -> result B) (e : exn) :
  r = Raise e -> r ≫= k = Raise e.
Proof. by intros ->. Qed.

Lemma add_hyperparams_conflict (kwargs : gmap string pyval) (hp : Hyperparam)
    (hyperparams : list Hyperparam) :
  ∀ (args0 : gmap string pyval) (p0 : ArgumentParser),
    hp ∈ hyperparams -> kwargs !! hp_name hp = None ->
    is_Some (lookup_option (option_table p0) (hp_flag hp)) ->
    ∃ e, add_hyperparams hyperparams kwargs (args0, p0) = Raise e ∧
         registration_error e.
Proof.
  induction hyperparams as [|h rest IH]; intros args0 p0 Hin Hk Hflag;
    [by apply elem_of_nil in Hin|].
  cbn [add_hyperparams].
  destruct (kwargs !! hp_name h) as [v|] eqn:Hv; py_step.
  - apply elem_of_cons in Hin as [->|Hin]; [congruence|]. by apply IH.
  - destruct (add_argument p0 [hp_flag h] (hp_kwargs h)) as [p1|e] eqn:Ha; py_step.
    + assert (Hp1 : ∃ a, p1 = (p0 ++ [a])%list ∧
                         lookup_option (option_table p0) (hp_flag h) = None).
      { revert Ha. unfold add_argument. destruct (negb _); [done|].
        destruct (infer_dest _) as [d|]; py_step; [|done].
        cbn [existsb orb].
        destruct (lookup_option (option_table p0) (hp_flag h)) as [i|] eqn:El.
        - rewrite bool_decide_eq_true_2; [done|by eexists].
        - rewrite bool_decide_eq_false_2; [|by intros [? ?]].
          intros [= <-]. by eexists. }
      destruct Hp1 as (a & -> & Hnone).
      apply elem_of_cons in Hin as [->|Hin].
      { rewrite Hnone in Hflag. by destruct Hflag. }
      apply IH; [done|done|].
      destruct Hflag as [i Hi].
      destruct (lookup_option_action _ _ _ Hi) as (b & Hb & Ho).
      apply (lookup_option_registered _ b); [|done].
      apply elem_of_app. left. by eapply list_elem_of_lookup_2.
    + exists e. split; [done|]. by eapply add_argument_raises.
Qed.

Context (argv : list string) (hyperparams : list Hyperparam)
        (testproblem weight_decay batch_size num_epochs learning_rate
         lr_sched_epochs lr_sched_factors random_seed data_dir output_dir
         train_log_interval print_train_iter no_logs : pyval)
        (kwargs : gmap string pyval).

Let call := get_arguments argv hyperparams testproblem weight_decay batch_size
              num_epochs learning_rate lr_sched_epochs lr_sched_factors random_seed
              data_dir output_dir train_log_interval print_train_iter no_logs kwargs.
Let actions := builtin_actions testproblem weight_decay batch_size num_epochs
                 learning_rate lr_sched_epochs lr_sched_factors random_seed data_dir
                 output_dir train_log_interval print_train_iter no_logs.

(** X15: a hyperparameter that is not supplied and whose flag
    [--name] is a flag of the parser already, [--help] or a flag of a
    parameter that was not passed, makes [get_arguments] raise at
    registration, whatever the command line: [ArgumentError] for the
    conflict (or the [ValueError] of an earlier hyperparameter without a
    usable name), never a return and never argparse's exit. *)
Theorem get_arguments_flag_conflict (hp : Hyperparam) (a : Action) :
  hp ∈ hyperparams -> kwargs !! hp_name hp = None ->
  a ∈ (new_parser ++ actions)%list -> hp_flag hp ∈ option_strings a ->
  ∃ e, call = Raise e ∧ registration_error e.
Proof.
  intros Hin Hk Ha Ho. subst call. unfold get_arguments. rewrite build_builtins.
  destruct (add_hyperparams_conflict kwargs hp hyperparams
              (builtin_args testproblem weight_decay batch_size num_epochs
                 learning_rate lr_sched_epochs lr_sched_factors random_seed data_dir
                 output_dir train_log_interval print_train_iter no_logs)
              (new_parser ++ actions)%list Hin Hk) as (e & He & Hreg).
  { by apply (lookup_option_registered _ a). }
  exists e. split; [|done]. apply bind_raise. exact He.
Qed.

(** X16: two descriptors of the same name in [hyperparams], the
    hyperparameter not supplied, make [get_arguments] raise at
    registration in the same way: the second [--name] is refused. *)
Theorem get_arguments_duplicate_hyperparameter (hp1 hp2 : Hyperparam)
    (l1 l2 l3 : list Hyperparam) :
  hyperparams = (l1 ++ hp1 :: l2 ++ hp2 :: l3)%list ->
  hp_name hp2 = hp_name hp1 -> kwargs !! hp_name hp1 = None ->
  ∃ e, call = Raise e ∧ registration_error e.
Proof.
  intros Hsplit Hname Hk. subst call. unfold get_arguments. rewrite build_builtins.
  assert (Hgen : ∀ l args0 p0,
            ∃ e, add_hyperparams (l ++ hp1 :: l2 ++ hp2 :: l3)%list kwargs (args0, p0)
                 = Raise e ∧ registration_error e).
  { clear Hsplit. induction l as [|h l IH]; intros args0 p0.
    - cbn [app add_hyperparams]. rewrite Hk. py_step.
      destruct (add_argument p0 [hp_flag hp1] (hp_kwargs hp1)) as [p1|e] eqn:Ha; py_step.
      + apply (add_hyperparams_conflict kwargs hp2).
        * apply elem_of_app. right. left.
        * by rewrite Hname.
        * revert Ha. unfold add_argument. destruct (negb _); [done|].
          destruct (infer_dest _) as [d|]; py_step; [|done].
          destruct (existsb _ _); [done|]. intros [= <-].
          apply (lookup_option_registered _ (make_action [hp_flag hp1] d (hp_kwargs hp1))).
          -- apply elem_of_app. right. left.
          -- cbn [option_strings make_action]. unfold hp_flag. rewrite Hname. left.
      + exists e. split; [done|]. by eapply add_argument_raises.
    - cbn [app add_hyperparams].
      destruct (kwargs !! hp_name h) as [v|]; py_step; [apply IH|].
      destruct (add_argument p0 [hp_flag h] (hp_kwargs h)) as [p1|e] eqn:Ha; py_step;
        [apply IH|].
      exists e. split; [done|]. by eapply add_argument_raises. }
  rewrite Hsplit.
  destruct (Hgen l1 (builtin_args testproblem weight_decay batch_size num_epochs
                       learning_rate lr_sched_epochs lr_sched_factors random_seed
                       data_dir output_dir train_log_interval print_train_iter no_logs)
              (new_parser ++ actions)%list) as (e & He & Hreg).
  exists e. split; [|done]. apply bind_raise. exact He.
Qed.

End Conflicts.

Lemma get_arguments_defaults_witness :
  ∃ m, get_arguments ["cifar10_vgg16"; "--bs"; "128"; "-N"; "10"; "--lr"; "0.1"]
         [] ANone ANone ANone ANone ANone ANone ANone ANone ANone ANone ANone ANone
         ANone ∅ = Ok m ∧
       m !! "output_dir" = Some (Atom (AStr "results")).
Proof.
  assert (H : returns
                (get_arguments
                   ["cifar10_vgg16"; "--bs"; "128"; "-N"; "10"; "--lr"; "0.1"]
                   [] ANone ANone ANone ANone ANone ANone ANone ANone ANone ANone ANone
                   ANone ANone ∅))
    by (vm_compute; exact I).
  destruct (get_arguments ["cifar10_vgg16"; "--bs"; "128"; "-N"; "10"; "--lr"; "0.1"]
              [] ANone ANone ANone ANone ANone ANone ANone ANone ANone ANone ANone ANone
              ANone ∅) as [m|e] eqn:E;
    [|destruct H].
  exists m. split; [reflexivity|].
  apply (get_arguments_defaults
           ["cifar10_vgg16"; "--bs"; "128"; "-N"; "10"; "--lr"; "0.1"]
           [] ANone ANone ANone ANone ANone ANone ANone ANone ANone ANone ANone ANone
           ANone ∅ m "output_dir" ["--output_dir"] (AStr "results") ANone).
  - do 5 apply list_elem_of_further. apply list_elem_of_here.
  - do 9 apply list_elem_of_further. apply list_elem_of_here.
  - reflexivity.
  - vm_compute. reflexivity.
  - intros hp Hhp. apply elem_of_nil in Hhp. destruct Hhp.
  - exact E.
Defined.

Lemma get_arguments_flag_conflict_witness :
  ∃ e, get_arguments ["cifar10_vgg16"; "--bs"; "128"; "-N"; "10"; "--lr"; "0.1"]
         [{| hp_name := "lr"; hp_type := py_float; hp_default := None |}]
         ANone ANone ANone ANone ANone ANone ANone ANone ANone ANone ANone ANone
         ANone ∅ = Raise e ∧
       registration_error e.
Proof.
  apply (get_arguments_flag_conflict
           ["cifar10_vgg16"; "--bs"; "128"; "-N"; "10"; "--lr"; "0.1"]
           [{| hp_name := "lr"; hp_type := py_float; hp_default := None |}]
           ANone ANone ANone ANone ANone ANone ANone ANone ANone ANone ANone ANone
           ANone ∅
           {| hp_name := "lr"; hp_type := py_float; hp_default := None |}
           (make_action ["--learning_rate"; "--lr"] "learning_rate"
              (typed_required py_float))).
  - apply list_elem_of_here.
  - apply lookup_empty.
  - do 5 apply list_elem_of_further. apply list_elem_of_here.
  - apply list_elem_of_further, list_elem_of_here.
Defined.

Lemma get_arguments_duplicate_hyperparameter_witness :
  ∃ e, get_arguments ["cifar10_vgg16"; "--bs"; "128"; "-N"; "10"; "--lr"; "0.1"]
         [{| hp_name := "momentum"; hp_type := py_float; hp_default := None |};
          {| hp_name := "momentum"; hp_type := py_float;
             hp_default := Some (Atom (AFloat d_0_5)) |}]
         ANone ANone ANone ANone ANone ANone ANone ANone ANone ANone ANone ANone
         ANone ∅ = Raise e ∧
       registration_error e.
Proof.
  apply (get_arguments_duplicate_hyperparameter
           ["cifar10_vgg16"; "--bs"; "128"; "-N"; "10"; "--lr"; "0.1"]
           [{| hp_name := "momentum"; hp_type := py_float; hp_default := None |};
            {| hp_name := "momentum"; hp_type := py_float;
               hp_default := Some (Atom (AFloat d_0_5)) |}]
           ANone ANone ANone ANone ANone ANone ANone ANone ANone ANone ANone ANone
           ANone ∅
           {| hp_name := "momentum"; hp_type := py_float; hp_default := None |}
           {| hp_name := "momentum"; hp_type := py_float;
              hp_default := Some (Atom (AFloat d_0_5)) |}
           [] [] []).
  - reflexivity.
  - reflexivity.
  - apply lookup_empty.
Defined.

(** ** A call that passes everything *)

Section EverythingPassed.

Lemma classify_plain (tbl : list (string * nat)) (words : list string) :
  Forall (fun w => starts_with_dash w = false) words ->
  classify tbl words = Ok (map SymA words).
Proof.
  induction 1 as [|w words Hw _ IH]; cbn [classify map]; [done|].
  destruct w as [|c w]; [by rewrite IH|].
  assert (c ≠ "-"%char).
  { intros ->. discriminate Hw. }
  replace (String.eqb (String c w) "--") with false.
  2:{ symmetry. apply String.eqb_neq. congruence. }
  unfold parse_optional. rewrite Hw. cbn [negb]. py_step. by rewrite IH.
Qed.

Lemma bind_ok {A B : Type} (r : result A) (k : A -> result B) (a : A) :
  r = Ok a -> r ≫= k = k a.
Proof. by intros ->. Qed.

Lemma consume_plain (p : ArgumentParser) (tbl : list (string * nat))
    (words : list string) :
  ∀ st, positionals st = [] ->
    consume (length (map SymA words)) p tbl st (map SymA words)
    = Ok {| namespace := namespace st; seen := seen st; positionals := [];
            extras := (extras st ++ words)%list |}.
Proof.
  induction words as [|w words IH]; intros st Hp; cbn [map length consume].
  - rewrite app_nil_r. destruct st; simpl in *; by subst.
  - rewrite Hp. rewrite IH; [|done]. cbn [add_extra namespace seen extras].
    by rewrite <- app_assoc.
Qed.

Lemma optional_passed (value : pyval) (a : Action) :
  is_none value = false -> optional value a = [].
Proof. unfold optional. by intros ->. Qed.

Context (argv : list string) (hyperparams : list Hyperparam)
        (testproblem weight_decay batch_size num_epochs learning_rate
         lr_sched_epochs lr_sched_factors random_seed data_dir output_dir
         train_log_interval print_train_iter no_logs : pyval)
        (kwargs : gmap string pyval).

Let call := get_arguments argv hyperparams testproblem weight_decay batch_size
              num_epochs learning_rate lr_sched_epochs lr_sched_factors random_seed
              data_dir output_dir train_log_interval print_train_iter no_logs kwargs.
Let values := passed testproblem weight_decay batch_size num_epochs learning_rate
                lr_sched_epochs lr_sched_factors random_seed data_dir output_dir
                train_log_interval print_train_iter no_logs.

Lemma add_hyperparams_supplied (hps : list Hyperparam) :
  ∀ (args0 : gmap string pyval) (p0 : ArgumentParser),
    Forall (fun hp => is_Some (kwargs !! hp_name hp)) hps ->
    ∃ args, add_hyperparams hps kwargs (args0, p0) = Ok (args, p0).
Proof.
  induction hps as [|hp hps IH]; intros args0 p0 Hall; cbn [add_hyperparams].
  - by exists args0.
  - apply Forall_cons in Hall as [[v Hv] Hall]. rewrite Hv. py_step. by apply IH.
Qed.

(** X18: when all thirteen parameters are passed and every declared
    hyperparameter is supplied no flag but [--help] is registered: the
    call returns on an empty command line, and on a command line of
    plain words (none starting with a dash) it exits with status 2,
    "unrecognized arguments". *)
Theorem get_arguments_everything_passed :
  Forall (fun nv => is_none nv.2 = false) values ->
  Forall (fun hp => is_Some (kwargs !! hp_name hp)) hyperparams ->
  Forall (fun w => starts_with_dash w = false) argv ->
  match argv with
  | [] => returns call
  | _ :: _ => call = Raise (SystemExit 2 "unrecognized arguments")
  end.
Proof.
  intros Hvals Hhps Hargv.
  assert (Hnil : builtin_actions testproblem weight_decay batch_size num_epochs
                   learning_rate lr_sched_epochs lr_sched_factors random_seed data_dir
                   output_dir train_log_interval print_train_iter no_logs = []).
  { subst values. unfold passed in Hvals.
    repeat (apply Forall_cons in Hvals as [? Hvals]). cbn [snd] in *.
    unfold builtin_actions. by rewrite !optional_passed by done. }
  destruct (add_hyperparams_supplied hyperparams
              (builtin_args testproblem weight_decay batch_size num_epochs
                 learning_rate lr_sched_epochs lr_sched_factors random_seed data_dir
                 output_dir train_log_interval print_train_iter no_logs)
              (new_parser ++
               builtin_actions testproblem weight_decay batch_size num_epochs
                 learning_rate lr_sched_epochs lr_sched_factors random_seed data_dir
                 output_dir train_log_interval print_train_iter no_logs)%list Hhps)
    as [args Hadd].
  assert (Hcall : call = parse_args [help_action] argv ≫=
                           fun cmdline_args => Ok (cmdline_args ∪ args)).
  { subst call. unfold get_arguments. rewrite build_builtins.
    etrans; [apply (bind_ok _ _ _ Hadd)|]. by rewrite Hnil. }
  rewrite Hcall. unfold parse_args.
  rewrite (classify_plain _ _ Hargv). py_step.
  rewrite consume_plain; [|done]. py_step.
  cbn [finish seen namespace extras app]. py_step.
  by destruct argv.
Qed.

End EverythingPassed.

Lemma get_arguments_everything_passed_witness :
  get_arguments ["extra"] []
    (AStr "cifar10_vgg16") (AFloat d_0_01) (AInt 128) (AInt 10) (AFloat d_0_1)
    (PyList [AInt 50]) (PyList [AFloat d_0_1]) (AInt 42) (AStr "data")
    (AStr "results") (AInt 10) (ABool false) (ABool false) ∅
  = Raise (SystemExit 2 "unrecognized arguments").
Proof.
  apply (get_arguments_everything_passed ["extra"] []
           (AStr "cifar10_vgg16") (AFloat d_0_01) (AInt 128) (AInt 10) (AFloat d_0_1)
           (PyList [AInt 50]) (PyList [AFloat d_0_1]) (AInt 42) (AStr "data")
           (AStr "results") (AInt 10) (ABool false) (ABool false) ∅).
  - repeat constructor.
  - constructor.
  - repeat constructor.
Defined.
